(** * Product-advisor API: the request handler and its services

    A shallow embedding of [src/controllers/chatController.js]
    ([handleQuery]), [src/services/cacheService.js],
    [src/services/memoryService.js], [src/services/ragService.js],
    [db.mjs] ([getProductsBySKUs]) and of the handler of the older
    single-file server [index.mjs], with the properties of the
    specification proved about them, and of the batch script
    [generate-embeddings.mjs], with properties of its own.

    JavaScript values are a tagged union, the external systems (document
    store, LLM, product catalog, clock) are components of an explicit
    [World] that every asynchronous function threads, and [throw] /
    [try ... catch] are an error monad over that state.

    What the model assumes:
    - values are data, as [JSON.parse] and the store give them: no
      property of an object is a function, so the conversion of a
      value to a string throws for an object that has a property
      [toString] of its own, and for an array that holds one;
    - strings are sequences of code units below 256;
    - a request is handled from start to end before the next one
      (nothing interleaves between two [await]s of one request);
    - ids reach the store as their text, and the store keeps no other
      record of a call than the documents and entries written;
    - [getConversationHistory], [addConversationEntries],
      [summarizeAndStoreMemory] and [summarizeConversation] are
      modelled for a user id and stored turns that have a text, which
      is what the handler gives them;
    - [console.log] lines are left out, except where evaluating their
      text can throw. *)

From Stdlib Require Import String Ascii List Bool Arith Lia DecimalString.
From stdpp Require Import base option list strings gmap.

Import ListNotations.

Set Warnings "-register-all".

(** ** Strings *)

Module Str.

(** Characters that cannot be typed inside a literal. *)
Definition nl : string := String (ascii_of_nat 10) "".
Definition dquote : string := String (ascii_of_nat 34) "".

(** [WhiteSpace] and [LineTerminator] of ECMAScript among the code
    units below 256: TAB, LF, VT, FF, CR, SPACE and NBSP.  Both
    [String.prototype.trim] and the regular-expression class [\s] use
    this set. *)
Definition is_ws (c : ascii) : bool :=
  let n := nat_of_ascii c in
  ((9 <=? n) && (n <=? 13)) || (n =? 32) || (n =? 160).

Fixpoint trimStart (s : string) : string :=
  match s with
  | String c s' => if is_ws c then trimStart s' else s
  | EmptyString => EmptyString
  end.

(** [trimEnd] drops a character when it is white space and everything
    after it has been dropped. *)
Fixpoint trimEnd (s : string) : string :=
  match s with
  | String c s' =>
      match trimEnd s' with
      | EmptyString => if is_ws c then EmptyString else String c EmptyString
      | t => String c t
      end
  | EmptyString => EmptyString
  end.

Definition trim (s : string) : string := trimEnd (trimStart s).

(** [s.startsWith(p)] *)
Fixpoint startsWith (p s : string) : bool :=
  match p, s with
  | EmptyString, _ => true
  | String a p', String b s' => if Ascii.eqb a b then startsWith p' s' else false
  | String _ _, EmptyString => false
  end.

(** [dropPrefix p s] is what follows [p] in [s] when [s] starts with [p]. *)
Fixpoint dropPrefix (p s : string) : option string :=
  match p, s with
  | EmptyString, _ => Some s
  | String a p', String b s' => if Ascii.eqb a b then dropPrefix p' s' else None
  | String _ _, EmptyString => None
  end.

(** [splitFirst sub s]: the text before and after the first occurrence
    of [sub] in [s] ([s.indexOf(sub)] with both sides cut out). *)
Fixpoint splitFirst (sub s : string) : option (string * string) :=
  match dropPrefix sub s with
  | Some rest => Some (EmptyString, rest)
  | None =>
      match s with
      | String c s' =>
          match splitFirst sub s' with
          | Some (before, after) => Some (String c before, after)
          | None => None
          end
      | EmptyString => None
      end
  end.

(** [s.includes(sub)] *)
Definition includes (sub s : string) : bool :=
  match splitFirst sub s with Some _ => true | None => false end.

(** [parts.join(sep)] *)
Fixpoint join (sep : string) (parts : list string) : string :=
  match parts with
  | [] => EmptyString
  | [x] => x
  | x :: rest => x +:+ sep +:+ join sep rest
  end.

(** [GetSubstitution] of ECMAScript for a string pattern (no capture
    groups): [$$] is a dollar sign, [$&] the matched text, [$`] the
    text before the match, [$'] the text after it; any other [$] stays
    as it is. *)
Fixpoint getSubstitution (matched before after replacement : string) : string :=
  match replacement with
  | String d tail =>
      if Ascii.eqb d "$" then
        match tail with
        | String c r =>
            if Ascii.eqb c "$" then "$" +:+ getSubstitution matched before after r
            else if Ascii.eqb c "&" then matched +:+ getSubstitution matched before after r
            else if Ascii.eqb c "`" then before +:+ getSubstitution matched before after r
            else if Ascii.eqb c "'" then after +:+ getSubstitution matched before after r
            else String d (getSubstitution matched before after tail)
        | EmptyString => String d EmptyString
        end
      else String d (getSubstitution matched before after tail)
  | EmptyString => EmptyString
  end.

(** [s.replace(pattern, replacement)] with a string pattern: only the
    first occurrence is replaced. *)
Definition replace (pattern replacement s : string) : string :=
  match splitFirst pattern s with
  | Some (before, after) =>
      before +:+ getSubstitution pattern before after replacement +:+ after
  | None => s
  end.

(** A text without its first character. *)
Definition tail (s : string) : string :=
  match s with String _ s' => s' | EmptyString => EmptyString end.

End Str.

(** ** JavaScript values *)

Module Js.

(** The values that travel through the handler: what [JSON.parse]
    produces, plus [undefined].  A number is carried as the text that
    [Number::toString] gives for it (["0"] for both zeros, ["NaN"],
    ["Infinity"], ["-12.5"], ...): the code never computes with a
    number, it only tests, compares with zero and prints it.  An
    object is its list of own properties in enumeration order. *)
Inductive value : Type :=
| JUndefined
| JNull
| JBool (b : bool)
| JNum (repr : string)
| JStr (s : string)
| JArr (items : list value)
| JObj (fields : list (string * value)).

(** Thrown values; each carries its [message]. *)
Inductive exn : Type :=
| Error (message : string)
| TypeError (message : string)
| SyntaxError (message : string).

Definition message (e : exn) : string :=
  match e with Error m | TypeError m | SyntaxError m => m end.

(** How the evaluation of an expression ends. *)
Inductive completion (A : Type) : Type :=
| Normal (a : A)
| Throw (e : exn).
Arguments Normal {A} a.
Arguments Throw {A} e.

Definition cbind {A B} (c : completion A) (k : A -> completion B) : completion B :=
  match c with
  | Normal a => k a
  | Throw e => Throw e
  end.

(** What the run-time system supplies and this repository only calls:
    [JSON.parse] ([None] is the [SyntaxError] it throws) and the
    [StringToNumber] conversion behind [>] (its result as
    [Number::toString] prints it). *)
Record Runtime : Type := {
  JSON_parse : string -> option value;
  StringToNumber : string -> string
}.

(** [ToBoolean] *)
Definition truthy (v : value) : bool :=
  match v with
  | JUndefined | JNull => false
  | JBool b => b
  | JNum r => negb (String.eqb r "0") && negb (String.eqb r "NaN")
  | JStr s => negb (String.eqb s "")
  | JArr _ | JObj _ => true
  end.

(** [a || b] *)
Definition or (a b : value) : value := if truthy a then a else b.

(** [typeof v === 'string'] *)
Definition isString (v : value) : bool :=
  match v with JStr _ => true | _ => false end.

(** The text of a value: what [ToString] gives when it gives one. *)
Fixpoint toStr (v : value) : string :=
  match v with
  | JUndefined => "undefined"
  | JNull => "null"
  | JBool true => "true"
  | JBool false => "false"
  | JNum r => r
  | JStr s => s
  | JArr items =>
      Str.join ","
        (List.map (fun x => match x with
                            | JUndefined | JNull => EmptyString
                            | _ => toStr x
                            end) items)
  | JObj _ => "[object Object]"
  end.

(** [obj.hasOwnProperty(k)] *)
Definition hasOwn (k : string) (fields : list (string * value)) : bool :=
  existsb (fun kv => String.eqb k (fst kv)) fields.

(** The values [ToPrimitive] can convert.  The values here are data
    (what [JSON.parse] gives), so an own property [toString] of an
    object is not a function: it hides [Object.prototype.toString],
    [valueOf] gives the object back, and the conversion ends in a
    [TypeError].  An array prints its elements ([null] and [undefined]
    as nothing), so it can be converted when they can. *)
Fixpoint printable (v : value) : bool :=
  match v with
  | JObj fields => negb (hasOwn "toString" fields)
  | JArr items => forallb printable items
  | _ => true
  end.

Definition notPrimitive : exn :=
  TypeError "Cannot convert object to primitive value".

(** [ToString], as a template literal and [String(v)] apply it. *)
Definition ToString (v : value) : completion string :=
  if printable v then Normal (toStr v) else Throw notPrimitive.

(** [items.map(f)] for a callback that can throw. *)
Fixpoint mapArray {A B} (f : A -> completion B) (items : list A) : completion (list B) :=
  match items with
  | [] => Normal []
  | x :: rest =>
      cbind (f x) (fun y => cbind (mapArray f rest) (fun ys => Normal (y :: ys)))
  end.

(** A length as a number. *)
Definition ofNat (n : nat) : value :=
  JNum (NilEmpty.string_of_uint (Nat.to_uint n)).

Fixpoint lookupField (k : string) (fields : list (string * value)) : value :=
  match fields with
  | [] => JUndefined
  | (k', v) :: rest => if String.eqb k k' then v else lookupField k rest
  end.

(** [obj.k = v]: an existing property keeps its place, a new one goes
    last. *)
Fixpoint setField (k : string) (v : value) (fields : list (string * value))
  : list (string * value) :=
  match fields with
  | [] => [(k, v)]
  | (k', v') :: rest =>
      if String.eqb k k' then (k, v) :: rest else (k', v') :: setField k v rest
  end.

(** [v.k] for the property names the code reads (none of them is
    inherited from a prototype except [length]).  Reading a property of
    [undefined] or [null] throws. *)
Definition get (v : value) (k : string) : completion value :=
  match v with
  | JUndefined =>
      Throw (TypeError ("Cannot read properties of undefined (reading '" +:+ k +:+ "')"))
  | JNull =>
      Throw (TypeError ("Cannot read properties of null (reading '" +:+ k +:+ "')"))
  | JObj fields => Normal (lookupField k fields)
  | JArr items => Normal (if String.eqb k "length" then ofNat (length items) else JUndefined)
  | JStr s => Normal (if String.eqb k "length" then ofNat (String.length s) else JUndefined)
  | JBool _ | JNum _ => Normal JUndefined
  end.

(** [obj.name(...)] for a method [name] of [String.prototype], called
    on the value of the variable [obj]: it is there only when the value
    is a string. *)
Definition method (obj name : string) (v : value) : completion string :=
  match v with
  | JStr s => Normal s
  | JUndefined =>
      Throw (TypeError ("Cannot read properties of undefined (reading '" +:+ name +:+ "')"))
  | JNull =>
      Throw (TypeError ("Cannot read properties of null (reading '" +:+ name +:+ "')"))
  | _ => Throw (TypeError (obj +:+ "." +:+ name +:+ " is not a function"))
  end.

(** [for (const x of v)]: the elements of an array, the characters of
    a string; nothing else among these values is iterable. *)
Fixpoint chars (s : string) : list value :=
  match s with
  | String c s' => JStr (String c EmptyString) :: chars s'
  | EmptyString => []
  end.

Definition iterate (v : value) : completion (list value) :=
  match v with
  | JArr items => Normal items
  | JStr s => Normal (chars s)
  | _ => Throw (TypeError "children is not iterable")
  end.

(** [obj.k = v] on a parsed value (the handler assigns only to
    objects). *)
Definition setProp (obj : value) (k : string) (v : value) : value :=
  match obj with
  | JObj fields => JObj (setField k v fields)
  | _ => obj
  end.

(** [v > 0]: [ToNumber] of the value (an object or array goes through
    [ToPrimitive] first, and throws where [ToString] does), then the
    comparison, read off the printed number. *)
Definition positive (repr : string) : bool :=
  negb (String.eqb repr "0") && negb (String.eqb repr "NaN")
  && negb (Str.startsWith "-" repr).

Definition gtZero (rt : Runtime) (v : value) : completion bool :=
  match v with
  | JUndefined | JNull => Normal false
  | JBool b => Normal b
  | JNum r => Normal (positive r)
  | JStr s => Normal (positive (StringToNumber rt s))
  | JArr _ | JObj _ =>
      cbind (ToString v) (fun text => Normal (positive (StringToNumber rt text)))
  end.

(** *** [JSON.stringify] *)

Definition hexDigit (n : nat) : ascii :=
  ascii_of_nat (if n <? 10 then 48 + n else 87 + n).

(** [QuoteJSONString] for one code unit. *)
Definition quoteChar (c : ascii) : string :=
  let n := nat_of_ascii c in
  if n =? 34 then "\" +:+ Str.dquote
  else if n =? 92 then "\\"
  else if n =? 8 then "\b"
  else if n =? 12 then "\f"
  else if n =? 10 then "\n"
  else if n =? 13 then "\r"
  else if n =? 9 then "\t"
  else if n <? 32 then
    "\u00" +:+ String (hexDigit (n / 16)) (String (hexDigit (n mod 16)) EmptyString)
  else String c EmptyString.

Fixpoint quoteChars (s : string) : string :=
  match s with
  | String c s' => quoteChar c +:+ quoteChars s'
  | EmptyString => EmptyString
  end.

Definition quote (s : string) : string :=
  Str.dquote +:+ quoteChars s +:+ Str.dquote.

Definition finite (repr : string) : bool :=
  negb (String.eqb repr "NaN") && negb (String.eqb repr "Infinity")
  && negb (String.eqb repr "-Infinity").

(** [SerializeJSONProperty]: [None] is [undefined] (the property is
    left out of an object, and is [null] inside an array). *)
Fixpoint serialize (v : value) : option string :=
  match v with
  | JUndefined => None
  | JNull => Some "null"
  | JBool true => Some "true"
  | JBool false => Some "false"
  | JNum r => Some (if finite r then r else "null")
  | JStr s => Some (quote s)
  | JArr items =>
      Some ("[" +:+ Str.join ","
              (List.map (fun x => match serialize x with
                                  | Some t => t
                                  | None => "null"
                                  end) items) +:+ "]")
  | JObj fields =>
      Some ("{" +:+ Str.join ","
              (List.concat
                 (List.map (fun kv => match serialize (snd kv) with
                                      | Some t => [quote (fst kv) +:+ ":" +:+ t]
                                      | None => []
                                      end) fields)) +:+ "}")
  end.

(** [JSON.stringify(v)] as a value: a string or [undefined]. *)
Definition JSON_stringify (v : value) : value :=
  match serialize v with Some t => JStr t | None => JUndefined end.

End Js.

Notation "'do' x '<-' c ';' k" := (Js.cbind c (fun x => k))
  (at level 10, x pattern, c at level 100, k at level 200).

(** ** Regular expressions

    The part of ECMAScript's backtracking matcher that the pattern of
    [handleQuery] needs: literals, a greedy optional group, greedy and
    lazy repetition of a character class, one level of capturing groups
    and concatenation.  A matcher receives the rest of the input and a
    continuation; the continuation is given the text consumed, the input
    left and the captures so far, and answers [None] to make the matcher
    backtrack. *)

Module Regex.

Inductive regex : Type :=
| Lit (s : string)                  (* abc *)
| Opt (r : regex)                   (* (?:r)? *)
| Star (cls : ascii -> bool)        (* [cls]* *)
| LazyStar (cls : ascii -> bool)    (* [cls]*? *)
| Group (r : regex)                 (* (r) *)
| Seq (r1 r2 : regex).              (* r1r2 *)

Section Matcher.
Context {A : Type}.

(** Greedy: take one more character while the class allows it, and
    give the continuation the longest run first. *)
Fixpoint greedy (cls : ascii -> bool) (k : string -> string -> option A)
    (acc s : string) : option A :=
  match s with
  | String c s' =>
      if cls c then
        match greedy cls k (acc +:+ String c EmptyString) s' with
        | Some m => Some m
        | None => k acc s
        end
      else k acc s
  | EmptyString => k acc s
  end.

(** Lazy: give the continuation the shortest run first. *)
Fixpoint lazy (cls : ascii -> bool) (k : string -> string -> option A)
    (acc s : string) : option A :=
  match k acc s with
  | Some m => Some m
  | None =>
      match s with
      | String c s' =>
          if cls c then lazy cls k (acc +:+ String c EmptyString) s' else None
      | EmptyString => None
      end
  end.

Fixpoint run (r : regex) (s : string) (caps : list string)
    (k : string -> string -> list string -> option A) : option A :=
  match r with
  | Lit l =>
      match Str.dropPrefix l s with
      | Some rest => k l rest caps
      | None => None
      end
  | Opt r1 =>
      match run r1 s caps k with
      | Some m => Some m
      | None => k EmptyString s caps
      end
  | Star cls => greedy cls (fun consumed rest => k consumed rest caps) EmptyString s
  | LazyStar cls => lazy cls (fun consumed rest => k consumed rest caps) EmptyString s
  | Group r1 =>
      run r1 s caps (fun consumed rest caps1 => k consumed rest (caps1 ++ [consumed]))
  | Seq r1 r2 =>
      run r1 s caps (fun c1 rest1 caps1 =>
        run r2 rest1 caps1 (fun c2 rest2 caps2 => k (c1 +:+ c2) rest2 caps2))
  end.
End Matcher.

(** [s.match(r)] for a pattern without the [g] flag: the match at the
    leftmost position that has one, as the array [[whole; group 1; ...]]
    (groups are numbered as they close, which is the order of their
    opening parentheses when none is nested in another). *)
Fixpoint exec (r : regex) (s : string) : option (list string) :=
  match run r s [] (fun whole _ caps => Some (whole :: caps)) with
  | Some m => Some m
  | None =>
      match s with
      | String _ s' => exec r s'
      | EmptyString => None
      end
  end.

Definition any (_ : ascii) : bool := true.

(** The literal of [handleQuery]: three backticks, an optional [json],
    white space, a lazy capture of anything, three backticks. *)
Definition fence : string := "```".

Definition codeBlock : regex :=
  Seq (Lit fence)
    (Seq (Opt (Lit "json"))
       (Seq (Star Str.is_ws)
          (Seq (Group (LazyStar any)) (Lit fence)))).

(** The white space a text starts with. *)
Fixpoint leadingSpace (s : string) : string :=
  match s with
  | String c s' => if Str.is_ws c then String c (leadingSpace s') else EmptyString
  | EmptyString => EmptyString
  end.

(** What follows an opening fence, read off the text without the
    matcher: the tag, the white space, the content up to the closing
    fence; the result is [[whole; content]] as [exec] gives it. *)
Definition blockAfter (opened : string) : option (list string) :=
  let (tag, rest) :=
    match Str.dropPrefix "json" opened with
    | Some rest => ("json", rest)
    | None => (EmptyString, opened)
    end in
  match Str.splitFirst fence (Str.trimStart rest) with
  | Some (content, _) =>
      Some [fence +:+ tag +:+ leadingSpace rest +:+ content +:+ fence; content]
  | None => None
  end.

(** In the words of the specification, not of the source: the first
    fenced code block of a text is what stands between the first fence
    (with an optional [json] tag and the white space after it left out)
    and the next fence.  The result is the whole block and its content;
    [None] when no fence closes the block. *)
Definition firstFencedBlock (s : string) : option (string * string) :=
  match Str.splitFirst fence s with
  | None => None
  | Some (_, opened) =>
      let (tag, rest) :=
        match Str.dropPrefix "json" opened with
        | Some rest => ("json", rest)
        | None => (EmptyString, opened)
        end in
      match Str.splitFirst fence (Str.trimStart rest) with
      | Some (content, _) =>
          Some (fence +:+ tag +:+ leadingSpace rest +:+ content +:+ fence, content)
      | None => None
      end
  end.

End Regex.
Import Js.

(** ** The world around the handler *)

(** A turn of a conversation: [{ role, content, timestamp }]. *)
Record Entry : Type := mkEntry {
  role : value;
  content : value;
  timestamp : nat
}.

(** A document of the store's custom-data collection.  The services
    write two shapes, [{ data, timestamp }] for a cached response and
    [{ text, type, timestamp }] for a summary; anything else the
    collection may hold is an object with other properties. *)
Inductive Document : Type :=
| CacheDoc (data : value) (timestamp : nat)
| SummaryDoc (text : string) (type : string) (timestamp : nat)
| OtherDoc (fields : list (string * value)).

(** [doc.data] and [doc.text] *)
Definition doc_data (d : Document) : value :=
  match d with
  | CacheDoc data _ => data
  | SummaryDoc _ _ _ => JUndefined
  | OtherDoc fields => lookupField "data" fields
  end.

Definition doc_text (d : Document) : value :=
  match d with
  | CacheDoc _ _ => JUndefined
  | SummaryDoc text _ _ => JStr text
  | OtherDoc fields => lookupField "text" fields
  end.

(** Modelled from the spec: the [MongoStore] class of
    [packages/embedjs-mongodb] is not among the sources (only the
    package's README is).  It is the "document store get/set" and the
    owner of the "conversation entry" records of the specification: the
    custom-data collection by key, the conversations by id, and which
    of the optional methods the object has ([typeof f === 'function'],
    as the services test it). *)
Record MongoStore : Type := mkStore {
  customData : gmap string Document;
  conversations : gmap string (list Entry);
  has_addConversation : bool;
  has_addEntryToConversation : bool;
  has_loaderCustomSet : bool
}.

(** Modelled from the spec: [config/prompts.json] is not among the
    sources; these are the properties the handler reads, the first four
    under [jsonOutputInstructions]. *)
Record PromptConfig : Type := mkPromptConfig {
  systemPreamble : string;
  answerFieldDetails : string;
  relatedProductsFieldDetails : string;
  closingInstruction : string;
  summarizationInstruction : string
}.

(** Everything outside the handler.  [faults] decides, call by call,
    whether the next call to an external system throws (a network
    error, the 15 second timeout, ...); [prompts] are the prompts sent
    to the LLM so far and [llm n p] is the model's result object for
    prompt [p] when [n] prompts went before it; [db] is the product
    catalog's answer to a list of SKUs, absent before [initDatabase];
    [now] is the clock read by [new Date()]. *)
Record World : Type := mkWorld {
  ragApplication : bool;
  promptConfig : option PromptConfig;
  cacheService_mongoStore : bool;
  memoryService_mongoStore : bool;
  mongoStore : MongoStore;
  db : option (list value -> list value);
  llm : nat -> string -> value;
  prompts : list string;
  faults : list (option exn);
  now : nat
}.

Definition with_store (f : MongoStore -> MongoStore) (w : World) : World :=
  mkWorld (ragApplication w) (promptConfig w) (cacheService_mongoStore w)
    (memoryService_mongoStore w) (f (mongoStore w)) (db w) (llm w) (prompts w)
    (faults w) (now w).

Definition with_faults (fs : list (option exn)) (w : World) : World :=
  mkWorld (ragApplication w) (promptConfig w) (cacheService_mongoStore w)
    (memoryService_mongoStore w) (mongoStore w) (db w) (llm w) (prompts w)
    fs (now w).

Definition with_prompts (ps : list string) (w : World) : World :=
  mkWorld (ragApplication w) (promptConfig w) (cacheService_mongoStore w)
    (memoryService_mongoStore w) (mongoStore w) (db w) (llm w) ps
    (faults w) (now w).

Definition with_now (t : nat) (w : World) : World :=
  mkWorld (ragApplication w) (promptConfig w) (cacheService_mongoStore w)
    (memoryService_mongoStore w) (mongoStore w) (db w) (llm w) (prompts w)
    (faults w) t.

Definition set_customData (m : gmap string Document) (s : MongoStore) : MongoStore :=
  mkStore m (conversations s) (has_addConversation s)
    (has_addEntryToConversation s) (has_loaderCustomSet s).

Definition set_conversations (m : gmap string (list Entry)) (s : MongoStore) : MongoStore :=
  mkStore (customData s) m (has_addConversation s)
    (has_addEntryToConversation s) (has_loaderCustomSet s).

(** ** Asynchronous functions: state and exceptions *)

Definition M (A : Type) : Type := World -> World * completion A.

Definition ret {A} (a : A) : M A := fun w => (w, Normal a).
Definition throw {A} (e : exn) : M A := fun w => (w, Throw e).

Definition bind {A B} (m : M A) (k : A -> M B) : M B :=
  fun w => match m w with
           | (w', Normal a) => k a w'
           | (w', Throw e) => (w', Throw e)
           end.

(** [try { m } catch (e) { h e }] *)
Definition try_catch {A} (m : M A) (h : exn -> M A) : M A :=
  fun w => match m w with
           | (w', Normal a) => (w', Normal a)
           | (w', Throw e) => h e w'
           end.

(** An expression evaluated inside an asynchronous function. *)
Definition eval {A} (c : completion A) : M A := fun w => (w, c).

Notation "'let*' x ':=' m 'in' k" := (bind m (fun x => k))
  (at level 10, x pattern, m at level 100, k at level 200).
Notation "m ';;' k" := (bind m (fun _ => k))
  (at level 100, k at level 200, right associativity).

(** A call that leaves the process: the next entry of [faults] says
    whether it throws; otherwise [op] is what the external system does. *)
Definition external {A} (op : World -> World * A) : M A :=
  fun w =>
    match faults w with
    | Some e :: rest => (with_faults rest w, Throw e)
    | None :: rest => let (w', a) := op (with_faults rest w) in (w', Normal a)
    | [] => let (w', a) := op w in (w', Normal a)
    end.

(** [new Date()]: the clock is read and moves on. *)
Definition newDate : M nat :=
  fun w => (with_now (S (now w)) w, Normal (now w)).

(** *** The store's methods *)

Module Store.

(** Modelled from the spec: the store's get by key ([MongoStore] is not
    among the sources); [null] for a key that is not there. *)
Definition loaderCustomGet (key : string) : M (option Document) :=
  external (fun w => (w, customData (mongoStore w) !! key)).

(** Modelled from the spec: the store's set by key ([MongoStore] is not
    among the sources); the document replaces the one under the key. *)
Definition loaderCustomSet (loaderId key : string) (doc : Document) : M unit :=
  external (fun w =>
    (with_store (fun s => set_customData (<[key := doc]> (customData s)) s) w, tt)).

(** Modelled from the spec: whether the store has a conversation with
    this id ([MongoStore] is not among the sources). *)
Definition hasConversation (id : string) : M bool :=
  external (fun w =>
    (w, match conversations (mongoStore w) !! id with Some _ => true | None => false end)).

(** Modelled from the spec: the conversation's entries, [null] when
    there is none ([MongoStore] is not among the sources). *)
Definition getConversation (id : string) : M (option (list Entry)) :=
  external (fun w => (w, conversations (mongoStore w) !! id)).

(** Modelled from the spec: a new conversation has no entry
    ([MongoStore] is not among the sources). *)
Definition addConversation (id : string) : M unit :=
  external (fun w =>
    (with_store (fun s =>
       match conversations s !! id with
       | Some _ => s
       | None => set_conversations (<[id := []]> (conversations s)) s
       end) w, tt)).

(** Modelled from the spec: one "conversation entry" is appended to
    the entries of the conversation with this id ([MongoStore] is not
    among the sources). *)
Definition addEntryToConversation (id : string) (e : Entry) : M unit :=
  external (fun w =>
    (with_store (fun s =>
       match conversations s !! id with
       | Some es => set_conversations (<[id := es ++ [e]]> (conversations s)) s
       | None => s
       end) w, tt)).

End Store.

(** [ragApplication.query(prompt)]: the LLM behind the vector search.
    The prompt is on record whether or not the call comes back. *)
Definition ragApplication_query (prompt : string) : M value :=
  fun w =>
    external (fun w' => (w', llm w (length (prompts w)) prompt))
      (with_prompts (prompts w ++ [prompt]) w).

(** [`${turn.role}: ${turn.content}`] for a turn whose role and
    content have a text. *)
Definition renderTurn (turn : Entry) : string :=
  toStr (role turn) +:+ ": " +:+ toStr (content turn).

(** [turn => `${turn.role}: ${turn.content}`], as the handler calls it
    on what the store gave. *)
Definition historyLine (turn : Entry) : completion string :=
  do role <- ToString (role turn);
  do content <- ToString (content turn);
  Normal (role +:+ ": " +:+ content).

(** [entries.slice(-n)] *)
Definition sliceLast {A} (n : nat) (l : list A) : list A :=
  skipn (length l - n) l.

(** [result.answer || result.content || result.text || result.response || ''] *)
Definition extractOutput (result : value) : completion value :=
  do answer <- get result "answer";
  if truthy answer then Normal answer else
  do content <- get result "content";
  if truthy content then Normal content else
  do text <- get result "text";
  if truthy text then Normal text else
  do response <- get result "response";
  Normal (or response (JStr "")).

(** ** [services/ragService.js] *)

Module RagService.

Definition query (prompt : string) : M value :=
  fun w =>
    if negb (ragApplication w)
    then throw (Error "RAG Application not initialized") w
    else ragApplication_query prompt w.

(** The replacement text of [replace] is the text of [userId]; the
    function is modelled for a user id that has one. *)
Definition summarizeConversation (userId : value) (conversationHistoryText : string)
    (promptTemplate : string) : M value :=
  fun w =>
    if negb (ragApplication w)
    then throw (Error "RAG Application not initialized") w
    else
      let filledPrompt :=
        Str.replace "{{conversationHistoryText}}" conversationHistoryText
          (Str.replace "{{userId}}" (toStr userId) promptTemplate) in
      try_catch
        (let* result := ragApplication_query filledPrompt in
         let* summary := eval (extractOutput result) in
         ret summary)
        (fun _ => ret (JStr "Error performing summarization."))
        w.

End RagService.

(** ** [services/cacheService.js] *)

Module CacheService.

(** The template literal converts [userId] and [query] to strings;
    [metadataString] is one already. *)
Definition generateCacheKey (userId query userMetadata : value) : completion string :=
  let metadataString := JSON_stringify (or userMetadata (JObj [])) in
  do userId <- ToString userId;
  do query <- ToString query;
  Normal ("cache:" +:+ userId +:+ ":" +:+ query +:+ ":" +:+ toStr metadataString).

Definition getCachedResult (userId query userMetadata : value) : M value :=
  fun w =>
    if negb (cacheService_mongoStore w) then ret JNull w else
    (let* cacheKey := eval (generateCacheKey userId query userMetadata) in
     (* the [catch] block returns from the function *)
     let* fetched :=
       try_catch
         (let* cachedResultDocument := Store.loaderCustomGet cacheKey in
          ret (Some cachedResultDocument))
         (fun _ => ret None) in
     match fetched with
     | None => ret JNull
     | Some cachedResultDocument =>
         match cachedResultDocument with
         | Some doc =>
             if truthy (doc_data doc) then
               (* the log line evaluates [query.substring(0, 30)] *)
               let* shown := eval (method "query" "substring" query) in
               let _ := String.substring 0 30 shown in
               ret (doc_data doc)
             else ret JNull
         | None => ret JNull
         end
     end) w.

Definition setCachedResult (userId query userMetadata data : value) : M bool :=
  fun w =>
    if negb (cacheService_mongoStore w) then ret false w else
    if negb (has_loaderCustomSet (mongoStore w)) then ret false w else
    (let* cacheKey := eval (generateCacheKey userId query userMetadata) in
     try_catch
       (let* timestamp := newDate in
        Store.loaderCustomSet (toStr userId) cacheKey (CacheDoc data timestamp);;
        ret true)
       (fun _ => ret false))
      w.

End CacheService.

(** ** [services/memoryService.js] *)

Module MemoryService.

(** [`memory:${userId}:last_summary`] for a user id that has a text. *)
Definition memoryKey (userId : value) : string :=
  "memory:" +:+ toStr userId +:+ ":last_summary".

(** The key is built before the [try] block: a user id that cannot be
    converted makes the function throw. *)
Definition getConversationMemory (userId : value) : M value :=
  fun w =>
    if negb (memoryService_mongoStore w) then ret (JStr "") w else
    (let* id := eval (ToString userId) in
     let memoryKeyForLastSummary := "memory:" +:+ id +:+ ":last_summary" in
     try_catch
       (let* lastSummaryMemory := Store.loaderCustomGet memoryKeyForLastSummary in
        match lastSummaryMemory with
        | Some doc => if truthy (doc_text doc) then ret (doc_text doc) else ret (JStr "")
        | None => ret (JStr "")
        end)
       (fun _ => ret (JStr "")))
      w.

(** The three functions below and [summarizeConversation] are modelled
    for a user id and for stored turns that have a text ([printable]).
    That is what the handler gives them: with a store in the service,
    [getConversationMemory] has converted the id before any of them is
    called, and the handler writes turns it has converted. *)

(** The conversation data, [None] when the store answers [null]; the
    local stand-in [{ conversationId: userId, entries: [] }] is
    [Some []]. *)
Definition getConversationHistory (userId : value) : M (option (list Entry)) :=
  fun w =>
    if negb (memoryService_mongoStore w) then ret (Some []) w else
    try_catch
      (let* conversationExists := Store.hasConversation (toStr userId) in
       if conversationExists then
         Store.getConversation (toStr userId)
       else if has_addConversation (mongoStore w) then
         Store.addConversation (toStr userId);;
         let* conversationData := Store.getConversation (toStr userId) in
         match conversationData with
         | Some es => ret (Some es)
         | None => ret (Some [])
         end
       else ret (Some []))
      (fun _ => ret (Some []))
      w.

Definition addConversationEntries (userId userQuery botResponse : value) : M bool :=
  fun w =>
    if negb (memoryService_mongoStore w)
       || negb (has_addEntryToConversation (mongoStore w))
    then ret false w
    else
      try_catch
        (let* t1 := newDate in
         Store.addEntryToConversation (toStr userId) (mkEntry (JStr "User") userQuery t1);;
         let* t2 := newDate in
         Store.addEntryToConversation (toStr userId) (mkEntry (JStr "Bot") botResponse t2);;
         ret true)
        (fun _ => ret false)
        w.

Definition summarizeAndStoreMemory (userId : value) (promptTemplate : string) : M bool :=
  fun w =>
    if negb (memoryService_mongoStore w) then ret false w else
    try_catch
      (let* conversationData := Store.getConversation (toStr userId) in
       let historyEntries := match conversationData with Some es => es | None => [] end in
       if (0 <? length historyEntries) && (length historyEntries mod 10 =? 0) then
         let historyTextForSummary := Str.join Str.nl (List.map renderTurn historyEntries) in
         let* summary :=
           RagService.summarizeConversation userId historyTextForSummary promptTemplate in
         if truthy summary then
           let* text := eval (method "summary" "startsWith" summary) in
           if negb (Str.startsWith "Error" text)
              && negb (Str.startsWith "Could not summarize" text) then
             let memoryKeyForLastSummary := memoryKey userId in
             if has_loaderCustomSet (mongoStore w) then
               let* timestamp := newDate in
               Store.loaderCustomSet (toStr userId) memoryKeyForLastSummary
                 (SummaryDoc text "conversation_summary" timestamp);;
               ret true
             else ret false
           else ret false
         else ret false
       else ret false)
      (fun _ => ret false)
      w.

End MemoryService.

(** ** [db.mjs] *)

Definition getProductsBySKUs (skus : value) : M (list value) :=
  fun w =>
    match db w with
    | None => ret [] w
    | Some catalog =>
        try_catch
          (match skus with
           | JArr (sku :: rest) =>
               let* products := external (fun w' => (w', catalog (sku :: rest))) in
               ret products
           | _ => ret []
           end)
          (fun _ => ret [])
          w
    end.

(** ** [controllers/chatController.js] *)

(** The part of an Express request the handler reads. *)
Record Request : Type := mkRequest {
  req_body : value;
  req_query : value
}.

(** [res.status(code).json(body)]; [res.json(body)] has status 200. *)
Record Response : Type := mkResponse {
  status : nat;
  json : value
}.

Definition fallbackPrefix : string :=
  "I had a little trouble formatting my response perfectly. Here's the main information: ".

Definition fallbackMarker : string :=
  "I had a little trouble formatting my response".

(** The object built in the [catch] block of the parsing step.  The
    log line before the step has converted [llmOutputString] to a
    string already, so the conversion here gives its text. *)
Definition fallbackResponse (llmOutputString : value) : value :=
  JObj [("answer",
         JStr (fallbackPrefix +:+ toStr (or llmOutputString (JStr "Not available"))));
        ("relatedProducts", JArr [])].

(** The code-fence step: what is handed to [JSON.parse]. *)
Definition cleanOutput (llmOutputString : string) : string :=
  if Str.includes Regex.fence llmOutputString then
    match Regex.exec Regex.codeBlock llmOutputString with
    | Some (_ :: group1 :: _) =>
        if negb (String.eqb group1 "") then Str.trim group1 else llmOutputString
    | _ => llmOutputString
    end
  else llmOutputString.

(** [sku => typeof sku === 'string' ? sku : String(sku)] *)
Definition coerceSku (sku : value) : completion value :=
  if isString sku then Normal sku else
  do text <- ToString sku;
  Normal (JStr text).

(** One line of the user profile for a child. *)
Definition renderChild (child : value) : completion string :=
  do name <- get child "name";
  do name <- ToString (or name (JStr ""));
  do age <- get child "age";
  do age <- ToString (or age (JStr ""));
  do gender <- get child "gender";
  do gender <- ToString (or gender (JStr ""));
  do birthday <- get child "birthday";
  do birthday <- ToString (or birthday (JStr ""));
  Normal ("  - Name: " +:+ name
          +:+ ", Age: " +:+ age
          +:+ ", Gender: " +:+ gender
          +:+ ", Birthday: " +:+ birthday +:+ Str.nl).

Fixpoint renderChildren (children : list value) : completion string :=
  match children with
  | [] => Normal EmptyString
  | child :: rest =>
      do line <- renderChild child;
      do lines <- renderChildren rest;
      Normal (line +:+ lines)
  end.

(** The "Current conversation history" block of the prompt. *)
Definition historySection (currentEntries : list Entry) : completion string :=
  let limitedHistoryEntries := sliceLast 10 currentEntries in
  do lines <- mapArray historyLine limitedHistoryEntries;
  let shortTermHistoryText := Str.join Str.nl lines in
  if negb (String.eqb shortTermHistoryText "") then
    Normal ("Current conversation history:" +:+ Str.nl +:+ shortTermHistoryText
            +:+ Str.nl +:+ Str.nl)
  else Normal EmptyString.

(** [promptForRAG], put together from its blocks: the instructions, the
    profile, the memory, the history and the query. *)
Definition promptText (config : PromptConfig) (profile memory history : string)
    (userQuery : string) : string :=
  (systemPreamble config +:+ Str.nl +:+ Str.nl
   +:+ answerFieldDetails config +:+ Str.nl +:+ Str.nl
   +:+ relatedProductsFieldDetails config +:+ Str.nl +:+ Str.nl)
  +:+ profile
  +:+ memory
  +:+ history
  +:+ ("User's current query: " +:+ userQuery +:+ Str.nl +:+ Str.nl
       +:+ closingInstruction config).

(** The first lines of [handleQuery]: the log line of the request,
    which converts [req.body.userId || 'default_user'] to a string, then
    the query, the user id, the user's name and the children, read off
    the request.  These lines stand before the [try] block. *)
Definition readRequest (req : Request) : completion (value * value * value * value) :=
  let body := req_body req in
  do logged <- get body "userId";
  do _ <- ToString (or logged (JStr "default_user"));
  do userQuery <- (do q <- get body "query";
                   if truthy q then Normal q else get body "question");
  do user <- (do u <- get body "user"; Normal (or u (JObj [])));
  do userId <- (do id <- get user "id";
                if truthy id then Normal id else
                do id <- get body "userId";
                if truthy id then Normal id else
                do id <- get (req_query req) "userId";
                Normal (or id (JStr "default_user")));
  do userName <- (do n <- get user "name"; Normal (or n (JStr "")));
  do children <- (do c <- get user "children"; Normal (or c (JArr [])));
  Normal (userQuery, userId, userName, children).

(** [isValidResponse] of step 7. *)
Definition isValidResponse (botResponseJson : value) : bool :=
  truthy botResponseJson &&
  match get botResponseJson "answer" with
  | Normal (JStr answer) =>
      negb (String.eqb (Str.trim answer) "")
      && negb (Str.includes fallbackMarker answer)
  | _ => false
  end.

(** Step 7 of [handleQuery]: save the conversation, cache the response,
    summarize if needed. *)
Definition saveConversationAndCache (config : PromptConfig)
    (userId userQuery userMetadataForCacheKey botResponseJson : value) : M unit :=
  if isValidResponse botResponseJson then
    let* answer := eval (get botResponseJson "answer") in
    MemoryService.addConversationEntries userId userQuery answer;;
    CacheService.setCachedResult userId userQuery userMetadataForCacheKey botResponseJson;;
    MemoryService.summarizeAndStoreMemory userId (summarizationInstruction config);;
    ret tt
  else ret tt.

Definition errorResponse (error : exn) : Response :=
  mkResponse 500
    (JObj [("answer", JStr "Error processing your question");
           ("relatedProducts", JArr []);
           ("details", JStr (message error))]).

(** How steps 1 to 5 end: with the cached data, or with the text
    extracted from the LLM's result. *)
Inductive Asked : Type :=
| CacheHit (cachedResult : value)
| ModelSaid (llmOutputString : value).

Section Controller.

Variable rt : Runtime.

(** The "User profile" block of the prompt (empty when there is
    neither a name nor a child). *)
Definition profileSection (userName children : value) : completion string :=
  do shown <-
    (if truthy userName then Normal true
     else if truthy children then
       do len <- get children "length"; gtZero rt len
     else Normal false);
  if shown : bool then
    do name <-
      (if truthy userName then
         do text <- ToString userName;
         Normal ("- Name: " +:+ text +:+ Str.nl)
       else Normal EmptyString);
    do len <- get children "length";
    do some <- gtZero rt len;
    if some : bool then
      do items <- iterate children;
      do lines <- renderChildren items;
      Normal ("User profile:" +:+ Str.nl +:+ name
              +:+ "- Children:" +:+ Str.nl +:+ lines +:+ Str.nl)
    else Normal ("User profile:" +:+ Str.nl +:+ name +:+ Str.nl)
  else Normal EmptyString.

(** The "Relevant past information" block. *)
Definition memorySection (userId longTermMemoryContext : value) : completion string :=
  if truthy longTermMemoryContext then
    do text <- method "longTermMemoryContext" "trim" longTermMemoryContext;
    if negb (String.eqb (Str.trim text) "") then
      do id <- ToString userId;
      Normal ("Relevant past information for " +:+ id +:+ ":" +:+ Str.nl
              +:+ text +:+ Str.nl +:+ Str.nl)
    else Normal EmptyString
  else Normal EmptyString.

Definition formatError : exn :=
  Error "LLM output is not in the expected {answer: string, relatedProducts: array} format.".

(** Step 6 of [handleQuery]: parse the LLM output and look the SKUs
    up; the [catch] block puts the fallback in place. *)
Definition parseAndProcess (llmOutputString : value) : M value :=
  try_catch
    (match llmOutputString with
     | JStr s =>
         if String.eqb (Str.trim s) "" then
           throw (Error "LLM output is not a non-empty string, cannot parse.")
         else
           let cleanedOutput := cleanOutput s in
           match JSON_parse rt cleanedOutput with
           | None => throw (SyntaxError "Unexpected token in JSON")
           | Some botResponseJson =>
               let* answer := eval (get botResponseJson "answer") in
               if negb (isString answer) then throw formatError else
               let* relatedProducts := eval (get botResponseJson "relatedProducts") in
               match relatedProducts with
               | JArr skus =>
                   let* strings := eval (mapArray coerceSku skus) in
                   let botResponseJson :=
                     setProp botResponseJson "relatedProducts" (JArr strings) in
                   let* relatedProducts := eval (get botResponseJson "relatedProducts") in
                   let* productDetails := getProductsBySKUs relatedProducts in
                   ret (setProp botResponseJson "relatedProducts" (JArr productDetails))
               | _ => throw formatError
               end
           end
     | _ => throw (Error "LLM output is not a non-empty string, cannot parse.")
     end)
    (fun _ => ret (fallbackResponse llmOutputString)).

(** Steps 1 to 5 of [handleQuery]: cache lookup, memory retrieval,
    prompt, conversation history, LLM query. *)
Definition askModel (config : PromptConfig)
    (userId userQuery userName children : value) : M Asked :=
  (* 1. Cache Handling *)
  let userMetadataForCacheKey := JObj [("name", userName); ("children", children)] in
  let* cachedResult :=
    CacheService.getCachedResult userId userQuery userMetadataForCacheKey in
  if truthy cachedResult then ret (CacheHit cachedResult) else
  (* 2. Memory Retrieval *)
  let* longTermMemoryContext := MemoryService.getConversationMemory userId in
  (* 3. Build Prompt *)
  let* profile := eval (profileSection userName children) in
  let* memory := eval (memorySection userId longTermMemoryContext) in
  (* 4. Conversation History *)
  let* conversationData := MemoryService.getConversationHistory userId in
  let currentEntries := match conversationData with Some es => es | None => [] end in
  let* history := eval (historySection currentEntries) in
  let* query := eval (ToString userQuery) in
  let promptForRAG := promptText config profile memory history query in
  (* 5. Query RAG (raced against the 15 second timeout) *)
  let* result := RagService.query promptForRAG in
  let* llmOutputString := eval (extractOutput result) in
  (* the log line of the extracted output converts it to a string *)
  let* _ := eval (ToString llmOutputString) in
  ret (ModelSaid llmOutputString).

Definition handleQuery (req : Request) (endpointName : string) : M Response :=
  let* (userQuery, userId, userName, children) := eval (readRequest req) in
  if negb (truthy userQuery) then
    ret (mkResponse 400
           (JObj [("answer", JStr "Query is required."); ("relatedProducts", JArr [])]))
  else fun w =>
    match ragApplication w, promptConfig w with
    | true, Some config =>
        try_catch
          (let userMetadataForCacheKey :=
             JObj [("name", userName); ("children", children)] in
           let* asked := askModel config userId userQuery userName children in
           match asked with
           | CacheHit cachedResult => ret (mkResponse 200 cachedResult)
           | ModelSaid llmOutputString =>
               (* 6. Parse and Process Response *)
               let* botResponseJson := parseAndProcess llmOutputString in
               (* 7. Save Conversation and Cache *)
               saveConversationAndCache config userId userQuery
                 userMetadataForCacheKey botResponseJson;;
               (* 8. Return Response *)
               ret (mkResponse 200 botResponseJson)
           end)
          (fun error => ret (errorResponse error))
          w
    | _, _ =>
        ret (mkResponse 503
               (JObj [("answer",
                       JStr ("RAG system or prompt configuration not initialized yet for "
                             +:+ endpointName));
                      ("relatedProducts", JArr [])])) w
    end.

End Controller.

(** ** The router *)

(** [router.post('/ask', ...)] and [router.post('/chat', ...)] *)
Module Routes.

Section Routes.

Variable rt : Runtime.

Definition ask (req : Request) : M Response := handleQuery rt req "/ask".
Definition chat (req : Request) : M Response := handleQuery rt req "/chat".

End Routes.

End Routes.

(** ** [index.mjs]: the single-file server

    The older server, in its revision with the document store, has the
    code of the services inside its handler.  The first lines, the
    prompt and the parsing step are those of [chatController.js] word
    for word, and so is [generateCacheKey]; the store is called without
    the [try] blocks of the services around the conversation history,
    the writes and the summary, and the summary is outside
    [if (isValidResponse)].  (The still older revisions, which keep the
    conversations in memory, are not modelled; they have the code-fence
    lines of [cleanOutput] as well.)

    The module variable [mongoStore] is [null] until the server is
    initialised and the handler only tests it: whether it is set is the
    argument [mongoStoreSet].  The cache key is built first, inside the
    [try] block, so after it the user id and the query have a text. *)

Module SingleFile.

Definition generateCacheKey (userId query userMetadata : value) : completion string :=
  CacheService.generateCacheKey userId query userMetadata.

Definition summarizeConversation (userId : value) (conversationHistoryText : string)
    : M value :=
  fun w =>
    match ragApplication w, promptConfig w with
    | true, Some config =>
        let promptTemplate := summarizationInstruction config in
        if String.eqb promptTemplate "" then
          ret (JStr "Could not summarize due to configuration issue.") w
        else
          let filledPrompt :=
            Str.replace "{{conversationHistoryText}}" conversationHistoryText
              (Str.replace "{{userId}}" (toStr userId) promptTemplate) in
          try_catch
            (let* result := ragApplication_query filledPrompt in
             let* summary := eval (extractOutput result) in
             ret summary)
            (fun _ => ret (JStr "Error performing summarization."))
            w
    | _, _ => ret (JStr "Could not summarize due to configuration issue.") w
    end.

Section SingleFile.

Variable rt : Runtime.
Variable mongoStoreSet : bool.

(** "1. Cache Handling": the data of the cached document, [undefined]
    when there is none. *)
Definition cacheHandling (cacheKey : string) : M value :=
  let* cachedResultDocument :=
    try_catch (Store.loaderCustomGet cacheKey) (fun _ => ret None) in
  match cachedResultDocument with
  | Some doc => ret (doc_data doc)
  | None => ret JUndefined
  end.

(** "2. Memory Retrieval" *)
Definition memoryRetrieval (userId : value) : M value :=
  let memoryKeyForLastSummary := MemoryService.memoryKey userId in
  try_catch
    (let* lastSummaryMemory := Store.loaderCustomGet memoryKeyForLastSummary in
     match lastSummaryMemory with
     | Some doc => if truthy (doc_text doc) then ret (doc_text doc) else ret (JStr "")
     | None => ret (JStr "")
     end)
    (fun _ => ret (JStr "")).

(** "3. Conversation History": no [try] block here. *)
Definition conversationHistory (userId : value) : M (option (list Entry)) :=
  fun w =>
    (let* conversationExists := Store.hasConversation (toStr userId) in
     if conversationExists : bool then
       Store.getConversation (toStr userId)
     else if has_addConversation (mongoStore w) then
       Store.addConversation (toStr userId);;
       let* conversationData := Store.getConversation (toStr userId) in
       match conversationData with
       | Some es => ret (Some es)
       | None => ret (Some [])
       end
     else ret (Some [])) w.

(** From the cache lookup to the LLM's answer. *)
Definition askModel (config : PromptConfig) (cacheKey : string)
    (userId userQuery userName children : value) : M Asked :=
  let* data := cacheHandling cacheKey in
  if truthy data then
    (* the log line evaluates [userQuery.substring(0, 30)] *)
    let* shown := eval (method "userQuery" "substring" userQuery) in
    let _ := String.substring 0 30 shown in
    ret (CacheHit data)
  else
  let* longTermMemoryContext := memoryRetrieval userId in
  let* profile := eval (profileSection rt userName children) in
  let* memory := eval (memorySection userId longTermMemoryContext) in
  let* conversationData := conversationHistory userId in
  let currentEntries := match conversationData with Some es => es | None => [] end in
  let* history := eval (historySection currentEntries) in
  let* query := eval (ToString userQuery) in
  let promptForRAG := promptText config profile memory history query in
  (* raced against the 15 second timeout *)
  let* result := ragApplication_query promptForRAG in
  let* llmOutputString := eval (extractOutput result) in
  let* _ := eval (ToString llmOutputString) in
  ret (ModelSaid llmOutputString).

(** The writes of a valid response: the two turns and the cache. *)
Definition saveConversationAndCache (cacheKey : string)
    (userId userQuery botResponseJson : value) : M unit :=
  fun w =>
    (if isValidResponse botResponseJson then
       let* answer := eval (get botResponseJson "answer") in
       (if has_addEntryToConversation (mongoStore w) then
          let* t1 := newDate in
          Store.addEntryToConversation (toStr userId) (mkEntry (JStr "User") userQuery t1);;
          let* t2 := newDate in
          Store.addEntryToConversation (toStr userId) (mkEntry (JStr "Bot") answer t2)
        else ret tt);;
       (if has_loaderCustomSet (mongoStore w) then
          let* timestamp := newDate in
          Store.loaderCustomSet (toStr userId) cacheKey (CacheDoc botResponseJson timestamp)
        else ret tt)
     else ret tt) w.

(** "Summarization and Memory Storage": after every answer of the
    model, valid or not. *)
Definition summarizeAndStore (userId : value) : M unit :=
  fun w =>
    (let* updatedConvDataForSummary := Store.getConversation (toStr userId) in
     let freshHistoryEntries :=
       match updatedConvDataForSummary with Some es => es | None => [] end in
     if (0 <? length freshHistoryEntries) && (length freshHistoryEntries mod 10 =? 0) then
       let* lines := eval (mapArray historyLine freshHistoryEntries) in
       let historyTextForSummary := Str.join Str.nl lines in
       let* summary := summarizeConversation userId historyTextForSummary in
       if truthy summary then
         let* text := eval (method "summary" "startsWith" summary) in
         if negb (Str.startsWith "Error" text)
            && negb (Str.startsWith "Could not summarize" text) then
           if has_loaderCustomSet (mongoStore w) then
             let* timestamp := newDate in
             Store.loaderCustomSet (toStr userId) (MemoryService.memoryKey userId)
               (SummaryDoc text "conversation_summary" timestamp)
           else ret tt
         else ret tt
       else ret tt
     else ret tt) w.

Definition handleQuery (req : Request) (endpointName : string) : M Response :=
  let* (userQuery, userId, userName, children) := eval (readRequest req) in
  if negb (truthy userQuery) then
    ret (mkResponse 400
           (JObj [("answer", JStr "Query is required."); ("relatedProducts", JArr [])]))
  else fun w =>
    match ragApplication w, promptConfig w, mongoStoreSet with
    | true, Some config, true =>
        try_catch
          (let userMetadataForCacheKey :=
             JObj [("name", userName); ("children", children)] in
           let* cacheKey :=
             eval (generateCacheKey userId userQuery userMetadataForCacheKey) in
           let* asked := askModel config cacheKey userId userQuery userName children in
           match asked with
           | CacheHit data => ret (mkResponse 200 data)
           | ModelSaid llmOutputString =>
               let* botResponseJson := parseAndProcess rt llmOutputString in
               saveConversationAndCache cacheKey userId userQuery botResponseJson;;
               summarizeAndStore userId;;
               ret (mkResponse 200 botResponseJson)
           end)
          (fun error => ret (errorResponse error))
          w
    | _, _, _ =>
        ret (mkResponse 503
               (JObj [("answer",
                       JStr ("RAG system, prompt configuration, or MongoStore not "
                             +:+ "initialized yet for " +:+ endpointName));
                      ("relatedProducts", JArr [])])) w
    end.

End SingleFile.

End SingleFile.

(** ** [generate-embeddings.mjs]

    The script that embeds the rows of the product CSV file, batch by
    batch, and keeps a progress file to resume from.  This is the
    version that writes the rows of a batch as CSV lines; the two
    limits [MAX_RECORDS_PER_SUB_BATCH] and [MAX_CHARS_PER_API_BATCH]
    are parameters (the versions of the script have 100 or 1 for the
    first and 750000 for the second).

    The file system and the RAG library are components of an explicit
    [Disk]; a call that throws is taken to have had no effect.  Column
    names are taken to be distinct and not array indices, so that
    [Object.keys] and [Object.values] follow the order of the columns,
    and the index in a progress file is taken to be an integer. *)

Module GenerateEmbeddings.

(** A row of the CSV file as [csv-parse] gives it with [columns: true]:
    the column names and the values, in the order of the columns. *)
Definition record : Type := list (string * string).

(** [Object.keys(record)] and [Object.values(record)] *)
Definition keys (r : record) : list string := List.map fst r.
Definition values (r : record) : list string := List.map snd r.

(** The progress file: not there, there without a usable
    [lastProcessedRecordIndex] (unreadable, not JSON, not a number), or
    the JSON text of [{ lastProcessedRecordIndex: n }]. *)
Inductive ProgressFile : Type :=
| NoFile
| Unusable
| Saved (lastProcessedRecordIndex : Z).

(** What the script works on: the rows of the CSV file, the progress
    file, the temporary batch files by batch number, and the batch
    files that the loader has embedded so far, oldest first.
    [diskFaults] decides, call by call, whether the next call to [fs]
    throws, [serviceFaults] does so for the RAG library. *)
Record Disk : Type := mkDisk {
  tempDir : bool;
  csvFile : list record;
  progressFile : ProgressFile;
  batchFiles : gmap nat string;
  loaded : list string;
  diskFaults : list (option exn);
  serviceFaults : list (option exn)
}.

Definition Script (A : Type) : Type := Disk -> Disk * completion A.

Definition ret {A} (a : A) : Script A := fun d => (d, Normal a).
Definition throw {A} (e : exn) : Script A := fun d => (d, Throw e).

Definition bind {A B} (m : Script A) (k : A -> Script B) : Script B :=
  fun d => match m d with
           | (d', Normal a) => k a d'
           | (d', Throw e) => (d', Throw e)
           end.

(** [try { m } catch (e) { h e }] *)
Definition try_catch {A} (m : Script A) (h : exn -> Script A) : Script A :=
  fun d => match m d with
           | (d', Normal a) => (d', Normal a)
           | (d', Throw e) => h e d'
           end.

(** [try { m } finally { f }]: [f] runs however [m] ends, and an
    exception of [f] replaces the outcome of [m]. *)
Definition try_finally {A} (m : Script A) (f : Script unit) : Script A :=
  fun d => match m d with
           | (d', outcome) =>
               match f d' with
               | (d'', Normal _) => (d'', outcome)
               | (d'', Throw e) => (d'', Throw e)
               end
           end.

Notation "'let+' x ':=' m 'in' k" := (bind m (fun x => k))
  (at level 10, x pattern, m at level 100, k at level 200).

(** A call to [fs]: the next entry of [diskFaults] says whether it
    throws (it has done nothing then); otherwise [op] is its effect. *)
Definition fs {A} (op : Disk -> Disk * A) : Script A :=
  fun d =>
    let after rest :=
      mkDisk (tempDir d) (csvFile d) (progressFile d) (batchFiles d) (loaded d)
        rest (serviceFaults d) in
    match diskFaults d with
    | Some e :: rest => (after rest, Throw e)
    | None :: rest => let (d', a) := op (after rest) in (d', Normal a)
    | [] => let (d', a) := op d in (d', Normal a)
    end.

(** A call to the RAG library, with [serviceFaults] in the same way. *)
Definition service {A} (op : Disk -> Disk * A) : Script A :=
  fun d =>
    let after rest :=
      mkDisk (tempDir d) (csvFile d) (progressFile d) (batchFiles d) (loaded d)
        (diskFaults d) rest in
    match serviceFaults d with
    | Some e :: rest => (after rest, Throw e)
    | None :: rest => let (d', a) := op (after rest) in (d', Normal a)
    | [] => let (d', a) := op d in (d', Normal a)
    end.

(** [fs.mkdirSync(tempDir, { recursive: true })] *)
Definition mkdirSync : Script unit :=
  fs (fun d =>
    (mkDisk true (csvFile d) (progressFile d) (batchFiles d) (loaded d)
       (diskFaults d) (serviceFaults d), tt)).

(** [parse(fs.readFileSync(csvPath, 'utf8'), ...)] *)
Definition readRecords : Script (list record) :=
  fs (fun d => (d, csvFile d)).

(** [fs.writeFileSync(PROGRESS_FILE_PATH, JSON.stringify({ lastProcessedRecordIndex: index }))] *)
Definition writeProgress (index : Z) : Script unit :=
  fs (fun d =>
    (mkDisk (tempDir d) (csvFile d) (Saved index) (batchFiles d) (loaded d)
       (diskFaults d) (serviceFaults d), tt)).

(** [fs.writeFileSync(batchFilePath, content)] for batch [batchNumber] *)
Definition writeBatchFile (batchNumber : nat) (content : string) : Script unit :=
  fs (fun d =>
    (mkDisk (tempDir d) (csvFile d) (progressFile d)
       (<[batchNumber := content]> (batchFiles d)) (loaded d)
       (diskFaults d) (serviceFaults d), tt)).

(** [fs.readFileSync(batchFilePath, 'utf8')], for the log *)
Definition readBatchFile (batchNumber : nat) : Script string :=
  fun d =>
    match batchFiles d !! batchNumber with
    | Some content => fs (fun d' => (d', content)) d
    | None => (d, Throw (Error "ENOENT: no such file or directory"))
    end.

(** [fs.unlinkSync(batchFilePath)] *)
Definition unlinkSync (batchNumber : nat) : Script unit :=
  fs (fun d =>
    (mkDisk (tempDir d) (csvFile d) (progressFile d)
       (delete batchNumber (batchFiles d)) (loaded d)
       (diskFaults d) (serviceFaults d), tt)).

(** [ragApplication.addLoader(new CsvLoader({ filePathOrUrl: batchFilePath }))]:
    the loader embeds the file as it is on disk. *)
Definition addLoader (batchNumber : nat) : Script unit :=
  fun d =>
    match batchFiles d !! batchNumber with
    | Some content =>
        service (fun d' =>
          (mkDisk (tempDir d') (csvFile d') (progressFile d') (batchFiles d')
             (loaded d' ++ [content]) (diskFaults d') (serviceFaults d'), tt)) d
    | None => (d, Throw (Error "ENOENT: no such file or directory"))
    end.

(** [new RAGApplicationBuilder()....build()] *)
Definition build : Script unit := service (fun d => (d, tt)).

Definition readLastProcessedRecordIndex : Script Z :=
  fun d =>
    match progressFile d with
    | NoFile => ret (-1)%Z d
    | Unusable =>
        try_catch (let+ _ := fs (fun d' => (d', tt)) in ret (-1)%Z)
          (fun _ => ret (-1)%Z) d
    | Saved lastProcessedRecordIndex =>
        try_catch (let+ _ := fs (fun d' => (d', tt)) in ret lastProcessedRecordIndex)
          (fun _ => ret (-1)%Z) d
    end.

Definition saveProgress (index : Z) : Script unit :=
  try_catch (writeProgress index) (fun _ => ret tt).

(** The quoting of a value of a CSV line: a value with a comma, a
    double quote or a newline goes between double quotes, with every
    double quote of its own written twice (the [replace] with a global
    pattern). *)
Fixpoint doubleQuotes (s : string) : string :=
  match s with
  | String c s' =>
      if Ascii.eqb c (ascii_of_nat 34)
      then String c (String c (doubleQuotes s'))
      else String c (doubleQuotes s')
  | EmptyString => EmptyString
  end.

Definition csvValue (strValue : string) : string :=
  if Str.includes "," strValue || Str.includes Str.dquote strValue
     || Str.includes Str.nl strValue
  then Str.dquote +:+ doubleQuotes strValue +:+ Str.dquote
  else strValue.

Definition csvLine (r : record) : string :=
  Str.join "," (List.map csvValue (values r)).

(** [[header, ...csvLines].join('\n')] *)
Definition batchFileContent (header : string) (subBatchRecords : list record) : string :=
  Str.join Str.nl (header :: List.map csvLine subBatchRecords).

(** [Object.values(record).join(',').length] *)
Definition recordChars (r : record) : nat := String.length (Str.join "," (values r)).

Section Batching.

Variables MAX_RECORDS_PER_SUB_BATCH MAX_CHARS_PER_API_BATCH : nat.

Variable allRecords : list record.

(** [allRecords[i]], [undefined] outside the array. *)
Definition recordAt (i : Z) : option record :=
  if (i <? 0)%Z then None else nth_error allRecords (Z.to_nat i).

(** The [for] loop that fills a sub-batch, [iterations] being how many
    values of [i] are left below [MAX_RECORDS_PER_SUB_BATCH].  It gives
    the sub-batch, its size in characters and the index of the next
    record. *)
Fixpoint fillSubBatch (iterations : nat) (subBatchRecords : list record)
    (subBatchChars : nat) (currentRecordIndex : Z)
  : completion (list record * nat * Z) :=
  match iterations with
  | 0 => Normal (subBatchRecords, subBatchChars, currentRecordIndex)
  | S iterations' =>
      if (currentRecordIndex <? Z.of_nat (length allRecords))%Z then
        match recordAt currentRecordIndex with
        | None => Throw (TypeError "Cannot convert undefined or null to object")
        | Some r =>
            if (0 <? length subBatchRecords)
               && (MAX_CHARS_PER_API_BATCH <? subBatchChars + recordChars r)
            then Normal (subBatchRecords, subBatchChars, currentRecordIndex)
            else
              let subBatchRecords := subBatchRecords ++ [r] in
              let subBatchChars := subBatchChars + recordChars r in
              let currentRecordIndex := (currentRecordIndex + 1)%Z in
              if MAX_CHARS_PER_API_BATCH <=? subBatchChars
              then Normal (subBatchRecords, subBatchChars, currentRecordIndex)
              else fillSubBatch iterations' subBatchRecords subBatchChars currentRecordIndex
        end
      else Normal (subBatchRecords, subBatchChars, currentRecordIndex)
  end.

(** One batch, once its records are chosen: the file is written and
    read back for the log, the loader embeds it, the progress is saved,
    and the file is removed whatever the loader did. *)
Definition processBatch (header : string) (batchNumber : nat)
    (subBatchRecords : list record) (currentRecordIndex : Z) : Script unit :=
  let+ _ := writeBatchFile batchNumber (batchFileContent header subBatchRecords) in
  let+ _ := readBatchFile batchNumber in
  try_finally
    (try_catch
       (let+ _ := addLoader batchNumber in
        saveProgress (currentRecordIndex - 1)%Z)
       (fun e => throw e))
    (fun d =>
       match batchFiles d !! batchNumber with
       | Some _ => unlinkSync batchNumber d
       | None => ret tt d
       end).

(** The [while] loop, [batchNumber] being the batches numbered so far.
    [None] stands for a loop that has not come to its end within
    [fuel] rounds. *)
Fixpoint batches (fuel : nat) (header : string) (batchNumber : nat)
    (currentRecordIndex : Z) (d : Disk) : option (Disk * completion unit) :=
  match fuel with
  | 0 => None
  | S fuel' =>
      if (currentRecordIndex <? Z.of_nat (length allRecords))%Z then
        let batchNumber := S batchNumber in
        match fillSubBatch MAX_RECORDS_PER_SUB_BATCH [] 0 currentRecordIndex with
        | Throw e => Some (d, Throw e)
        | Normal (subBatchRecords, subBatchChars, currentRecordIndex) =>
            if length subBatchRecords =? 0 then
              if (currentRecordIndex <? Z.of_nat (length allRecords))%Z then
                match saveProgress currentRecordIndex d with
                | (d', Normal _) =>
                    batches fuel' header batchNumber (currentRecordIndex + 1)%Z d'
                | (d', Throw e) => Some (d', Throw e)
                end
              else Some (d, Normal tt)
            else
              match processBatch header batchNumber subBatchRecords currentRecordIndex d with
              | (d', Normal _) => batches fuel' header batchNumber currentRecordIndex d'
              | (d', Throw e) => Some (d', Throw e)
              end
        end
      else Some (d, Normal tt)
  end.

End Batching.

(** [allRecords.length > 0 ? Object.keys(allRecords[0]).join(',') : ''] *)
Definition header (allRecords : list record) : string :=
  match allRecords with
  | first :: _ => Str.join "," (keys first)
  | [] => EmptyString
  end.

Section Run.

Variables MAX_RECORDS_PER_SUB_BATCH MAX_CHARS_PER_API_BATCH : nat.

(** The body of the [try] block of [generateEmbeddings]. *)
Definition embed (fuel : nat) (d : Disk) : option (Disk * completion bool) :=
  match (if tempDir d then ret tt d else mkdirSync d) with
  | (d, Throw e) => Some (d, Throw e)
  | (d, Normal _) =>
  match build d with
  | (d, Throw e) => Some (d, Throw e)
  | (d, Normal _) =>
  match readRecords d with
  | (d, Throw e) => Some (d, Throw e)
  | (d, Normal allRecords) =>
  match readLastProcessedRecordIndex d with
  | (d, Throw e) => Some (d, Throw e)
  | (d, Normal lastProcessedRecordIndex) =>
      let currentRecordIndex := (lastProcessedRecordIndex + 1)%Z in
      if negb ((0 <? currentRecordIndex)%Z
               && (currentRecordIndex <? Z.of_nat (length allRecords))%Z)
         && ((Z.of_nat (length allRecords) <=? currentRecordIndex)%Z
             && (0 <? length allRecords))
      then Some (d, Normal true)
      else
        if String.eqb (header allRecords) "" then Some (d, Normal true)
        else
          match batches MAX_RECORDS_PER_SUB_BATCH MAX_CHARS_PER_API_BATCH allRecords
                  fuel (header allRecords) 0 currentRecordIndex d with
          | Some (d, Normal _) => Some (d, Normal true)
          | Some (d, Throw e) => Some (d, Throw e)
          | None => None
          end
  end end end end.

(** [generateEmbeddings()]: [true] when the run came to its end,
    [false] when something threw. *)
Definition generateEmbeddings (fuel : nat) (d : Disk) : option (Disk * bool) :=
  match embed fuel d with
  | Some (d', Normal done) => Some (d', done)
  | Some (d', Throw _) => Some (d', false)
  | None => None
  end.

End Run.

End GenerateEmbeddings.

(** ** Vocabulary of the specification *)

(** "A string [answer] field and an array [relatedProducts] field". *)
Definition expectedShape (botResponseJson : value) : bool :=
  match get botResponseJson "answer", get botResponseJson "relatedProducts" with
  | Normal (JStr _), Normal (JArr _) => true
  | _, _ => false
  end.

(** The LLM outputs that the parsing step rejects: not a string, empty
    (or blank), not JSON once the code fence is taken off, or JSON of
    another shape. *)
Inductive malformed (rt : Runtime) : value -> Prop :=
| NotAString (v : value) :
    isString v = false -> malformed rt v
| Blank (s : string) :
    Str.trim s = EmptyString -> malformed rt (JStr s)
| Unparsable (s : string) :
    JSON_parse rt (cleanOutput s) = None -> malformed rt (JStr s)
| WrongShape (s : string) (parsed : value) :
    JSON_parse rt (cleanOutput s) = Some parsed ->
    expectedShape parsed = false -> malformed rt (JStr s).

(** "Holds the fallback answer": the text contains the fixed sentence
    of the fallback. *)
Definition holdsFallback (v : value) : bool :=
  match v with
  | JStr text => Str.includes fallbackMarker text
  | _ => false
  end.

Definition answerOf (data : value) : value :=
  match get data "answer" with
  | Normal answer => answer
  | Throw _ => JUndefined
  end.

(** No cached response and no Bot entry of the store holds the fallback
    answer. *)
Definition storeClean (st : MongoStore) : Prop :=
  (forall key data t,
     customData st !! key = Some (CacheDoc data t) ->
     holdsFallback (answerOf data) = false)
  /\ (forall id es e,
        conversations st !! id = Some es ->
        In e es ->
        role e = JStr "Bot" ->
        holdsFallback (content e) = false).

(** The cache key in the words of the specification:
    ['cache:' + userId + ':' + query + ':' + JSON.stringify(userMetadata)],
    where [null] or [undefined] metadata is replaced by the empty
    object.  Concatenation converts [userId] and [query] to strings, and
    throws where that conversion does. *)
Definition specCacheKey (userId query userMetadata : value) : completion string :=
  let metadata :=
    match userMetadata with
    | JNull | JUndefined => JObj []
    | _ => userMetadata
    end in
  do userId <- ToString userId;
  do query <- ToString query;
  Normal ("cache:" +:+ userId +:+ ":" +:+ query +:+ ":" +:+ toStr (JSON_stringify metadata)).




(** The metadata object of the cache key. *)
Definition userMetadata (userName children : value) : value :=
  JObj [("name", userName); ("children", children)].

(** The entries of a fetched conversation ([[]] for [null]). *)
Definition historyOf (conversationData : option (list Entry)) : list Entry :=
  match conversationData with Some es => es | None => [] end.

(** The entry count that makes a summary due. *)
Definition due (historyEntries : list Entry) : bool :=
  (0 <? length historyEntries) && (length historyEntries mod 10 =? 0).

(** The test on the summary: a non-empty string that starts neither
    with [Error] nor with [Could not summarize]. *)
Definition storable (outcome : completion value) : option string :=
  match outcome with
  | Normal (JStr text) =>
      if negb (String.eqb text "")
         && negb (Str.startsWith "Error" text)
         && negb (Str.startsWith "Could not summarize" text)
      then Some text else None
  | _ => None
  end.

(** Whether the next call to an external system throws. *)
Definition nextCallFails (w : World) : bool :=
  match faults w with
  | Some _ :: _ => true
  | _ => false
  end.

(** ** Vocabulary of the proofs *)

(** [returns m]: [m] never throws. *)
Definition returns {A} (m : M A) : Prop :=
  forall w, exists w' a, m w = (w', Normal a).

(** [frame R m]: running [m] takes a world to one related to it by [R],
    however [m] ends. *)
Definition frame (R : World -> World -> Prop) {A} (m : M A) : Prop :=
  forall w, R w (fst (m w)).

(** [quiet m]: [m] sends no prompt to the LLM. *)
Definition quiet {A} (m : M A) : Prop :=
  forall w, prompts (fst (m w)) = prompts w.

(** [grows m]: [m] takes no prompt back; it may send some. *)
Definition grows {A} (m : M A) : Prop :=
  forall w, exists later, prompts (fst (m w)) = prompts w ++ later.

(** The relations used below are preorders that do not look at the
    clock, at the prompts sent, or at faults already consumed. *)
Record closed (R : World -> World -> Prop) : Prop := {
  closed_refl : forall w, R w w;
  closed_trans : forall a b c, R a b -> R b c -> R a c;
  closed_faults : forall w o rest, faults w = o :: rest -> R w (with_faults rest w);
  closed_now : forall w t, R w (with_now t w);
  closed_prompts : forall w ps, R w (with_prompts ps w)
}.

(** The store is the same. *)
Definition sameStore (w w' : World) : Prop := mongoStore w' = mongoStore w.

(** Steps 1 to 6 append no turn and write no document: the custom data
    is untouched and every conversation has the entries it had (one may
    have been created, empty). *)
Definition historyKept (w w' : World) : Prop :=
  customData (mongoStore w') = customData (mongoStore w)
  /\ forall id,
       historyOf (conversations (mongoStore w') !! id)
       = historyOf (conversations (mongoStore w) !! id).

(** The summary step leaves the conversations alone and writes at most
    under the memory key. *)
Definition summaryOnly (userId : value) (w w' : World) : Prop :=
  conversations (mongoStore w') = conversations (mongoStore w)
  /\ forall key,
       key <> MemoryService.memoryKey userId ->
       customData (mongoStore w') !! key = customData (mongoStore w) !! key.

(** A store without fallback answers stays so. *)
Definition cleanKept (w w' : World) : Prop :=
  storeClean (mongoStore w) -> storeClean (mongoStore w').

(** The cache key of a user id and a query that have a text. *)
Definition cacheKeyOf (userId query userMetadata : value) : string :=
  "cache:" +:+ toStr userId +:+ ":" +:+ toStr query +:+ ":"
  +:+ toStr (JSON_stringify (or userMetadata (JObj []))).

(** [v] is neither [undefined] nor [null]. *)
Definition present (v : value) : bool :=
  match v with JUndefined | JNull => false | _ => true end.

(** [v.k] where reading it does not throw. *)
Definition field (v : value) (k : string) : value :=
  match get v k with Normal x => x | Throw _ => JUndefined end.

(** The services and the shape of the store object do not change, and
    a world without faults ahead stays so. *)
Definition servicesKept (w w' : World) : Prop :=
  ragApplication w' = ragApplication w
  /\ promptConfig w' = promptConfig w
  /\ cacheService_mongoStore w' = cacheService_mongoStore w
  /\ memoryService_mongoStore w' = memoryService_mongoStore w
  /\ has_addConversation (mongoStore w') = has_addConversation (mongoStore w)
  /\ has_addEntryToConversation (mongoStore w') = has_addEntryToConversation (mongoStore w)
  /\ has_loaderCustomSet (mongoStore w') = has_loaderCustomSet (mongoStore w)
  /\ (faults w = [] -> faults w' = []).

(** Only the conversation [id] and the documents under [keys] may
    differ. *)
Definition touchesOnly (id : string) (keys : list string) (w w' : World) : Prop :=
  (forall id', id' <> id ->
     conversations (mongoStore w') !! id' = conversations (mongoStore w) !! id')
  /\ (forall key, ~ In key keys ->
        customData (mongoStore w') !! key = customData (mongoStore w) !! key).


(** The size of a sub-batch as the loop of the script counts it. *)
Definition batchChars (b : list GenerateEmbeddings.record) : nat :=
  list_sum (List.map GenerateEmbeddings.recordChars b).

(** What the batching promises of a sub-batch: it is not empty, it has
    at most [MAX_RECORDS_PER_SUB_BATCH] records, and it stays within
    [MAX_CHARS_PER_API_BATCH] characters unless it is a single record. *)
Definition wellFormed (MAX_RECORDS_PER_SUB_BATCH MAX_CHARS_PER_API_BATCH : nat)
    (b : list GenerateEmbeddings.record) : Prop :=
  b <> []
  /\ length b <= MAX_RECORDS_PER_SUB_BATCH
  /\ (length b = 1 \/ batchChars b <= MAX_CHARS_PER_API_BATCH).

(** The index of the record that a run of the script starts with. *)
Definition nextRecord (p : GenerateEmbeddings.ProgressFile) : Z :=
  match p with
  | GenerateEmbeddings.Saved lastProcessedRecordIndex => (lastProcessedRecordIndex + 1)%Z
  | _ => 0%Z
  end.

(** ** A small deployment to run the handler on *)

Module Example.

(** A [JSON.parse] that knows the listed texts and rejects the rest. *)
Fixpoint parseTable (table : list (string * value)) (text : string) : option value :=
  match table with
  | [] => None
  | (known, v) :: rest => if String.eqb text known then Some v else parseTable rest text
  end.

Definition runtime (table : list (string * value)) : Runtime :=
  {| JSON_parse := parseTable table; StringToNumber := fun _ => "NaN" |}.

(** The JSON text of a value, and a run-time system that parses the
    texts of the listed values back to them. *)
Definition jsonText (v : value) : string := toStr (JSON_stringify v).

Definition knowing (vs : list value) : Runtime :=
  runtime (List.map (fun v => (jsonText v, v)) vs).

Definition config : PromptConfig :=
  mkPromptConfig "You are a product advisor." "answer: a string."
    "relatedProducts: an array of SKUs." "Answer in JSON."
    "Summarize for {{userId}}: {{conversationHistoryText}}".

(** A catalog that has one row per SKU asked for. *)
Definition catalog (skus : list value) : list value :=
  List.map (fun sku => JObj [("sku", sku); ("name", JStr "Rattle")]) skus.

Definition emptyStore : MongoStore := mkStore ∅ ∅ true true true.

(** Every service up, nothing stored, no fault ahead, and an LLM that
    always gives [reply]. *)
Definition world (reply : value) : World :=
  mkWorld true (Some config) true true emptyStore (Some catalog)
    (fun _ _ => reply) [] [] 0.

(** [POST /ask] with this JSON body. *)
Definition post (body : value) : Request := mkRequest body (JObj []).

(** A turn of some earlier conversation. *)
Definition turn (n : nat) : Entry := mkEntry (JStr "User") (JStr "hello") n.

(** The request [{query: 5}] and an LLM that answers it well. *)
Definition helpfulReply : value :=
  JObj [("answer", JStr "Hi"); ("relatedProducts", JArr [])].

Definition numberQuery : Request := post (JObj [("query", JNum "5")]).

Definition helpfulWorld : World :=
  world (JObj [("answer", JStr (jsonText helpfulReply))]).

(** A world whose store holds a cached response for the query [5] of
    user [u1]. *)
Definition cachedNumberQuery : World :=
  with_store
    (set_customData
       {[ "cache:u1:5:{}" := CacheDoc (JObj [("answer", JStr "Hi"); ("relatedProducts", JArr [])]) 7 ]})
    (world JNull).

(** A conversation of ten turns, and a world where user [u1] has it. *)
Definition tenTurns : list Entry := List.map turn (seq 0 10).

Definition afterTenTurns (reply : value) : World :=
  with_store (set_conversations {[ "u1" := tenTurns ]}) (world reply).

End Example.

(** ** A small product file to run the script on *)

Module Catalogue.

Import GenerateEmbeddings.

Definition rattle : record := [("sku", "R-1"); ("name", "Rattle")].
Definition teddy : record := [("sku", "T-2"); ("name", "Teddy, brown")].
Definition ball : record := [("sku", "B-3"); ("name", "Ball")].

(** A first run: three rows, no progress file, no temporary directory,
    and a RAG library that fails on its third call. *)
Definition firstRun : Disk :=
  mkDisk false [rattle; teddy; ball] NoFile ∅ [] []
    [None; None; Some (Error "rate limit")].

End Catalogue.

(** * Properties *)

(** ** The cache key *)

(** C4: for the metadata a caller can pass (an object, or any other
    truthy value, [null], or nothing), [generateCacheKey] is the
    expression of the specification: it gives the same text, and it
    throws on the same arguments, those [userId] and [query] that cannot
    be converted to a string.  A [userId] and a [query] that have a text
    give ['cache:' + userId + ':' + query + ':' + JSON.stringify(m)];
    the key depends on nothing but the three arguments, and omitted or
    [null] metadata gives the key of the empty object.  The single-file
    server has the same function. *)
Theorem C4_generateCacheKey (userId query userMetadata : value) :
  truthy userMetadata = true \/ userMetadata = JNull \/ userMetadata = JUndefined ->
  CacheService.generateCacheKey userId query userMetadata
    = specCacheKey userId query userMetadata
  /\ SingleFile.generateCacheKey userId query userMetadata
     = specCacheKey userId query userMetadata
  /\ (printable userId = true -> printable query = true ->
      CacheService.generateCacheKey userId query userMetadata
      = Normal ("cache:" +:+ toStr userId +:+ ":" +:+ toStr query +:+ ":"
                +:+ toStr (JSON_stringify
                             (match userMetadata with
                              | JNull | JUndefined => JObj []
                              | _ => userMetadata
                              end))))
  /\ (printable userId = false \/ printable query = false ->
      CacheService.generateCacheKey userId query userMetadata = Throw notPrimitive)
  /\ CacheService.generateCacheKey userId query JUndefined
     = CacheService.generateCacheKey userId query (JObj [])
  /\ CacheService.generateCacheKey userId query JNull
     = CacheService.generateCacheKey userId query (JObj []).
Proof.
  intros Hm.
  assert (or userMetadata (JObj [])
          = match userMetadata with JNull | JUndefined => JObj [] | _ => userMetadata end)
    as Hor.
  { unfold or. destruct Hm as [Hm|[->| ->]]; [|reflexivity..].
    rewrite Hm. now destruct userMetadata. }
  unfold SingleFile.generateCacheKey, CacheService.generateCacheKey, specCacheKey, ToString.
  rewrite Hor.
  split; [reflexivity|]. split; [reflexivity|].
  split; [intros -> ->; reflexivity|].
  split; [|split; reflexivity].
  intros [->| ->]; [reflexivity|]. now destruct (printable userId).
Qed.

(** The theorem at work. *)
Lemma C4_generateCacheKey_witness :
  CacheService.generateCacheKey (JStr "u1") (JStr "toys") JNull
  = Normal "cache:u1:toys:{}".
Proof.
  destruct (C4_generateCacheKey (JStr "u1") (JStr "toys") JNull (or_intror (or_introl eq_refl)))
    as (_ & _ & H & _).
  exact (H eq_refl eq_refl).
Defined.

(** ** The code-fence pattern *)

#[local] Arguments Ascii.eqb : simpl never.
#[local] Arguments String.eqb : simpl never.

Section StringFacts.

Lemma append_cons (c : ascii) (s t : string) : String c s +:+ t = String c (s +:+ t).
Proof. reflexivity. Qed.

Lemma append_nil_r (s : string) : s +:+ "" = s.
Proof.
  induction s as [|c s IH]; [reflexivity | rewrite append_cons; f_equal; exact IH].
Qed.

Lemma append_assoc (a b c : string) : (a +:+ b) +:+ c = a +:+ (b +:+ c).
Proof.
  induction a as [|x a IH]; [reflexivity | rewrite !append_cons; f_equal; exact IH].
Qed.

Lemma append_snoc (acc : string) (c : ascii) (s : string) :
  (acc +:+ String c "") +:+ s = acc +:+ String c s.
Proof. now rewrite append_assoc. Qed.

Lemma splitFirst_cons (sub : string) (c : ascii) (s : string) :
  Str.splitFirst sub (String c s)
  = match Str.dropPrefix sub (String c s) with
    | Some rest => Some (EmptyString, rest)
    | None => match Str.splitFirst sub s with
              | Some (before, after) => Some (String c before, after)
              | None => None
              end
    end.
Proof. reflexivity. Qed.

Lemma ascii_eqb_false_ne (a b : ascii) : a <> b -> Ascii.eqb a b = false.
Proof. intros H. now apply Ascii.eqb_neq. Qed.

(** A text that starts with a character other than a backtick does not
    start with the fence. *)
Lemma dropPrefix_fence_other (c : ascii) (s : string) :
  c <> "`"%char -> Str.dropPrefix Regex.fence (String c s) = None.
Proof.
  intros H. unfold Regex.fence. simpl.
  rewrite (ascii_eqb_false_ne "`" c) by congruence. reflexivity.
Qed.

Lemma splitFirst_fence_other (c : ascii) (s : string) :
  c <> "`"%char ->
  Str.splitFirst Regex.fence (String c s)
  = match Str.splitFirst Regex.fence s with
    | Some (before, after) => Some (String c before, after)
    | None => None
    end.
Proof.
  intros H. rewrite splitFirst_cons. now rewrite dropPrefix_fence_other.
Qed.

Lemma is_ws_not_backtick (c : ascii) : Str.is_ws c = true -> c <> "`"%char.
Proof. intros H ->. discriminate H. Qed.

(** Dropping a character cannot create an occurrence. *)
Lemma splitFirst_None_tail (sub : string) (c : ascii) (s : string) :
  Str.splitFirst sub (String c s) = None -> Str.splitFirst sub s = None.
Proof.
  rewrite splitFirst_cons.
  destruct (Str.dropPrefix sub (String c s)); [discriminate|].
  destruct (Str.splitFirst sub s) as [[? ?]|]; [discriminate | reflexivity].
Qed.

End StringFacts.

#[local] Arguments Str.dropPrefix : simpl never.
#[local] Arguments Str.splitFirst : simpl never.

Section FencePattern.

Import Regex.

Context {A : Type}.

Lemma greedy_ext (cls : ascii -> bool) (k1 k2 : string -> string -> option A) :
  (forall acc s, k1 acc s = k2 acc s) ->
  forall s acc, greedy cls k1 acc s = greedy cls k2 acc s.
Proof.
  intros Hk. induction s as [|c s IH]; intros acc; simpl.
  - apply Hk.
  - destruct (cls c); [rewrite IH, Hk; reflexivity | apply Hk].
Qed.

(** The lazy capture followed by the closing fence stops at the first
    fence. *)
Lemma lazy_until_fence (h : string -> string -> A) (s acc : string) :
  lazy any
    (fun consumed rest =>
       match Str.dropPrefix fence rest with
       | Some rest' => Some (h consumed rest')
       | None => None
       end) acc s
  = match Str.splitFirst fence s with
    | Some (content, rest') => Some (h (acc +:+ content) rest')
    | None => None
    end.
Proof.
  revert acc. induction s as [|c s IH]; intros acc.
  - reflexivity.
  - rewrite splitFirst_cons. simpl lazy.
    destruct (Str.dropPrefix fence (String c s)) as [rest'|].
    + now rewrite append_nil_r.
    + rewrite IH. destruct (Str.splitFirst fence s) as [[content rest']|];
        [now rewrite append_snoc | reflexivity].
Qed.

Lemma trimStart_ws (c : ascii) (s : string) :
  Str.is_ws c = true -> Str.trimStart (String c s) = Str.trimStart s.
Proof. intros H. simpl. now rewrite H. Qed.

Lemma trimStart_not_ws (c : ascii) (s : string) :
  Str.is_ws c = false -> Str.trimStart (String c s) = String c s.
Proof. intros H. simpl. now rewrite H. Qed.

(** White space in front hides no fence. *)
Lemma splitFirst_trimStart_None (s : string) :
  Str.splitFirst fence (Str.trimStart s) = None -> Str.splitFirst fence s = None.
Proof.
  induction s as [|c s IH]; [trivial|].
  destruct (Str.is_ws c) eqn:Hc.
  - rewrite trimStart_ws by assumption. intros H.
    rewrite splitFirst_fence_other by now apply is_ws_not_backtick.
    now rewrite IH.
  - now rewrite trimStart_not_ws.
Qed.

(** The greedy white space followed by a search for the fence: the
    longest run is the one that counts, because a shorter run leaves
    only white space more to search. *)
Lemma greedy_ws_then_fence (h : string -> string -> string -> A) (s acc : string) :
  greedy Str.is_ws
    (fun consumed rest =>
       match Str.splitFirst fence rest with
       | Some (content, rest') => Some (h consumed content rest')
       | None => None
       end) acc s
  = match Str.splitFirst fence (Str.trimStart s) with
    | Some (content, rest') => Some (h (acc +:+ leadingSpace s) content rest')
    | None => None
    end.
Proof.
  revert acc. induction s as [|c s IH]; intros acc.
  - reflexivity.
  - simpl greedy. destruct (Str.is_ws c) eqn:Hc.
    + rewrite IH, trimStart_ws by assumption. simpl leadingSpace. rewrite Hc.
      destruct (Str.splitFirst fence (Str.trimStart s)) as [[content rest']|] eqn:Hs.
      * now rewrite append_snoc.
      * rewrite splitFirst_fence_other by now apply is_ws_not_backtick.
        now rewrite (splitFirst_trimStart_None s Hs).
    + rewrite trimStart_not_ws by assumption. simpl leadingSpace. rewrite Hc.
      destruct (Str.splitFirst fence (String c s)) as [[content rest']|];
        [now rewrite append_nil_r | reflexivity].
Qed.

End FencePattern.

Section FirstBlock.

Import Regex.

Lemma dropPrefix_Some (p s rest : string) :
  Str.dropPrefix p s = Some rest -> s = p +:+ rest.
Proof.
  revert s. induction p as [|a p IH]; intros s H.
  - now inversion H.
  - destruct s as [|b s]; [discriminate|].
    change (Str.dropPrefix (String a p) (String b s))
      with (if Ascii.eqb a b then Str.dropPrefix p s else None) in H.
    destruct (Ascii.eqb_spec a b) as [->|]; [|discriminate].
    rewrite append_cons. f_equal. now apply IH.
Qed.

(** After the opening fence and the tag: white space, then the content
    up to the closing fence. *)
Lemma run_after_tag (tag rest : string) :
  greedy Str.is_ws
    (fun consumed rest0 =>
       lazy any
         (fun consumed0 rest1 =>
            match Str.dropPrefix fence rest1 with
            | Some _ =>
                Some [fence +:+ tag +:+ consumed +:+ consumed0 +:+ fence; consumed0]
            | None => None
            end) "" rest0) "" rest
  = match Str.splitFirst fence (Str.trimStart rest) with
    | Some (content, _) =>
        Some [fence +:+ tag +:+ leadingSpace rest +:+ content +:+ fence; content]
    | None => None
    end.
Proof.
  rewrite (greedy_ext _ _
             (fun consumed rest0 =>
                match Str.splitFirst fence rest0 with
                | Some (content, rest') =>
                    Some ((fun consumed content (_ : string) =>
                             [fence +:+ tag +:+ consumed +:+ content +:+ fence; content])
                            consumed content rest')
                | None => None
                end)).
  - now rewrite greedy_ws_then_fence.
  - intros acc s.
    now rewrite (lazy_until_fence
                   (fun consumed0 (_ : string) =>
                      [fence +:+ tag +:+ acc +:+ consumed0 +:+ fence; consumed0])).
Qed.

Lemma run_codeBlock (s : string) :
  run codeBlock s [] (fun whole _ caps => Some (whole :: caps))
  = match Str.dropPrefix fence s with
    | Some opened => Regex.blockAfter opened
    | None => None
    end.
Proof.
  unfold codeBlock. simpl run.
  destruct (Str.dropPrefix fence s) as [opened|]; [|reflexivity].
  unfold Regex.blockAfter.
  destruct (Str.dropPrefix "json" opened) as [rest|] eqn:Htag;
    rewrite !run_after_tag; [|reflexivity].
  destruct (Str.splitFirst fence (Str.trimStart rest)) as [[content rest']|] eqn:Hclose;
    [reflexivity|].
  (* no closing fence after the tag: none without the tag either *)
  apply dropPrefix_Some in Htag. subst opened.
  apply splitFirst_trimStart_None in Hclose.
  change ("json" +:+ rest) with (String "j" (String "s" (String "o" (String "n" rest)))).
  rewrite trimStart_not_ws by reflexivity.
  rewrite !splitFirst_fence_other by discriminate.
  now rewrite Hclose.
Qed.

Lemma splitFirst_here (sub s rest : string) :
  Str.dropPrefix sub s = Some rest -> Str.splitFirst sub s = Some (EmptyString, rest).
Proof.
  intros H. destruct s as [|c s].
  - unfold Str.splitFirst. now rewrite H.
  - rewrite splitFirst_cons. now rewrite H.
Qed.

Lemma splitFirst_None_suffix (sub a b : string) :
  Str.splitFirst sub (a +:+ b) = None -> Str.splitFirst sub b = None.
Proof.
  induction a as [|c a IH]; [trivial|].
  rewrite append_cons. intros H. apply IH. now apply splitFirst_None_tail in H.
Qed.

Lemma leadingSpace_trimStart (s : string) : s = leadingSpace s +:+ Str.trimStart s.
Proof.
  induction s as [|c s IH]; [reflexivity|].
  simpl. destruct (Str.is_ws c); [rewrite append_cons; now f_equal | reflexivity].
Qed.

(** No fence after the opening one: no block; and conversely. *)
Lemma blockAfter_None_iff (opened : string) :
  Regex.blockAfter opened = None <-> Str.splitFirst fence opened = None.
Proof.
  unfold Regex.blockAfter.
  destruct (Str.dropPrefix "json" opened) as [rest|] eqn:Htag.
  - apply dropPrefix_Some in Htag. subst opened.
    split.
    + destruct (Str.splitFirst fence (Str.trimStart rest)) as [[? ?]|] eqn:Hclose;
        [discriminate|]. intros _.
      apply splitFirst_trimStart_None in Hclose.
      change ("json" +:+ rest) with (String "j" (String "s" (String "o" (String "n" rest)))).
      rewrite !splitFirst_fence_other by discriminate. now rewrite Hclose.
    + intros H. apply splitFirst_None_suffix in H.
      rewrite (leadingSpace_trimStart rest) in H. apply splitFirst_None_suffix in H.
      now rewrite H.
  - split.
    + destruct (Str.splitFirst fence (Str.trimStart opened)) as [[? ?]|] eqn:Hclose;
        [discriminate|]. intros _. now apply splitFirst_trimStart_None.
    + intros H. rewrite (leadingSpace_trimStart opened) in H.
      apply splitFirst_None_suffix in H. now rewrite H.
Qed.

Lemma splitFirst_None_rest (sub s : string) :
  Str.splitFirst sub s = None -> Str.splitFirst sub (Str.tail s) = None.
Proof. destruct s; [trivial | apply splitFirst_None_tail]. Qed.

Lemma exec_unfold (r : regex) (s : string) :
  exec r s
  = match run r s [] (fun whole _ caps => Some (whole :: caps)) with
    | Some m => Some m
    | None => match s with String _ s' => exec r s' | EmptyString => None end
    end.
Proof. destruct s; reflexivity. Qed.

(** Where no fence is followed by another one, the pattern matches
    nowhere. *)
Lemma exec_no_closing_fence (t : string) :
  Str.splitFirst fence (Str.tail (Str.tail (Str.tail t))) = None ->
  exec codeBlock t = None.
Proof.
  induction t as [|c t IH]; intros H; rewrite exec_unfold, run_codeBlock.
  - reflexivity.
  - destruct (Str.dropPrefix fence (String c t)) as [opened|] eqn:Hopen.
    + apply dropPrefix_Some in Hopen.
      assert (Str.tail (Str.tail (Str.tail (String c t))) = opened) as Heq
        by now rewrite Hopen.
      assert (Regex.blockAfter opened = None) as ->
        by (apply blockAfter_None_iff; now rewrite <- Heq).
      apply IH. apply splitFirst_None_rest in H. exact H.
    + apply IH. apply splitFirst_None_rest in H. exact H.
Qed.

(** [s.match(codeBlock)]: the block after the first fence, or nothing. *)
Lemma exec_codeBlock (s : string) :
  exec codeBlock s
  = match Str.splitFirst fence s with
    | Some (_, opened) => Regex.blockAfter opened
    | None => None
    end.
Proof.
  induction s as [|c s IH]; rewrite exec_unfold, run_codeBlock.
  - reflexivity.
  - rewrite splitFirst_cons.
    destruct (Str.dropPrefix fence (String c s)) as [opened|] eqn:Hopen.
    + destruct (Regex.blockAfter opened) eqn:Hblock; [reflexivity|].
      apply exec_no_closing_fence.
      apply blockAfter_None_iff in Hblock.
      apply dropPrefix_Some in Hopen.
      change (fence +:+ opened) with (String "`" (String "`" (String "`" opened))) in Hopen.
      injection Hopen as _ ->.
      change (Str.splitFirst fence (Str.tail opened) = None).
      now apply splitFirst_None_rest.
    + rewrite IH. now destruct (Str.splitFirst fence s) as [[? ?]|].
Qed.

End FirstBlock.

(** ** Reasoning about asynchronous functions *)

Lemma returns_ret {A} (a : A) : returns (ret a).
Proof. intros w. now exists w, a. Qed.

Lemma returns_bind {A B} (m : M A) (k : A -> M B) :
  returns m -> (forall a, returns (k a)) -> returns (bind m k).
Proof.
  intros Hm Hk w. destruct (Hm w) as (w1 & a & E). unfold bind. rewrite E. apply Hk.
Qed.

(** A [try] whose [catch] block returns, returns. *)
Lemma returns_try_catch {A} (m : M A) (h : exn -> M A) :
  (forall e, returns (h e)) -> returns (try_catch m h).
Proof.
  intros Hh w. unfold try_catch. destruct (m w) as [w1 [a|e]]; [now exists w1, a | apply Hh].
Qed.

Create HintDb returns.
#[local] Hint Resolve returns_ret returns_bind returns_try_catch : returns.

(** *** Conversion to a string *)

Lemma ToString_printable (v : value) : printable v = true -> ToString v = Normal (toStr v).
Proof. unfold ToString. now intros ->. Qed.

Lemma ToString_inv (v : value) (text : string) :
  ToString v = Normal text -> printable v = true /\ text = toStr v.
Proof. unfold ToString. destruct (printable v); [|discriminate]. intros [= <-]. auto. Qed.

Lemma generateCacheKey_Normal (userId query metadata : value) :
  printable userId = true -> printable query = true ->
  CacheService.generateCacheKey userId query metadata
  = Normal (cacheKeyOf userId query metadata).
Proof. intros Hu Hq. unfold CacheService.generateCacheKey, ToString. now rewrite Hu, Hq. Qed.

Lemma generateCacheKey_inv (userId query metadata : value) (key : string) :
  CacheService.generateCacheKey userId query metadata = Normal key ->
  printable userId = true /\ printable query = true
  /\ key = cacheKeyOf userId query metadata.
Proof.
  unfold CacheService.generateCacheKey, ToString.
  destruct (printable userId); [|discriminate].
  destruct (printable query); [|discriminate]. intros [= <-]. auto.
Qed.

Lemma setCachedResult_returns (userId query userMetadata data : value) :
  printable userId = true -> printable query = true ->
  returns (CacheService.setCachedResult userId query userMetadata data).
Proof.
  intros Hu Hq w. unfold CacheService.setCachedResult.
  destruct (negb (cacheService_mongoStore w)); [apply returns_ret|].
  destruct (negb (has_loaderCustomSet (mongoStore w))); [apply returns_ret|].
  unfold bind, eval. rewrite (generateCacheKey_Normal _ _ _ Hu Hq).
  apply returns_try_catch. auto with returns.
Qed.

Lemma getConversationHistory_returns (userId : value) :
  returns (MemoryService.getConversationHistory userId).
Proof.
  intros w. unfold MemoryService.getConversationHistory.
  destruct (negb (memoryService_mongoStore w)); [apply returns_ret|].
  apply returns_try_catch. auto with returns.
Qed.

Lemma addConversationEntries_returns (userId userQuery botResponse : value) :
  returns (MemoryService.addConversationEntries userId userQuery botResponse).
Proof.
  intros w. unfold MemoryService.addConversationEntries.
  destruct (negb (memoryService_mongoStore w)
            || negb (has_addEntryToConversation (mongoStore w))); [apply returns_ret|].
  apply returns_try_catch. auto with returns.
Qed.

Lemma summarizeAndStoreMemory_returns (userId : value) (promptTemplate : string) :
  returns (MemoryService.summarizeAndStoreMemory userId promptTemplate).
Proof.
  intros w. unfold MemoryService.summarizeAndStoreMemory.
  destruct (negb (memoryService_mongoStore w)); [apply returns_ret|].
  apply returns_try_catch. auto with returns.
Qed.

Lemma getProductsBySKUs_returns (skus : value) : returns (getProductsBySKUs skus).
Proof.
  intros w. unfold getProductsBySKUs.
  destruct (db w); [|apply returns_ret].
  apply returns_try_catch. auto with returns.
Qed.

(** ** The steps of [handleQuery] *)

Section Handler.

Variable rt : Runtime.

(** Once the request is read, the services are up and steps 1 to 5 have
    produced the LLM's output, the handler parses, saves and responds. *)
Lemma handleQuery_model_said (req : Request) (endpointName : string) (w w1 : World)
    (config : PromptConfig) (userQuery userId userName children out : value) :
  readRequest req = Normal (userQuery, userId, userName, children) ->
  truthy userQuery = true ->
  ragApplication w = true ->
  promptConfig w = Some config ->
  askModel rt config userId userQuery userName children w = (w1, Normal (ModelSaid out)) ->
  handleQuery rt req endpointName w
  = match parseAndProcess rt out w1 with
    | (w2, Normal botResponseJson) =>
        match saveConversationAndCache config userId userQuery
                (userMetadata userName children) botResponseJson w2 with
        | (w3, Normal _) => (w3, Normal (mkResponse 200 botResponseJson))
        | (w3, Throw e) => (w3, Normal (errorResponse e))
        end
    | (w2, Throw e) => (w2, Normal (errorResponse e))
    end.
Proof.
  intros Hreq Hq Hrag Hcfg Hask.
  unfold handleQuery, bind, eval. rewrite Hreq, Hq. cbn [negb]. cbv beta iota.
  rewrite Hrag, Hcfg. unfold try_catch. rewrite Hask.
  fold (userMetadata userName children).
  destruct (parseAndProcess rt out w1) as [w2 [bot|e]]; [|reflexivity].
  destruct (saveConversationAndCache config userId userQuery
              (userMetadata userName children) bot w2) as [w3 [[]|e]]; reflexivity.
Qed.

Lemma dropPrefix_append (p r : string) : Str.dropPrefix p (p +:+ r) = Some r.
Proof.
  induction p as [|a p IH]; [reflexivity|].
  rewrite append_cons.
  change (Str.dropPrefix (String a p) (String a (p +:+ r)))
    with (if Ascii.eqb a a then Str.dropPrefix p (p +:+ r) else None).
  now rewrite Ascii.eqb_refl.
Qed.

Lemma includes_prefix (p r : string) : Str.includes p (p +:+ r) = true.
Proof. unfold Str.includes. now rewrite (splitFirst_here _ _ _ (dropPrefix_append p r)). Qed.

(** The fallback is never a valid response. *)
Lemma fallback_not_valid (out : value) : isValidResponse (fallbackResponse out) = false.
Proof.
  unfold isValidResponse, fallbackResponse, get, lookupField, truthy.
  rewrite String.eqb_refl.
  change fallbackPrefix
    with (fallbackMarker +:+ " perfectly. Here's the main information: ").
  rewrite append_assoc, includes_prefix. now rewrite andb_false_r.
Qed.

Lemma parseAndProcess_malformed (out : value) (w : World) :
  malformed rt out -> parseAndProcess rt out w = (w, Normal (fallbackResponse out)).
Proof.
  intros H. unfold parseAndProcess, try_catch.
  destruct H as [v Hv | s Hs | s Hs | s parsed Hp Hshape].
  - destruct v; try reflexivity; discriminate.
  - now rewrite Hs.
  - rewrite Hs. now destruct (String.eqb (Str.trim s) "").
  - rewrite Hp. destruct (String.eqb (Str.trim s) ""); [reflexivity|].
    unfold expectedShape in Hshape. unfold bind, eval.
    destruct (get parsed "answer") as [answer|e]; [|reflexivity].
    destruct answer; try reflexivity. simpl.
    destruct (get parsed "relatedProducts") as [rp|e]; [|reflexivity].
    destruct rp; try reflexivity; discriminate.
Qed.

End Handler.

(** The same for the handler of the single-file server: after the
    parsing step it saves, then summarizes whether or not the response
    is valid, and only then responds. *)
Lemma SingleFile_handleQuery_model_said (rt : Runtime) (req : Request)
    (endpointName : string) (w w1 : World) (config : PromptConfig) (cacheKey : string)
    (userQuery userId userName children out : value) :
  readRequest req = Normal (userQuery, userId, userName, children) ->
  truthy userQuery = true ->
  ragApplication w = true ->
  promptConfig w = Some config ->
  SingleFile.generateCacheKey userId userQuery (userMetadata userName children)
  = Normal cacheKey ->
  SingleFile.askModel rt config cacheKey userId userQuery userName children w
  = (w1, Normal (ModelSaid out)) ->
  SingleFile.handleQuery rt true req endpointName w
  = match parseAndProcess rt out w1 with
    | (w2, Normal botResponseJson) =>
        match SingleFile.saveConversationAndCache cacheKey userId userQuery
                botResponseJson w2 with
        | (w3, Normal _) =>
            match SingleFile.summarizeAndStore userId w3 with
            | (w4, Normal _) => (w4, Normal (mkResponse 200 botResponseJson))
            | (w4, Throw e) => (w4, Normal (errorResponse e))
            end
        | (w3, Throw e) => (w3, Normal (errorResponse e))
        end
    | (w2, Throw e) => (w2, Normal (errorResponse e))
    end.
Proof.
  intros Hreq Hq Hrag Hcfg Hkey Hask.
  unfold SingleFile.handleQuery, bind at 1, eval at 1. rewrite Hreq, Hq. cbn [negb].
  cbv beta iota. rewrite Hrag, Hcfg. unfold try_catch, bind at 1, eval at 1.
  fold (userMetadata userName children). rewrite Hkey.
  unfold bind at 1. rewrite Hask. unfold bind at 1.
  destruct (parseAndProcess rt out w1) as [w2 [bot|e]]; [|reflexivity].
  unfold bind at 1.
  destruct (SingleFile.saveConversationAndCache cacheKey userId userQuery bot w2)
    as [w3 [[]|e]]; [|reflexivity].
  unfold bind at 1.
  destruct (SingleFile.summarizeAndStore userId w3) as [w4 [[]|e]]; reflexivity.
Qed.

(** C1, as stated, fails for the handler of the single-file server:
    the LLM answers in prose, the parsing step puts the fallback in
    place, and then the store call of the summarization step, which
    that handler makes after every answer and outside any inner [try],
    throws.  The response is the error body with status 500, not the
    fallback. *)
Lemma C1_single_file_counterexample :
  let rt := Example.knowing [] in
  let w :=
    with_faults [None; None; None; None; None; None; Some (Error "connection lost")]
      (Example.world (JObj [("content", JStr "We have rattles.")])) in
  let req := Example.post (JObj [("question", JStr "toys?")]) in
  JSON_parse rt (cleanOutput "We have rattles.") = None
  /\ (exists cacheKey w1,
        SingleFile.generateCacheKey (JStr "default_user") (JStr "toys?")
          (userMetadata (JStr "") (JArr [])) = Normal cacheKey
        /\ SingleFile.askModel rt Example.config cacheKey (JStr "default_user")
             (JStr "toys?") (JStr "") (JArr []) w
           = (w1, Normal (ModelSaid (JStr "We have rattles."))))
  /\ snd (SingleFile.handleQuery rt true req "/chat" w)
     = Normal (mkResponse 500
                 (JObj [("answer", JStr "Error processing your question");
                        ("relatedProducts", JArr []);
                        ("details", JStr "connection lost")])).
Proof.
  split; [reflexivity|]. split.
  - eexists _, _. split; [reflexivity|]. vm_compute. reflexivity.
  - vm_compute. reflexivity.
Qed.

(** C1 (amended): when the LLM's output is not a string, is empty, is
    not JSON after the optional code fence is taken off, or is JSON
    without a string [answer] and an array [relatedProducts], the
    parsing step puts the fallback object in place: an empty
    [relatedProducts], and the answer made of the fixed sentence
    followed by the raw output, or by "Not available" when that output
    is empty.  The handler of the modular server responds with it,
    status 200, and saves nothing on the way.  The handler of the
    single-file server responds with it when the summarization step
    that follows does not throw, and with the error body, status 500,
    when it does. *)
Theorem C1_fallback_response (rt : Runtime) (req : Request) (endpointName : string)
    (w w1 : World) (config : PromptConfig)
    (userQuery userId userName children llmOutputString : value) :
  readRequest req = Normal (userQuery, userId, userName, children) ->
  truthy userQuery = true ->
  ragApplication w = true ->
  promptConfig w = Some config ->
  malformed rt llmOutputString ->
  let fallback :=
    JObj [("answer",
           JStr ("I had a little trouble formatting my response perfectly. Here's the main information: "
                 +:+ (if truthy llmOutputString then toStr llmOutputString
                      else "Not available")));
          ("relatedProducts", JArr [])] in
  (askModel rt config userId userQuery userName children w
   = (w1, Normal (ModelSaid llmOutputString)) ->
   handleQuery rt req endpointName w = (w1, Normal (mkResponse 200 fallback)))
  /\ (forall cacheKey,
        SingleFile.generateCacheKey userId userQuery
          (JObj [("name", userName); ("children", children)]) = Normal cacheKey ->
        SingleFile.askModel rt config cacheKey userId userQuery userName children w
        = (w1, Normal (ModelSaid llmOutputString)) ->
        SingleFile.handleQuery rt true req endpointName w
        = match SingleFile.summarizeAndStore userId w1 with
          | (w2, Normal _) => (w2, Normal (mkResponse 200 fallback))
          | (w2, Throw error) =>
              (w2, Normal (mkResponse 500
                             (JObj [("answer", JStr "Error processing your question");
                                    ("relatedProducts", JArr []);
                                    ("details", JStr (message error))])))
          end).
Proof.
  intros Hreq Hq Hrag Hcfg Hbad fallback.
  assert (fallbackResponse llmOutputString = fallback) as Hfb.
  { unfold fallbackResponse, fallbackPrefix, or, fallback.
    now destruct (truthy llmOutputString). }
  split.
  - intros Hask.
    rewrite (handleQuery_model_said rt req endpointName w w1 config
               userQuery userId userName children llmOutputString) by assumption.
    rewrite parseAndProcess_malformed by assumption.
    unfold saveConversationAndCache. rewrite fallback_not_valid.
    unfold ret. now rewrite Hfb.
  - intros cacheKey Hkey Hask.
    rewrite (SingleFile_handleQuery_model_said rt req endpointName w w1 config cacheKey
               userQuery userId userName children llmOutputString) by assumption.
    rewrite parseAndProcess_malformed by assumption.
    unfold SingleFile.saveConversationAndCache. rewrite fallback_not_valid.
    unfold ret. rewrite Hfb.
    destruct (SingleFile.summarizeAndStore userId w1) as [w2 [[]|e]]; reflexivity.
Qed.

(** ** The conversation-history window of the prompt *)





Lemma sliceLast_suffix {A} (n : nat) (l : list A) :
  l = firstn (length l - n) l ++ sliceLast n l.
Proof. unfold sliceLast. now rewrite firstn_skipn. Qed.




(** ** What a call may change *)

Ltac world_simpl :=
  cbv beta iota delta [with_store with_now with_faults with_prompts set_customData set_conversations
       ragApplication promptConfig cacheService_mongoStore memoryService_mongoStore
       mongoStore db llm prompts faults now
       customData conversations has_addConversation has_addEntryToConversation
       has_loaderCustomSet fst snd] in *.

Section FrameRules.

Variable R : World -> World -> Prop.
Hypothesis HR : closed R.

Lemma frame_ret {A} (a : A) : frame R (ret a).
Proof. intros w. apply (closed_refl R HR). Qed.

Lemma frame_throw {A} (e : exn) : frame R (@throw A e).
Proof. intros w. apply (closed_refl R HR). Qed.

Lemma frame_eval {A} (c : completion A) : frame R (eval c).
Proof. intros w. apply (closed_refl R HR). Qed.

Lemma frame_bind {A B} (m : M A) (k : A -> M B) :
  frame R m -> (forall a, frame R (k a)) -> frame R (bind m k).
Proof.
  intros Hm Hk w. unfold bind. specialize (Hm w).
  destruct (m w) as [w1 [a|e]]; simpl in *; [|assumption].
  eapply (closed_trans R HR); [eassumption | apply Hk].
Qed.

Lemma frame_try_catch {A} (m : M A) (h : exn -> M A) :
  frame R m -> (forall e, frame R (h e)) -> frame R (try_catch m h).
Proof.
  intros Hm Hh w. unfold try_catch. specialize (Hm w).
  destruct (m w) as [w1 [a|e]]; simpl in *; [assumption|].
  eapply (closed_trans R HR); [eassumption | apply Hh].
Qed.

Lemma frame_external {A} (op : World -> World * A) :
  (forall w, R w (fst (op w))) -> frame R (external op).
Proof.
  intros Hop w. unfold external.
  destruct (faults w) as [|[e|] rest] eqn:Hf.
  - specialize (Hop w). now destruct (op w).
  - simpl. now apply (closed_faults R HR w (Some e)).
  - specialize (Hop (with_faults rest w)).
    destruct (op (with_faults rest w)) as [w' a]. simpl in *.
    eapply (closed_trans R HR); [|eassumption].
    now apply (closed_faults R HR w None).
Qed.

Lemma frame_bind_eval {A B} (a : A) (k : A -> M B) :
  frame R (k a) -> frame R (bind (eval (Normal a)) k).
Proof. intros H w. apply H. Qed.

Lemma frame_newDate : frame R newDate.
Proof. intros w. apply (closed_now R HR). Qed.

(** The store's reading methods and the LLM change nothing that [R]
    looks at. *)
Lemma frame_loaderCustomGet (key : string) : frame R (Store.loaderCustomGet key).
Proof. apply frame_external. intros w. apply (closed_refl R HR). Qed.

Lemma frame_hasConversation (id : string) : frame R (Store.hasConversation id).
Proof. apply frame_external. intros w. apply (closed_refl R HR). Qed.

Lemma frame_getConversation (id : string) : frame R (Store.getConversation id).
Proof. apply frame_external. intros w. apply (closed_refl R HR). Qed.

Lemma frame_ragApplication_query (prompt : string) : frame R (ragApplication_query prompt).
Proof.
  intros w. unfold ragApplication_query.
  eapply (closed_trans R HR); [apply (closed_prompts R HR)|].
  apply (frame_external (fun w' => (w', llm w (length (prompts w)) prompt))).
  intros w'. apply (closed_refl R HR).
Qed.

Lemma frame_query (prompt : string) : frame R (RagService.query prompt).
Proof.
  intros w. unfold RagService.query.
  destruct (negb (ragApplication w)); [apply frame_throw | apply frame_ragApplication_query].
Qed.

Lemma frame_summarizeConversation (userId : value) (text promptTemplate : string) :
  frame R (RagService.summarizeConversation userId text promptTemplate).
Proof.
  intros w. unfold RagService.summarizeConversation.
  destruct (negb (ragApplication w)); [apply frame_throw|].
  apply frame_try_catch; [|intros; apply frame_ret].
  apply frame_bind; [apply frame_ragApplication_query|]. intros result.
  apply frame_bind; [apply frame_eval | intros; apply frame_ret].
Qed.

Lemma frame_getCachedResult (userId query userMetadata : value) :
  frame R (CacheService.getCachedResult userId query userMetadata).
Proof.
  intros w. unfold CacheService.getCachedResult.
  destruct (negb (cacheService_mongoStore w)); [apply frame_ret|].
  apply frame_bind; [apply frame_eval|]. intros cacheKey.
  apply frame_bind.
  - apply frame_try_catch; [|intros; apply frame_ret].
    apply frame_bind; [apply frame_loaderCustomGet | intros; apply frame_ret].
  - intros [[doc|]|]; try apply frame_ret.
    destruct (truthy (doc_data doc)); [|apply frame_ret].
    apply frame_bind; [apply frame_eval | intros; apply frame_ret].
Qed.

Lemma frame_getConversationMemory (userId : value) :
  frame R (MemoryService.getConversationMemory userId).
Proof.
  intros w. unfold MemoryService.getConversationMemory.
  destruct (negb (memoryService_mongoStore w)); [apply frame_ret|].
  apply frame_bind; [apply frame_eval|]. intros id.
  apply frame_try_catch; [|intros; apply frame_ret].
  apply frame_bind; [apply frame_loaderCustomGet|].
  intros [doc|]; [destruct (truthy (doc_text doc))|]; apply frame_ret.
Qed.

Lemma frame_getProductsBySKUs (skus : value) : frame R (getProductsBySKUs skus).
Proof.
  intros w. unfold getProductsBySKUs.
  destruct (db w) as [catalog|]; [|apply frame_ret].
  apply frame_try_catch; [|intros; apply frame_ret].
  destruct skus as [| | | | |[|sku rest]|]; try apply frame_ret.
  apply frame_bind; [|intros; apply frame_ret].
  apply frame_external. intros w'. apply (closed_refl R HR).
Qed.

Lemma frame_parseAndProcess (rt : Runtime) (out : value) : frame R (parseAndProcess rt out).
Proof.
  unfold parseAndProcess.
  apply frame_try_catch; [|intros; apply frame_ret].
  destruct out; try apply frame_throw.
  destruct (String.eqb (Str.trim s) ""); [apply frame_throw|].
  destruct (JSON_parse rt (cleanOutput s)) as [bot|]; [|apply frame_throw].
  apply frame_bind; [apply frame_eval|]. intros answer.
  destruct (negb (isString answer)); [apply frame_throw|].
  apply frame_bind; [apply frame_eval|]. intros rp.
  destruct rp; try apply frame_throw.
  apply frame_bind; [apply frame_eval|]. intros strings.
  apply frame_bind; [apply frame_eval|]. intros rp'.
  apply frame_bind; [apply frame_getProductsBySKUs | intros; apply frame_ret].
Qed.

(** The writing methods are as good as what they do to the store. *)
Lemma frame_getConversationHistory (userId : value) :
  frame R (Store.addConversation (toStr userId)) ->
  frame R (MemoryService.getConversationHistory userId).
Proof.
  intros Hadd w. unfold MemoryService.getConversationHistory.
  destruct (negb (memoryService_mongoStore w)); [apply frame_ret|].
  apply frame_try_catch; [|intros; apply frame_ret].
  apply frame_bind; [apply frame_hasConversation|]. intros [|].
  - apply frame_getConversation.
  - destruct (has_addConversation (mongoStore w)); [|apply frame_ret].
    apply frame_bind; [exact Hadd|]. intros ?.
    apply frame_bind; [apply frame_getConversation|].
    intros [es|]; apply frame_ret.
Qed.

Lemma frame_addConversationEntries (userId userQuery botResponse : value) :
  (forall t, frame R (Store.addEntryToConversation (toStr userId)
                        (mkEntry (JStr "User") userQuery t))) ->
  (forall t, frame R (Store.addEntryToConversation (toStr userId)
                        (mkEntry (JStr "Bot") botResponse t))) ->
  frame R (MemoryService.addConversationEntries userId userQuery botResponse).
Proof.
  intros Huser Hbot w. unfold MemoryService.addConversationEntries.
  destruct (negb (memoryService_mongoStore w)
            || negb (has_addEntryToConversation (mongoStore w))); [apply frame_ret|].
  apply frame_try_catch; [|intros; apply frame_ret].
  apply frame_bind; [apply frame_newDate|]. intros t1.
  apply frame_bind; [apply Huser|]. intros ?.
  apply frame_bind; [apply frame_newDate|]. intros t2.
  apply frame_bind; [apply Hbot | intros; apply frame_ret].
Qed.

Lemma frame_setCachedResult (userId query metadata data : value) :
  (forall key t,
     CacheService.generateCacheKey userId query metadata = Normal key ->
     frame R (Store.loaderCustomSet (toStr userId) key (CacheDoc data t))) ->
  frame R (CacheService.setCachedResult userId query metadata data).
Proof.
  intros Hset w. unfold CacheService.setCachedResult.
  destruct (negb (cacheService_mongoStore w)); [apply frame_ret|].
  destruct (negb (has_loaderCustomSet (mongoStore w))); [apply frame_ret|].
  destruct (CacheService.generateCacheKey userId query metadata) as [key|e] eqn:Hkey;
    [|apply (closed_refl R HR)].
  apply frame_bind_eval.
  apply frame_try_catch; [|intros; apply frame_ret].
  apply frame_bind; [apply frame_newDate|]. intros t.
  apply frame_bind; [now apply Hset | intros; apply frame_ret].
Qed.

Lemma frame_summarizeAndStoreMemory (userId : value) (promptTemplate : string) :
  (forall text t,
     Str.startsWith "Error" text = false ->
     Str.startsWith "Could not summarize" text = false ->
     frame R (Store.loaderCustomSet (toStr userId) (MemoryService.memoryKey userId)
                (SummaryDoc text "conversation_summary" t))) ->
  frame R (MemoryService.summarizeAndStoreMemory userId promptTemplate).
Proof.
  intros Hset w. unfold MemoryService.summarizeAndStoreMemory.
  destruct (negb (memoryService_mongoStore w)); [apply frame_ret|].
  apply frame_try_catch; [|intros; apply frame_ret].
  apply frame_bind; [apply frame_getConversation|]. intros conv.
  destruct (_ && _); [|apply frame_ret].
  apply frame_bind; [apply frame_summarizeConversation|]. intros summary.
  destruct (truthy summary); [|apply frame_ret].
  apply frame_bind; [apply frame_eval|]. intros text.
  destruct (Str.startsWith "Error" text) eqn:H1; [apply frame_ret|].
  destruct (Str.startsWith "Could not summarize" text) eqn:H2; [apply frame_ret|].
  cbn [negb andb].
  destruct (has_loaderCustomSet (mongoStore w)); [|apply frame_ret].
  apply frame_bind; [apply frame_newDate|]. intros t.
  apply frame_bind; [now apply Hset | intros; apply frame_ret].
Qed.

Lemma frame_askModel (rt : Runtime) (config : PromptConfig)
    (userId userQuery userName children : value) :
  frame R (Store.addConversation (toStr userId)) ->
  frame R (askModel rt config userId userQuery userName children).
Proof.
  intros Hadd. unfold askModel.
  apply frame_bind; [apply frame_getCachedResult|]. intros cached.
  destruct (truthy cached); [apply frame_ret|].
  apply frame_bind; [apply frame_getConversationMemory|]. intros memory.
  apply frame_bind; [apply frame_eval|]. intros profile.
  apply frame_bind; [apply frame_eval|]. intros memoryText.
  apply frame_bind; [now apply frame_getConversationHistory|]. intros conv.
  apply frame_bind; [apply frame_eval|]. intros history.
  apply frame_bind; [apply frame_eval|]. intros query.
  apply frame_bind; [apply frame_query|]. intros result.
  apply frame_bind; [apply frame_eval|]. intros out.
  apply frame_bind; [apply frame_eval | intros; apply frame_ret].
Qed.

End FrameRules.

(** ** The prompt that is sent *)

Lemma quiet_ret {A} (a : A) : quiet (ret a).
Proof. now intros w. Qed.

Lemma quiet_eval {A} (c : completion A) : quiet (eval c).
Proof. now intros w. Qed.

Lemma quiet_bind {A B} (m : M A) (k : A -> M B) :
  quiet m -> (forall a, quiet (k a)) -> quiet (bind m k).
Proof.
  intros Hm Hk w. unfold bind. specialize (Hm w).
  destruct (m w) as [w1 [a|e]]; cbn [fst] in *; [|assumption].
  now rewrite Hk.
Qed.

Lemma quiet_try_catch {A} (m : M A) (h : exn -> M A) :
  quiet m -> (forall e, quiet (h e)) -> quiet (try_catch m h).
Proof.
  intros Hm Hh w. unfold try_catch. specialize (Hm w).
  destruct (m w) as [w1 [a|e]]; cbn [fst] in *; [assumption|].
  now rewrite Hh.
Qed.

Lemma quiet_external {A} (op : World -> World * A) :
  (forall w, prompts (fst (op w)) = prompts w) -> quiet (external op).
Proof.
  intros Hop w. unfold external.
  destruct (faults w) as [|[e|] rest].
  - specialize (Hop w). now destruct (op w).
  - reflexivity.
  - specialize (Hop (with_faults rest w)). now destruct (op (with_faults rest w)).
Qed.

Lemma quiet_loaderCustomGet (key : string) : quiet (Store.loaderCustomGet key).
Proof. now apply quiet_external. Qed.

Lemma quiet_hasConversation (id : string) : quiet (Store.hasConversation id).
Proof. now apply quiet_external. Qed.

Lemma quiet_getConversation (id : string) : quiet (Store.getConversation id).
Proof. now apply quiet_external. Qed.

Lemma quiet_addConversation (id : string) : quiet (Store.addConversation id).
Proof. now apply quiet_external. Qed.

Lemma quiet_getCachedResult (userId query userMetadata : value) :
  quiet (CacheService.getCachedResult userId query userMetadata).
Proof.
  intros w. unfold CacheService.getCachedResult.
  destruct (negb (cacheService_mongoStore w)); [reflexivity|].
  apply quiet_bind; [apply quiet_eval|]. intros cacheKey.
  apply quiet_bind.
  - apply quiet_try_catch; [|intros; apply quiet_ret].
    apply quiet_bind; [apply quiet_loaderCustomGet | intros; apply quiet_ret].
  - intros [[doc|]|]; try apply quiet_ret.
    destruct (truthy (doc_data doc)); [|apply quiet_ret].
    apply quiet_bind; [apply quiet_eval | intros; apply quiet_ret].
Qed.

Lemma quiet_getConversationMemory (userId : value) :
  quiet (MemoryService.getConversationMemory userId).
Proof.
  intros w. unfold MemoryService.getConversationMemory.
  destruct (negb (memoryService_mongoStore w)); [reflexivity|].
  apply quiet_bind; [apply quiet_eval|]. intros id.
  apply quiet_try_catch; [|intros; apply quiet_ret].
  apply quiet_bind; [apply quiet_loaderCustomGet|].
  intros [doc|]; [destruct (truthy (doc_text doc))|]; apply quiet_ret.
Qed.

Lemma quiet_getConversationHistory (userId : value) :
  quiet (MemoryService.getConversationHistory userId).
Proof.
  intros w. unfold MemoryService.getConversationHistory.
  destruct (negb (memoryService_mongoStore w)); [reflexivity|].
  apply quiet_try_catch; [|intros; apply quiet_ret].
  apply quiet_bind; [apply quiet_hasConversation|]. intros [|].
  - apply quiet_getConversation.
  - destruct (has_addConversation (mongoStore w)); [|apply quiet_ret].
    apply quiet_bind; [apply quiet_addConversation|]. intros ?.
    apply quiet_bind; [apply quiet_getConversation|].
    intros [es|]; apply quiet_ret.
Qed.

(** The call to the LLM puts its prompt on record, whether or not it
    comes back. *)
Lemma ragApplication_query_prompts (prompt : string) (w : World) :
  prompts (fst (ragApplication_query prompt w)) = prompts w ++ [prompt].
Proof.
  unfold ragApplication_query, external.
  destruct w as [ra pc cs ms st d l ps fs t]. world_simpl.
  now destruct fs as [|[e|] rest].
Qed.

Lemma query_prompts (prompt : string) (w : World) :
  prompts (fst (RagService.query prompt w))
  = if ragApplication w then prompts w ++ [prompt] else prompts w.
Proof.
  unfold RagService.query.
  destruct (ragApplication w); [apply ragApplication_query_prompts | reflexivity].
Qed.

(** Steps 1 to 5 send one prompt or none.  When they send none they do
    not end with an answer of the LLM; the one they send is put
    together from the blocks of the steps before. *)
Lemma askModel_prompts (rt : Runtime) (config : PromptConfig)
    (userId userQuery userName children : value) (w w' : World)
    (outcome : completion Asked) :
  askModel rt config userId userQuery userName children w = (w', outcome) ->
  (prompts w' = prompts w /\ forall out, outcome <> Normal (ModelSaid out))
  \/ exists w1 w2 w3 cachedResult longTermMemoryContext conversationData
            profile memory history,
       CacheService.getCachedResult userId userQuery (userMetadata userName children) w
       = (w1, Normal cachedResult)
       /\ truthy cachedResult = false
       /\ MemoryService.getConversationMemory userId w1 = (w2, Normal longTermMemoryContext)
       /\ profileSection rt userName children = Normal profile
       /\ memorySection userId longTermMemoryContext = Normal memory
       /\ MemoryService.getConversationHistory userId w2 = (w3, Normal conversationData)
       /\ historySection (historyOf conversationData) = Normal history
       /\ printable userQuery = true
       /\ prompts w3 = prompts w
       /\ prompts w'
          = prompts w ++ [promptText config profile memory history (toStr userQuery)].
Proof.
  unfold askModel. fold (userMetadata userName children).
  intros Hrun.
  pose proof (quiet_getCachedResult userId userQuery (userMetadata userName children) w) as Q1.
  unfold bind at 1 in Hrun.
  destruct (CacheService.getCachedResult userId userQuery _ w) as [w1 [cached|e]] eqn:E1;
    cbn [fst] in Q1.
  2:{ injection Hrun as <- <-. left. now split. }
  destruct (truthy cached) eqn:Hc.
  { injection Hrun as <- <-. left. now split. }
  pose proof (quiet_getConversationMemory userId w1) as Q2.
  unfold bind at 1 in Hrun.
  destruct (MemoryService.getConversationMemory userId w1) as [w2 [ltm|e]] eqn:E2;
    cbn [fst] in Q2.
  2:{ injection Hrun as <- <-. left. split; [congruence | discriminate]. }
  unfold bind at 1, eval at 1 in Hrun.
  destruct (profileSection rt userName children) as [profile|e] eqn:Hprofile.
  2:{ injection Hrun as <- <-. left. split; [congruence | discriminate]. }
  unfold bind at 1, eval at 1 in Hrun.
  destruct (memorySection userId ltm) as [memory|e] eqn:Hmemory.
  2:{ injection Hrun as <- <-. left. split; [congruence | discriminate]. }
  pose proof (quiet_getConversationHistory userId w2) as Q3.
  unfold bind at 1 in Hrun.
  destruct (MemoryService.getConversationHistory userId w2) as [w3 [conv|e]] eqn:E3;
    cbn [fst] in Q3.
  2:{ injection Hrun as <- <-. left. split; [congruence | discriminate]. }
  fold (historyOf conv) in Hrun.
  unfold bind at 1, eval at 1 in Hrun.
  destruct (historySection (historyOf conv)) as [history|e] eqn:Hhistory.
  2:{ injection Hrun as <- <-. left. split; [congruence | discriminate]. }
  unfold bind at 1, eval at 1 in Hrun.
  destruct (ToString userQuery) as [query|e] eqn:Hquery.
  2:{ injection Hrun as <- <-. left. split; [congruence | discriminate]. }
  apply ToString_inv in Hquery as [Hq ->].
  pose proof (query_prompts (promptText config profile memory history (toStr userQuery)) w3)
    as Q4.
  unfold bind at 1 in Hrun.
  destruct (ragApplication w3) eqn:Hrag.
  2:{ unfold RagService.query in Hrun. rewrite Hrag in Hrun. cbn [negb] in Hrun.
      injection Hrun as <- <-. left. split; [congruence | discriminate]. }
  assert (prompts w3 = prompts w) as Q by congruence.
  right. exists w1, w2, w3, cached, ltm, conv, profile, memory, history.
  repeat split; try assumption.
  rewrite <- Q, <- Q4.
  destruct (RagService.query _ w3) as [w4 [result|e]]; cbn [fst].
  - unfold bind, eval, ret in Hrun.
    destruct (extractOutput result) as [out|e]; [|now injection Hrun as <- _].
    destruct (ToString out); now injection Hrun as <- _.
  - now injection Hrun as <- _.
Qed.





(** *** Prompts are only added *)

Lemma grows_quiet {A} (m : M A) : quiet m -> grows m.
Proof. intros H w. exists []. now rewrite H, app_nil_r. Qed.

Lemma grows_ret {A} (a : A) : grows (ret a).
Proof. apply grows_quiet, quiet_ret. Qed.

Lemma grows_bind {A B} (m : M A) (k : A -> M B) :
  grows m -> (forall a, grows (k a)) -> grows (bind m k).
Proof.
  intros Hm Hk w. unfold bind. destruct (Hm w) as [l1 H1].
  destruct (m w) as [w1 [a|e]]; cbn [fst] in *; [|eauto].
  destruct (Hk a w1) as [l2 H2]. exists (l1 ++ l2). now rewrite H2, H1, app_assoc.
Qed.

Lemma grows_try_catch {A} (m : M A) (h : exn -> M A) :
  grows m -> (forall e, grows (h e)) -> grows (try_catch m h).
Proof.
  intros Hm Hh w. unfold try_catch. destruct (Hm w) as [l1 H1].
  destruct (m w) as [w1 [a|e]]; cbn [fst] in *; [eauto|].
  destruct (Hh e w1) as [l2 H2]. exists (l1 ++ l2). now rewrite H2, H1, app_assoc.
Qed.

Lemma grows_ragApplication_query (prompt : string) : grows (ragApplication_query prompt).
Proof. intros w. exists [prompt]. apply ragApplication_query_prompts. Qed.

Lemma quiet_newDate : quiet newDate.
Proof. now intros w. Qed.

Lemma quiet_addEntryToConversation (id : string) (e : Entry) :
  quiet (Store.addEntryToConversation id e).
Proof. now apply quiet_external. Qed.

Lemma quiet_loaderCustomSet (loaderId key : string) (doc : Document) :
  quiet (Store.loaderCustomSet loaderId key doc).
Proof. now apply quiet_external. Qed.

Lemma quiet_getProductsBySKUs (skus : value) : quiet (getProductsBySKUs skus).
Proof.
  intros w. unfold getProductsBySKUs.
  destruct (db w) as [catalog|]; [|reflexivity].
  apply quiet_try_catch; [|intros; apply quiet_ret].
  destruct skus as [| | | | |[|sku rest]|]; try apply quiet_ret.
  apply quiet_bind; [|intros; apply quiet_ret].
  now apply quiet_external.
Qed.

Lemma quiet_throw {A} (e : exn) : quiet (@throw A e).
Proof. now intros w. Qed.

Lemma quiet_parseAndProcess (rt : Runtime) (out : value) : quiet (parseAndProcess rt out).
Proof.
  unfold parseAndProcess.
  apply quiet_try_catch; [|intros; apply quiet_ret].
  destruct out; try apply quiet_throw.
  destruct (String.eqb (Str.trim s) ""); [apply quiet_throw|].
  destruct (JSON_parse rt (cleanOutput s)) as [bot|]; [|apply quiet_throw].
  apply quiet_bind; [apply quiet_eval|]. intros answer.
  destruct (negb (isString answer)); [apply quiet_throw|].
  apply quiet_bind; [apply quiet_eval|]. intros rp.
  destruct rp; try apply quiet_throw.
  apply quiet_bind; [apply quiet_eval|]. intros strings.
  apply quiet_bind; [apply quiet_eval|]. intros rp'.
  apply quiet_bind; [apply quiet_getProductsBySKUs | intros; apply quiet_ret].
Qed.

Lemma quiet_addConversationEntries (userId userQuery botResponse : value) :
  quiet (MemoryService.addConversationEntries userId userQuery botResponse).
Proof.
  intros w. unfold MemoryService.addConversationEntries.
  destruct (negb (memoryService_mongoStore w)
            || negb (has_addEntryToConversation (mongoStore w))); [reflexivity|].
  apply quiet_try_catch; [|intros; apply quiet_ret].
  apply quiet_bind; [apply quiet_newDate|]. intros t1.
  apply quiet_bind; [apply quiet_addEntryToConversation|]. intros ?.
  apply quiet_bind; [apply quiet_newDate|]. intros t2.
  apply quiet_bind; [apply quiet_addEntryToConversation | intros; apply quiet_ret].
Qed.

Lemma quiet_setCachedResult (userId query metadata data : value) :
  quiet (CacheService.setCachedResult userId query metadata data).
Proof.
  intros w. unfold CacheService.setCachedResult.
  destruct (negb (cacheService_mongoStore w)); [reflexivity|].
  destruct (negb (has_loaderCustomSet (mongoStore w))); [reflexivity|].
  apply quiet_bind; [apply quiet_eval|]. intros cacheKey.
  apply quiet_try_catch; [|intros; apply quiet_ret].
  apply quiet_bind; [apply quiet_newDate|]. intros t.
  apply quiet_bind; [apply quiet_loaderCustomSet | intros; apply quiet_ret].
Qed.

Lemma grows_summarizeConversation (userId : value) (text promptTemplate : string) :
  grows (RagService.summarizeConversation userId text promptTemplate).
Proof.
  intros w. unfold RagService.summarizeConversation.
  destruct (negb (ragApplication w)); [apply grows_quiet, quiet_throw|].
  apply grows_try_catch; [|intros; apply grows_ret].
  apply grows_bind; [apply grows_ragApplication_query|]. intros result.
  apply grows_bind; [apply grows_quiet, quiet_eval | intros; apply grows_ret].
Qed.

Lemma grows_summarizeAndStoreMemory (userId : value) (promptTemplate : string) :
  grows (MemoryService.summarizeAndStoreMemory userId promptTemplate).
Proof.
  intros w. unfold MemoryService.summarizeAndStoreMemory.
  destruct (negb (memoryService_mongoStore w)); [apply grows_ret|].
  apply grows_try_catch; [|intros; apply grows_ret].
  apply grows_bind; [apply grows_quiet, quiet_getConversation|]. intros conv.
  destruct (_ && _); [|apply grows_ret].
  apply grows_bind; [apply grows_summarizeConversation|]. intros summary.
  destruct (truthy summary); [|apply grows_ret].
  apply grows_bind; [apply grows_quiet, quiet_eval|]. intros text.
  destruct (_ && _); [|apply grows_ret].
  destruct (has_loaderCustomSet (mongoStore w)); [|apply grows_ret].
  apply grows_bind; [apply grows_quiet, quiet_newDate|]. intros t.
  apply grows_bind; [apply grows_quiet, quiet_loaderCustomSet | intros; apply grows_ret].
Qed.

Lemma grows_saveConversationAndCache (config : PromptConfig)
    (userId userQuery metadata botResponseJson : value) :
  grows (saveConversationAndCache config userId userQuery metadata botResponseJson).
Proof.
  unfold saveConversationAndCache.
  destruct (isValidResponse botResponseJson); [|apply grows_ret].
  apply grows_bind; [apply grows_quiet, quiet_eval|]. intros answer.
  apply grows_bind; [apply grows_quiet, quiet_addConversationEntries|]. intros ?.
  apply grows_bind; [apply grows_quiet, quiet_setCachedResult|]. intros ?.
  apply grows_bind; [apply grows_summarizeAndStoreMemory | intros; apply grows_ret].
Qed.

(** The first prompt that a request sends is the one of step 5; a
    summary may follow it. *)
Lemma handleQuery_sends (rt : Runtime) (req : Request) (endpointName : string)
    (w w' : World) (config : PromptConfig) (response : completion Response)
    (userQuery userId userName children : value) :
  readRequest req = Normal (userQuery, userId, userName, children) ->
  promptConfig w = Some config ->
  handleQuery rt req endpointName w = (w', response) ->
  prompts w' <> prompts w ->
  exists w1 w2 w3 cachedResult longTermMemoryContext conversationData
         profile memory history later,
    CacheService.getCachedResult userId userQuery (userMetadata userName children) w
    = (w1, Normal cachedResult)
    /\ truthy cachedResult = false
    /\ MemoryService.getConversationMemory userId w1 = (w2, Normal longTermMemoryContext)
    /\ profileSection rt userName children = Normal profile
    /\ memorySection userId longTermMemoryContext = Normal memory
    /\ MemoryService.getConversationHistory userId w2 = (w3, Normal conversationData)
    /\ historySection (historyOf conversationData) = Normal history
    /\ printable userQuery = true
    /\ prompts w3 = prompts w
    /\ prompts w'
       = prompts w ++ promptText config profile memory history (toStr userQuery) :: later.
Proof.
  intros Hreq Hcfg Hrun Hsent.
  unfold handleQuery, bind at 1, eval at 1 in Hrun. rewrite Hreq in Hrun.
  destruct (negb (truthy userQuery)).
  { injection Hrun as <- _. now destruct Hsent. }
  rewrite Hcfg in Hrun.
  destruct (ragApplication w).
  2:{ injection Hrun as <- _. now destruct Hsent. }
  unfold try_catch, bind at 1 in Hrun.
  destruct (askModel rt config userId userQuery userName children w)
    as [wa outcome] eqn:Hask.
  assert (exists later, prompts w' = prompts wa ++ later
                        /\ (later <> [] -> exists out, outcome = Normal (ModelSaid out)))
    as (later & Hlater & Hout).
  { destruct outcome as [[cached|out]|e].
    - injection Hrun as <- _. exists []. now rewrite app_nil_r.
    - match type of Hrun with
      | match ?m wa with _ => _ end = _ => destruct (grows_bind _ _
            (grows_quiet _ (quiet_parseAndProcess rt out))
            (fun bot => grows_bind _ _
               (grows_saveConversationAndCache config userId userQuery
                  (JObj [("name", userName); ("children", children)]) bot)
               (fun _ => grows_ret (mkResponse 200 bot))) wa) as [later Hl];
          destruct (m wa) as [wz [a|e]]
      end; cbn [fst] in Hl; injection Hrun as <- _; exists later; eauto.
    - injection Hrun as <- _. exists []. now rewrite app_nil_r. }
  destruct (askModel_prompts _ _ _ _ _ _ _ _ _ Hask) as [[Hsame Hnot]|H].
  - destruct later as [|p later].
    + rewrite app_nil_r in Hlater. congruence.
    + destruct Hout as [out ->]; [discriminate|]. now destruct (Hnot out).
  - destruct H as (w1 & w2 & w3 & cached & ltm & conv & profile & memory & history
                   & H1 & H2 & H3 & H4 & H5 & H6 & H7 & H8 & H9 & H10).
    exists w1, w2, w3, cached, ltm, conv, profile, memory, history, later.
    repeat split; try assumption.
    now rewrite Hlater, H10, <- app_assoc.
Qed.





(** *** The history block *)





(** ** Enrichment of the related products *)

Lemma lookupField_setField (k : string) (v : value) (fields : list (string * value)) :
  lookupField k (setField k v fields) = v.
Proof.
  induction fields as [|[k' v'] fields IH]; simpl.
  - now rewrite String.eqb_refl.
  - destruct (String.eqb k k') eqn:E; simpl; [now rewrite String.eqb_refl | now rewrite E].
Qed.

Lemma lookupField_setField_other (k k' : string) (v : value)
    (fields : list (string * value)) :
  String.eqb k' k = false -> lookupField k' (setField k v fields) = lookupField k' fields.
Proof.
  intros Hne. induction fields as [|[k0 v0] fields IH]; simpl.
  - now rewrite Hne.
  - destruct (String.eqb k k0) eqn:E; simpl.
    + apply String.eqb_eq in E. subst k0. now rewrite Hne.
    + now rewrite IH.
Qed.

Lemma setField_setField (k : string) (v1 v2 : value) (fields : list (string * value)) :
  setField k v2 (setField k v1 fields) = setField k v2 fields.
Proof.
  induction fields as [|[k' v'] fields IH].
  - cbn [setField]. now rewrite String.eqb_refl.
  - cbn [setField]. destruct (String.eqb k k') eqn:E; cbn [setField].
    + now rewrite String.eqb_refl.
    + now rewrite E, IH.
Qed.

(** Only an object has a string under [answer]. *)
Lemma answer_is_of_object (v : value) (answer : string) :
  get v "answer" = Normal (JStr answer) -> exists fields, v = JObj fields.
Proof. destruct v; try discriminate. intros _. now eexists. Qed.

(** An SKU that has a text becomes that text; one that has none makes
    [String(sku)] throw. *)
Lemma coerceSku_printable (sku : value) :
  printable sku = true -> coerceSku sku = Normal (JStr (toStr sku)).
Proof.
  intros H. unfold coerceSku. destruct (isString sku) eqn:Hs.
  - now destruct sku.
  - now rewrite (ToString_printable _ H).
Qed.

Lemma coerceSku_throws (sku : value) :
  printable sku = false -> coerceSku sku = Throw notPrimitive.
Proof.
  intros H. unfold coerceSku, ToString. rewrite H.
  now destruct sku.
Qed.

Lemma mapArray_coerceSku (skus : list value) :
  forallb printable skus = true ->
  mapArray coerceSku skus = Normal (List.map (fun sku => JStr (toStr sku)) skus).
Proof.
  induction skus as [|sku skus IH]; [reflexivity|]. simpl.
  intros H. apply andb_true_iff in H as [Hsku Hskus].
  now rewrite (coerceSku_printable _ Hsku), (IH Hskus).
Qed.

Lemma mapArray_coerceSku_throws (skus : list value) :
  forallb printable skus = false ->
  mapArray coerceSku skus = Throw notPrimitive.
Proof.
  induction skus as [|sku skus IH]; [discriminate|]. simpl.
  destruct (printable sku) eqn:Hsku; simpl; intros H.
  - now rewrite (coerceSku_printable _ Hsku), (IH H).
  - now rewrite (coerceSku_throws _ Hsku).
Qed.

Lemma isValidResponse_answer (botResponseJson : value) :
  isValidResponse botResponseJson = true ->
  exists answer,
    get botResponseJson "answer" = Normal (JStr answer)
    /\ String.eqb (Str.trim answer) "" = false
    /\ Str.includes fallbackMarker answer = false.
Proof.
  unfold isValidResponse. intros H.
  apply andb_true_iff in H. destruct H as [_ H].
  destruct (get botResponseJson "answer") as [[| | | |text| |]|]; try discriminate.
  apply andb_true_iff in H. destruct H as [H1 H2]. exists text.
  apply negb_true_iff in H1, H2. auto.
Qed.

(** *** The services stay as they are *)

Lemma servicesKept_closed : closed servicesKept.
Proof.
  split; unfold servicesKept.
  - intros w. tauto.
  - intros a b c H1 H2.
    destruct H1 as (?&?&?&?&?&?&?&?), H2 as (?&?&?&?&?&?&?&?).
    repeat split; try congruence. auto.
  - intros w o rest H. repeat split. intros H'. congruence.
  - intros w t. repeat split. auto.
  - intros w ps. repeat split. auto.
Qed.

Lemma servicesKept_store (f : MongoStore -> MongoStore) :
  (forall s, has_addConversation (f s) = has_addConversation s
             /\ has_addEntryToConversation (f s) = has_addEntryToConversation s
             /\ has_loaderCustomSet (f s) = has_loaderCustomSet s) ->
  forall w, servicesKept w (with_store f w).
Proof.
  intros Hf w. destruct (Hf (mongoStore w)) as (H1 & H2 & H3).
  unfold servicesKept. destruct w. world_simpl. tauto.
Qed.

Lemma servicesKept_addConversation (id : string) :
  frame servicesKept (Store.addConversation id).
Proof.
  apply (frame_external _ servicesKept_closed). intros w. cbn [fst].
  apply servicesKept_store. intros s.
  destruct (conversations s !! id); now destruct s.
Qed.

Lemma servicesKept_addEntry (id : string) (e : Entry) :
  frame servicesKept (Store.addEntryToConversation id e).
Proof.
  apply (frame_external _ servicesKept_closed). intros w. cbn [fst].
  apply servicesKept_store. intros s.
  destruct (conversations s !! id); now destruct s.
Qed.

Lemma servicesKept_loaderCustomSet (loaderId key : string) (doc : Document) :
  frame servicesKept (Store.loaderCustomSet loaderId key doc).
Proof.
  apply (frame_external _ servicesKept_closed). intros w. cbn [fst].
  apply servicesKept_store. intros s. now destruct s.
Qed.

Lemma servicesKept_askModel (rt : Runtime) (config : PromptConfig)
    (userId userQuery userName children : value) :
  frame servicesKept (askModel rt config userId userQuery userName children).
Proof.
  apply (frame_askModel _ servicesKept_closed). apply servicesKept_addConversation.
Qed.

Lemma servicesKept_addConversationEntries (userId userQuery botResponse : value) :
  frame servicesKept (MemoryService.addConversationEntries userId userQuery botResponse).
Proof.
  apply (frame_addConversationEntries _ servicesKept_closed); intros t;
    apply servicesKept_addEntry.
Qed.

Lemma parseAndProcess_returns (rt : Runtime) (out : value) :
  returns (parseAndProcess rt out).
Proof.
  intros w. unfold parseAndProcess, try_catch.
  match goal with |- context [match ?m w with _ => _ end] => destruct (m w) as [w1 [v|e]] end;
    eauto.
Qed.

(** Once steps 1 to 5 have ended normally with a store in the cache
    service, the cache key has been built: the user id and the query
    have a text. *)
Lemma askModel_printable (rt : Runtime) (config : PromptConfig)
    (userId userQuery userName children : value) (w w1 : World) (asked : Asked) :
  askModel rt config userId userQuery userName children w = (w1, Normal asked) ->
  cacheService_mongoStore w = true ->
  printable userId = true /\ printable userQuery = true.
Proof.
  unfold askModel, bind at 1, CacheService.getCachedResult. intros Hrun Hcs.
  rewrite Hcs in Hrun. cbn [negb] in Hrun. unfold bind at 1, eval at 1 in Hrun.
  destruct (CacheService.generateCacheKey userId userQuery _) as [key|e] eqn:Hkey;
    [|discriminate].
  now apply generateCacheKey_inv in Hkey as (? & ? & _).
Qed.

Lemma setCachedResult_returns_at (userId query userMetadata data : value) (w : World) :
  (cacheService_mongoStore w = true -> printable userId = true /\ printable query = true) ->
  exists w' a,
    CacheService.setCachedResult userId query userMetadata data w = (w', Normal a).
Proof.
  intros Hkey.
  destruct (cacheService_mongoStore w) eqn:Hcs.
  - destruct (Hkey eq_refl) as [Hu Hq]. now apply setCachedResult_returns.
  - unfold CacheService.setCachedResult. rewrite Hcs. apply returns_ret.
Qed.

Lemma saveConversationAndCache_returns (config : PromptConfig)
    (userId userQuery metadata botResponseJson : value) (w : World) :
  (cacheService_mongoStore w = true ->
   printable userId = true /\ printable userQuery = true) ->
  exists w' a,
    saveConversationAndCache config userId userQuery metadata botResponseJson w
    = (w', Normal a).
Proof.
  intros Hkey. unfold saveConversationAndCache.
  destruct (isValidResponse botResponseJson) eqn:Hvalid; [|apply returns_ret].
  apply isValidResponse_answer in Hvalid as (answer & Hanswer & _). rewrite Hanswer.
  unfold bind at 1, eval at 1. unfold bind at 1.
  pose proof (servicesKept_addConversationEntries userId userQuery (JStr answer) w) as K.
  destruct (addConversationEntries_returns userId userQuery (JStr answer) w)
    as (wa & saved & Ea).
  rewrite Ea in K |- *. destruct K as (_ & _ & Kcs & _). cbn [fst] in Kcs.
  destruct (setCachedResult_returns_at userId userQuery metadata botResponseJson wa)
    as (wb & cached & Eb); [rewrite Kcs; exact Hkey|].
  unfold bind at 1. rewrite Eb.
  apply returns_bind; [apply summarizeAndStoreMemory_returns | intros; apply returns_ret].
Qed.

(** After a normal end of steps 1 to 5 the handler parses, saves and
    answers with status 200 and the body the parsing step gave. *)
Lemma handleQuery_after_model (rt : Runtime) (req : Request) (endpointName : string)
    (w w1 : World) (config : PromptConfig)
    (userQuery userId userName children out : value) :
  readRequest req = Normal (userQuery, userId, userName, children) ->
  truthy userQuery = true ->
  ragApplication w = true ->
  promptConfig w = Some config ->
  askModel rt config userId userQuery userName children w = (w1, Normal (ModelSaid out)) ->
  exists w2 w3 body,
    parseAndProcess rt out w1 = (w2, Normal body)
    /\ saveConversationAndCache config userId userQuery
         (userMetadata userName children) body w2 = (w3, Normal tt)
    /\ handleQuery rt req endpointName w = (w3, Normal (mkResponse 200 body)).
Proof.
  intros Hreq Hq Hrag Hcfg Hask.
  destruct (parseAndProcess_returns rt out w1) as (w2 & body & Hparse).
  pose proof (servicesKept_askModel rt config userId userQuery userName children w) as K1.
  pose proof (frame_parseAndProcess _ servicesKept_closed rt out w1) as K2.
  rewrite Hask in K1. rewrite Hparse in K2.
  destruct K1 as (_ & _ & K1 & _), K2 as (_ & _ & K2 & _). cbn [fst] in K1, K2.
  destruct (saveConversationAndCache_returns config userId userQuery
              (userMetadata userName children) body w2) as (w3 & [] & Hsave).
  { intros Hcs. apply (askModel_printable rt config userId userQuery userName children
                         w w1 _ Hask). congruence. }
  exists w2, w3, body. split; [exact Hparse|]. split; [exact Hsave|].
  rewrite (handleQuery_model_said rt req endpointName w w1 config
             userQuery userId userName children out) by assumption.
  now rewrite Hparse, Hsave.
Qed.

(** The parsing step on an output of the expected shape. *)
Lemma parseAndProcess_expected (rt : Runtime) (s answer : string) (parsed : value)
    (skus : list value) (w : World) :
  String.eqb (Str.trim s) "" = false ->
  JSON_parse rt (cleanOutput s) = Some parsed ->
  get parsed "answer" = Normal (JStr answer) ->
  get parsed "relatedProducts" = Normal (JArr skus) ->
  forallb printable skus = true ->
  exists w' rows,
    getProductsBySKUs (JArr (List.map (fun sku => JStr (toStr sku)) skus)) w
    = (w', Normal rows)
    /\ parseAndProcess rt (JStr s) w
       = (w', Normal (setProp parsed "relatedProducts" (JArr rows))).
Proof.
  intros Hs Hp Ha Hr Hskus.
  destruct (getProductsBySKUs_returns
              (JArr (List.map (fun sku => JStr (toStr sku)) skus)) w) as (w' & rows & E).
  exists w', rows. split; [assumption|].
  destruct (answer_is_of_object _ _ Ha) as [fields ->].
  unfold parseAndProcess, try_catch, bind, eval. rewrite Hs, Hp, Ha.
  cbn [negb isString]. cbv beta iota.
  rewrite Hr, (mapArray_coerceSku _ Hskus).
  unfold setProp, get. rewrite lookupField_setField, E. unfold ret.
  now rewrite setField_setField.
Qed.

(** An SKU without a text makes the step end in its [catch] block. *)
Lemma parseAndProcess_unprintable (rt : Runtime) (s answer : string) (parsed : value)
    (skus : list value) (w : World) :
  JSON_parse rt (cleanOutput s) = Some parsed ->
  get parsed "answer" = Normal (JStr answer) ->
  get parsed "relatedProducts" = Normal (JArr skus) ->
  forallb printable skus = false ->
  parseAndProcess rt (JStr s) w = (w, Normal (fallbackResponse (JStr s))).
Proof.
  intros Hp Ha Hr Hskus.
  unfold parseAndProcess, try_catch, bind, eval.
  destruct (String.eqb (Str.trim s) ""); [reflexivity|].
  rewrite Hp, Ha. cbn [negb isString]. cbv beta iota.
  now rewrite Hr, (mapArray_coerceSku_throws _ Hskus).
Qed.

Lemma getProductsBySKUs_empty (skus : value) (w : World) :
  db w = None
  \/ (forall sku rest, skus <> JArr (sku :: rest))
  \/ (exists e rest, faults w = Some e :: rest) ->
  snd (getProductsBySKUs skus w) = Normal [].
Proof.
  unfold getProductsBySKUs. intros H.
  destruct (db w) as [catalog|]; [|reflexivity].
  destruct H as [H | [H | (e & rest & H)]]; [discriminate | |].
  - destruct skus as [| | | | |[|sku rest]|]; try reflexivity.
    now destruct (H sku rest).
  - destruct skus as [| | | | |[|sku rest']|]; try reflexivity.
    unfold try_catch, bind, external. now rewrite H.
Qed.

(** C6, as stated, fails on an SKU that cannot be converted to a
    string: the LLM's output parses to an object with a string [answer]
    and an array [relatedProducts], the one element of the array is an
    object with a property [toString] of its own, [String(sku)] throws
    inside the [try] block, and the response is the fallback: no catalog
    row, and the answer is not the one of the LLM. *)
Lemma C6_unprintable_sku_counterexample :
  let parsed :=
    JObj [("answer", JStr "Hi");
          ("relatedProducts", JArr [JObj [("toString", JNum "1")]])] in
  let rt := Example.knowing [parsed] in
  let text := Example.jsonText parsed in
  let w := Example.world (JObj [("answer", JStr text)]) in
  JSON_parse rt (cleanOutput text) = Some parsed
  /\ expectedShape parsed = true
  /\ snd (handleQuery rt (Example.post (JObj [("query", JStr "toys?")])) "/ask" w)
     = Normal (mkResponse 200
                 (JObj [("answer", JStr (fallbackPrefix +:+ text));
                        ("relatedProducts", JArr [])])).
Proof. repeat split; vm_compute; reflexivity. Qed.

(** C6 (amended): when the LLM's output has the expected shape and
    every element of [relatedProducts] can be converted to a string,
    every element is coerced to a string, and the response carries,
    under [relatedProducts], the catalog rows that [getProductsBySKUs]
    returns for those SKU strings (the answer is kept); when an element
    cannot be converted, the response is the fallback.
    [getProductsBySKUs] returns the empty list whenever its argument is
    not a non-empty array, the database is not initialized, or the
    query throws. *)
Theorem C6_related_products (rt : Runtime) (req : Request) (endpointName : string)
    (w w1 : World) (config : PromptConfig)
    (userQuery userId userName children parsed : value)
    (s answer : string) (skus : list value) :
  readRequest req = Normal (userQuery, userId, userName, children) ->
  truthy userQuery = true ->
  ragApplication w = true ->
  promptConfig w = Some config ->
  askModel rt config userId userQuery userName children w
    = (w1, Normal (ModelSaid (JStr s))) ->
  String.eqb (Str.trim s) "" = false ->
  JSON_parse rt (cleanOutput s) = Some parsed ->
  get parsed "answer" = Normal (JStr answer) ->
  get parsed "relatedProducts" = Normal (JArr skus) ->
  (forallb printable skus = true ->
   let skuStrings := List.map (fun sku => JStr (toStr sku)) skus in
   mapArray coerceSku skus = Normal skuStrings
   /\ exists w2 w3 rows body,
        getProductsBySKUs (JArr skuStrings) w1 = (w2, Normal rows)
        /\ handleQuery rt req endpointName w = (w3, Normal (mkResponse 200 body))
        /\ get body "relatedProducts" = Normal (JArr rows)
        /\ get body "answer" = Normal (JStr answer))
  /\ (forallb printable skus = false ->
      mapArray coerceSku skus = Throw notPrimitive
      /\ handleQuery rt req endpointName w
         = (w1, Normal (mkResponse 200 (fallbackResponse (JStr s)))))
  /\ (forall v w',
        db w' = None
        \/ (forall sku rest, v <> JArr (sku :: rest))
        \/ (exists e rest, faults w' = Some e :: rest) ->
        snd (getProductsBySKUs v w') = Normal []).
Proof.
  intros Hreq Hq Hrag Hcfg Hask Hs Hp Ha Hr.
  split; [|split; [|intros v w'; apply getProductsBySKUs_empty]].
  - intros Hskus skuStrings. split; [now apply mapArray_coerceSku|].
    destruct (parseAndProcess_expected rt s answer parsed skus w1 Hs Hp Ha Hr Hskus)
      as (w2 & rows & Hrows & Hparse).
    destruct (handleQuery_after_model rt req endpointName w w1 config userQuery userId
                userName children (JStr s) Hreq Hq Hrag Hcfg Hask)
      as (w2' & w3 & body & Hparse' & _ & Hrun).
    rewrite Hparse in Hparse'. injection Hparse' as <- <-.
    exists w2, w3, rows, (setProp parsed "relatedProducts" (JArr rows)).
    split; [exact Hrows|]. split; [exact Hrun|].
    destruct (answer_is_of_object _ _ Ha) as [fields ->]. unfold setProp, get in *.
    rewrite lookupField_setField. split; [reflexivity|].
    now rewrite lookupField_setField_other.
  - intros Hskus. split; [now apply mapArray_coerceSku_throws|].
    rewrite (handleQuery_model_said rt req endpointName w w1 config
               userQuery userId userName children (JStr s)) by assumption.
    rewrite (parseAndProcess_unprintable rt s answer parsed skus w1) by assumption.
    unfold saveConversationAndCache. now rewrite fallback_not_valid.
Qed.

(** ** The cache lookup *)

(** For a user id that has a text and a query that is a string,
    [getCachedResult] is total: it never throws, leaves the store
    alone, and gives the [data] of the stored document when that is
    truthy and [null] otherwise. *)
Lemma getCachedResult_string (userId metadata : value) (q : string) (w : World) :
  printable userId = true ->
  exists w' v,
    CacheService.getCachedResult userId (JStr q) metadata w = (w', Normal v)
    /\ mongoStore w' = mongoStore w
    /\ prompts w' = prompts w
    /\ (v = JNull
        \/ exists doc,
             customData (mongoStore w) !! cacheKeyOf userId (JStr q) metadata = Some doc
             /\ v = doc_data doc /\ truthy v = true).
Proof.
  intros Hu. unfold CacheService.getCachedResult.
  destruct (negb (cacheService_mongoStore w)); [exists w, JNull; auto|].
  unfold bind at 1, eval at 1.
  rewrite (generateCacheKey_Normal userId (JStr q) metadata Hu eq_refl).
  unfold bind, try_catch, Store.loaderCustomGet, external, ret, eval, method.
  destruct (faults w) as [|[e|] rest]; simpl.
  - destruct (customData (mongoStore w) !! _) as [doc|] eqn:Hdoc; [|exists w, JNull; auto].
    destruct (truthy (doc_data doc)) eqn:Ht; [|exists w, JNull; auto].
    exists w, (doc_data doc). repeat split; eauto.
  - eexists _, JNull. repeat split; auto.
  - destruct (customData (mongoStore w) !! _) as [doc|] eqn:Hdoc;
      [|eexists _, JNull; repeat split; auto].
    destruct (truthy (doc_data doc)) eqn:Ht; [|eexists _, JNull; repeat split; auto].
    eexists _, (doc_data doc). repeat split; eauto.
Qed.

(** It answers [null] when the service has no store, and, once the key
    is built, when the store's [get] throws and when the document has
    no truthy [data]. *)
Lemma getCachedResult_null (userId query metadata : value) (w : World) :
  cacheService_mongoStore w = false
  \/ (printable userId = true /\ printable query = true
      /\ ((exists e rest, faults w = Some e :: rest)
          \/ (forall doc,
                customData (mongoStore w) !! cacheKeyOf userId query metadata = Some doc ->
                truthy (doc_data doc) = false))) ->
  snd (CacheService.getCachedResult userId query metadata w) = Normal JNull.
Proof.
  unfold CacheService.getCachedResult. intros H.
  destruct (cacheService_mongoStore w); simpl; [|reflexivity].
  destruct H as [H | (Hu & Hq & H)]; [discriminate|].
  unfold bind at 1, eval at 1. rewrite (generateCacheKey_Normal _ _ metadata Hu Hq).
  destruct H as [(e & rest & H) | H].
  - unfold bind, try_catch, Store.loaderCustomGet, external, ret. now rewrite H.
  - unfold bind, try_catch, Store.loaderCustomGet, external, ret.
    destruct (faults w) as [|[e|] rest]; simpl; try reflexivity;
      (destruct (customData (mongoStore w) !! _) as [doc|]; [|reflexivity];
       now rewrite (H doc eq_refl)).
Qed.

(** C9, where the code departs from it: with a query that is not a
    string and a cached document for it, the log line of the cache hit
    calls [query.substring], which is not there, and the [TypeError]
    leaves [getCachedResult]. *)
Theorem C9_getCachedResult_propagates :
  CacheService.generateCacheKey (JStr "u1") (JNum "5") (JObj []) = Normal "cache:u1:5:{}"
  /\ CacheService.getCachedResult (JStr "u1") (JNum "5") (JObj []) Example.cachedNumberQuery
     = (Example.cachedNumberQuery, Throw (TypeError "query.substring is not a function")).
Proof. split; reflexivity. Qed.

(** ** A cache hit *)

(** With a user id that has a text and a query that is a string, a
    cache hit is answered with the stored data and nothing else
    happens: no prompt is sent, the store and the clock are as before. *)
Lemma handleQuery_cache_hit (rt : Runtime) (req : Request) (endpointName : string)
    (w : World) (config : PromptConfig) (q : string)
    (userId userName children : value) (doc : Document) :
  readRequest req = Normal (JStr q, userId, userName, children) ->
  truthy (JStr q) = true ->
  ragApplication w = true ->
  promptConfig w = Some config ->
  cacheService_mongoStore w = true ->
  (forall e rest, faults w <> Some e :: rest) ->
  printable userId = true ->
  customData (mongoStore w)
    !! cacheKeyOf userId (JStr q) (userMetadata userName children)
    = Some doc ->
  truthy (doc_data doc) = true ->
  exists w',
    handleQuery rt req endpointName w = (w', Normal (mkResponse 200 (doc_data doc)))
    /\ mongoStore w' = mongoStore w
    /\ prompts w' = prompts w
    /\ now w' = now w.
Proof.
  intros Hreq Hq Hrag Hcfg Hcs Hok Hu Hdoc Hdata.
  unfold handleQuery, bind, eval. rewrite Hreq, Hq. cbn [negb]. cbv beta iota.
  rewrite Hrag, Hcfg. unfold try_catch, askModel, bind.
  fold (userMetadata userName children).
  unfold CacheService.getCachedResult. rewrite Hcs. cbn [negb]. cbv beta iota.
  unfold bind at 1, eval at 1.
  rewrite (generateCacheKey_Normal userId (JStr q) _ Hu eq_refl).
  unfold bind, try_catch, Store.loaderCustomGet, external, ret, eval, method.
  destruct (faults w) as [|[e|] rest] eqn:Hf.
  - rewrite Hdoc, Hdata. rewrite Hdata. now exists w.
  - now destruct (Hok e rest).
  - simpl. rewrite Hdoc, Hdata. rewrite Hdata. now eexists.
Qed.

(** C5, where the code departs from it: the request [{"query": 5}] is
    answered and cached the first time; the second time the cache
    lookup finds the stored document, the log line of the hit calls
    [query.substring] on the number, and the request ends with status
    500 instead of the stored data. *)
Theorem C5_cache_hit_number_query :
  let rt := Example.knowing [Example.helpfulReply] in
  let first := handleQuery rt Example.numberQuery "/ask" Example.helpfulWorld in
  snd first = Normal (mkResponse 200 Example.helpfulReply)
  /\ (exists key,
        CacheService.generateCacheKey (JStr "default_user") (JNum "5")
          (userMetadata (JStr "") (JArr [])) = Normal key
        /\ customData (mongoStore (fst first)) !! key
           = Some (CacheDoc Example.helpfulReply 2))
  /\ handleQuery rt Example.numberQuery "/ask" (fst first)
     = (fst first,
        Normal (mkResponse 500
                  (JObj [("answer", JStr "Error processing your question");
                         ("relatedProducts", JArr []);
                         ("details", JStr "query.substring is not a function")]))).
Proof.
  split; [vm_compute; reflexivity|].
  split; [eexists; split; [reflexivity | vm_compute; reflexivity]|].
  vm_compute; reflexivity.
Qed.

(** ** Periodic summaries *)

Lemma sameStore_closed : closed sameStore.
Proof.
  split; unfold sameStore; try reflexivity; try congruence.
Qed.

Lemma getConversation_inv (id : string) (w w1 : World) (r : completion (option (list Entry))) :
  Store.getConversation id w = (w1, r) ->
  mongoStore w1 = mongoStore w
  /\ prompts w1 = prompts w
  /\ forall conv, r = Normal conv -> conv = conversations (mongoStore w) !! id.
Proof.
  unfold Store.getConversation, external.
  destruct (faults w) as [|[e|] rest]; intros E; inversion E; subst; simpl;
    (split; [reflexivity|]); (split; [reflexivity|]);
    intros conv H; inversion H; reflexivity.
Qed.

Lemma summarizeConversation_sameStore (userId : value) (text promptTemplate : string)
    (w w2 : World) (r : completion value) :
  RagService.summarizeConversation userId text promptTemplate w = (w2, r) ->
  mongoStore w2 = mongoStore w.
Proof.
  intros E.
  pose proof (frame_summarizeConversation sameStore sameStore_closed
                userId text promptTemplate w) as H.
  now rewrite E in H.
Qed.

Section Summaries.

Variables (userId : value) (promptTemplate : string).

Let summarize := MemoryService.summarizeAndStoreMemory userId promptTemplate.

Lemma summarize_uninitialized (w : World) :
  memoryService_mongoStore w = false -> summarize w = (w, Normal false).
Proof.
  intros H. unfold summarize, MemoryService.summarizeAndStoreMemory. now rewrite H.
Qed.

Lemma summarize_fetch_throws (w w1 : World) (e : exn) :
  memoryService_mongoStore w = true ->
  Store.getConversation (toStr userId) w = (w1, Throw e) ->
  summarize w = (w1, Normal false).
Proof.
  intros Hms E. unfold summarize, MemoryService.summarizeAndStoreMemory.
  rewrite Hms. cbn [negb]. unfold try_catch, bind. now rewrite E.
Qed.

Lemma summarize_not_due (w w1 : World) (conversationData : option (list Entry)) :
  memoryService_mongoStore w = true ->
  Store.getConversation (toStr userId) w = (w1, Normal conversationData) ->
  due (historyOf conversationData) = false ->
  summarize w = (w1, Normal false).
Proof.
  intros Hms E Hdue. unfold summarize, MemoryService.summarizeAndStoreMemory.
  rewrite Hms. cbn [negb]. unfold try_catch, bind. rewrite E.
  unfold due, historyOf in Hdue. now rewrite Hdue.
Qed.

(** When a summary is due, what happens follows the outcome of
    [summarizeConversation]. *)
Lemma summarize_due (w w1 w2 : World) (conversationData : option (list Entry))
    (outcome : completion value) :
  memoryService_mongoStore w = true ->
  Store.getConversation (toStr userId) w = (w1, Normal conversationData) ->
  due (historyOf conversationData) = true ->
  RagService.summarizeConversation userId
    (Str.join Str.nl (List.map renderTurn (historyOf conversationData)))
    promptTemplate w1 = (w2, outcome) ->
  match storable outcome with
  | Some text =>
      if has_loaderCustomSet (mongoStore w) && negb (nextCallFails w2) then
        exists w3,
          summarize w = (w3, Normal true)
          /\ customData (mongoStore w3)
             = <[MemoryService.memoryKey userId
                   := SummaryDoc text "conversation_summary" (now w2)]>
                 (customData (mongoStore w))
          /\ conversations (mongoStore w3) = conversations (mongoStore w)
      else
        exists w3, summarize w = (w3, Normal false) /\ mongoStore w3 = mongoStore w
  | None =>
      exists w3, summarize w = (w3, Normal false) /\ mongoStore w3 = mongoStore w
  end.
Proof.
  intros Hms E Hdue Es.
  destruct (getConversation_inv _ _ _ _ E) as [Hst1 _].
  pose proof (summarizeConversation_sameStore _ _ _ _ _ _ Es) as Hst2.
  assert (summarize w
          = match
              match outcome with
              | Normal summary =>
                  (if truthy summary then
                     let* text := eval (method "summary" "startsWith" summary) in
                     if negb (Str.startsWith "Error" text)
                        && negb (Str.startsWith "Could not summarize" text) then
                       if has_loaderCustomSet (mongoStore w) then
                         let* timestamp := newDate in
                         Store.loaderCustomSet (toStr userId)
                           (MemoryService.memoryKey userId)
                           (SummaryDoc text "conversation_summary" timestamp);;
                         ret true
                       else ret false
                     else ret false
                   else ret false) w2
              | Throw e => (w2, Throw e)
              end
            with
            | (w', Normal b) => (w', Normal b)
            | (w', Throw _) => (w', Normal false)
            end) as ->.
  { unfold summarize, MemoryService.summarizeAndStoreMemory.
    rewrite Hms. cbn [negb]. unfold try_catch at 1. unfold bind at 1. rewrite E.
    unfold due, historyOf in Hdue. unfold historyOf in Es. rewrite Hdue.
    unfold bind at 1. rewrite Es. unfold ret.
    destruct outcome as [summary|e]; reflexivity. }
  assert (mongoStore w2 = mongoStore w) as Hst by congruence.
  unfold storable, truthy, bind, eval, method, ret, newDate, Store.loaderCustomSet,
    external, nextCallFails.
  destruct outcome as [[| |b|r|text|items|fields]|e];
    try (exists w2; split; [reflexivity | exact Hst]; fail).
  - destruct b; exists w2; (split; [reflexivity | exact Hst]).
  - destruct (negb (String.eqb r "0") && negb (String.eqb r "NaN"));
      exists w2; split; [reflexivity | exact Hst | reflexivity | exact Hst].
  - destruct (String.eqb text ""); cbn [negb andb];
      [exists w2; split; [reflexivity | exact Hst]|].
    destruct (negb (Str.startsWith "Error" text)
              && negb (Str.startsWith "Could not summarize" text));
      [|exists w2; split; [reflexivity | exact Hst]].
    destruct (has_loaderCustomSet (mongoStore w)); cbn [andb];
      [|exists w2; split; [reflexivity | exact Hst]].
    change (faults (with_now (S (now w2)) w2)) with (faults w2).
    destruct (faults w2) as [|[e|] rest]; cbn [negb];
      (eexists; split; [reflexivity|]); cbn; rewrite ?Hst; auto.
Qed.

Lemma storable_Some (outcome : completion value) (text : string) :
  storable outcome = Some text ->
  outcome = Normal (JStr text)
  /\ String.eqb text "" = false
  /\ Str.startsWith "Error" text = false
  /\ Str.startsWith "Could not summarize" text = false.
Proof.
  unfold storable. destruct outcome as [[| | | |t| |]|]; try discriminate.
  destruct (String.eqb t "") eqn:H1; [discriminate|].
  destruct (Str.startsWith "Error" t) eqn:H2; [discriminate|].
  destruct (Str.startsWith "Could not summarize" t) eqn:H3; [discriminate|].
  cbn. intros [= ->]. auto.
Qed.

End Summaries.






(** ** What [handleQuery] persists *)

Lemma cleanKept_closed : closed cleanKept.
Proof. split; unfold cleanKept; auto. Qed.

Lemma cleanKept_addConversation (id : string) :
  frame cleanKept (Store.addConversation id).
Proof.
  apply (frame_external _ cleanKept_closed). intros w [Hc He]. simpl.
  destruct (conversations (mongoStore w) !! id) as [es0|] eqn:Hid; [now split|].
  split; [exact Hc|]. simpl. intros id' es e Hes Hin Hrole.
  rewrite lookup_insert in Hes. destruct (decide (id = id')) as [->|Hne].
  - inversion Hes; subst. destruct Hin.
  - eauto.
Qed.

Lemma cleanKept_addEntry (id : string) (e : Entry) :
  (role e = JStr "Bot" -> holdsFallback (content e) = false) ->
  frame cleanKept (Store.addEntryToConversation id e).
Proof.
  intros Hnew. apply (frame_external _ cleanKept_closed). intros w [Hc He]. simpl.
  destruct (conversations (mongoStore w) !! id) as [es0|] eqn:Hid; [|now split].
  split; [exact Hc|]. simpl. intros id' es e' Hes Hin Hrole.
  rewrite lookup_insert in Hes. destruct (decide (id = id')) as [->|Hne].
  - inversion Hes; subst. apply in_app_or in Hin as [Hin|[<-|[]]]; eauto.
  - eauto.
Qed.

Lemma cleanKept_loaderCustomSet (loaderId key : string) (doc : Document) :
  (forall data t, doc = CacheDoc data t -> holdsFallback (answerOf data) = false) ->
  frame cleanKept (Store.loaderCustomSet loaderId key doc).
Proof.
  intros Hnew. apply (frame_external _ cleanKept_closed). intros w [Hc He]. simpl.
  split; [|exact He]. simpl. intros key' data t Hdoc.
  rewrite lookup_insert in Hdoc. destruct (decide (key = key')) as [->|Hne].
  - inversion Hdoc; subst. eauto.
  - eauto.
Qed.

Lemma cleanKept_saveConversationAndCache (config : PromptConfig)
    (userId userQuery metadata botResponseJson : value) :
  frame cleanKept
    (saveConversationAndCache config userId userQuery metadata botResponseJson).
Proof.
  unfold saveConversationAndCache.
  destruct (isValidResponse botResponseJson) eqn:Hvalid;
    [|apply (frame_ret _ cleanKept_closed)].
  apply isValidResponse_answer in Hvalid as (answer & Hanswer & _ & Hclean).
  rewrite Hanswer.
  apply (frame_bind_eval cleanKept).
  apply (frame_bind _ cleanKept_closed).
  { apply (frame_addConversationEntries _ cleanKept_closed); intros t;
      apply cleanKept_addEntry; simpl; [discriminate | now intros _]. }
  intros ?. apply (frame_bind _ cleanKept_closed).
  { apply (frame_setCachedResult _ cleanKept_closed). intros key t _.
    apply cleanKept_loaderCustomSet. intros data t' [= <- _].
    unfold answerOf. now rewrite Hanswer. }
  intros ?. apply (frame_bind _ cleanKept_closed);
    [|intros; apply (frame_ret _ cleanKept_closed)].
  apply (frame_summarizeAndStoreMemory _ cleanKept_closed). intros text t _ _.
  apply cleanKept_loaderCustomSet. discriminate.
Qed.

Lemma cleanKept_handleQuery (rt : Runtime) (req : Request) (endpointName : string) :
  frame cleanKept (handleQuery rt req endpointName).
Proof.
  unfold handleQuery.
  apply (frame_bind _ cleanKept_closed); [apply (frame_eval _ cleanKept_closed)|].
  intros [[[userQuery userId] userName] children].
  destruct (negb (truthy userQuery)); [apply (frame_ret _ cleanKept_closed)|].
  intros w. destruct (ragApplication w); [|apply (frame_ret _ cleanKept_closed)].
  destruct (promptConfig w) as [config|]; [|apply (frame_ret _ cleanKept_closed)].
  apply (frame_try_catch _ cleanKept_closed);
    [|intros; apply (frame_ret _ cleanKept_closed)].
  apply (frame_bind _ cleanKept_closed).
  { apply (frame_askModel _ cleanKept_closed). apply cleanKept_addConversation. }
  intros [cached|out]; [apply (frame_ret _ cleanKept_closed)|].
  apply (frame_bind _ cleanKept_closed);
    [apply (frame_parseAndProcess _ cleanKept_closed)|]. intros bot.
  apply (frame_bind _ cleanKept_closed);
    [apply cleanKept_saveConversationAndCache | intros; apply (frame_ret _ cleanKept_closed)].
Qed.

Lemma historyKept_closed : closed historyKept.
Proof.
  split; unfold historyKept; try (intros; split; reflexivity).
  intros a b c [H1 H2] [H3 H4]. split; [congruence|].
  intros id. now rewrite H4, H2.
Qed.

Lemma historyKept_addConversation (id : string) :
  frame historyKept (Store.addConversation id).
Proof.
  apply (frame_external _ historyKept_closed). intros w.
  unfold historyKept, with_store. cbn [fst mongoStore].
  destruct (conversations (mongoStore w) !! id) as [es0|] eqn:Hid; [now split|].
  split; [reflexivity|]. cbn [conversations set_conversations]. intros id'.
  destruct (decide (id = id')) as [<-|Hne].
  - now rewrite lookup_insert_eq, Hid.
  - now rewrite lookup_insert_ne.
Qed.

Lemma summaryOnly_closed (userId : value) : closed (summaryOnly userId).
Proof.
  split; unfold summaryOnly; try (intros; split; reflexivity).
  intros a b c [H1 H2] [H3 H4]. split; [congruence|].
  intros key Hkey. now rewrite H4, H2.
Qed.

Lemma summaryOnly_summarize (userId : value) (promptTemplate : string) :
  frame (summaryOnly userId) (MemoryService.summarizeAndStoreMemory userId promptTemplate).
Proof.
  apply (frame_summarizeAndStoreMemory _ (summaryOnly_closed userId)).
  intros text t _ _. apply (frame_external _ (summaryOnly_closed userId)).
  intros w. split; [reflexivity|]. simpl. intros key Hkey. now rewrite lookup_insert_ne.
Qed.

Lemma memoryKey_not_cacheKey (userId userId' query metadata : value) :
  cacheKeyOf userId' query metadata <> MemoryService.memoryKey userId.
Proof. discriminate. Qed.

Lemma addConversationEntries_ok (userId userQuery botResponse : value) (w : World)
    (es : list Entry) :
  memoryService_mongoStore w = true ->
  has_addEntryToConversation (mongoStore w) = true ->
  faults w = [] ->
  conversations (mongoStore w) !! toStr userId = Some es ->
  exists w',
    MemoryService.addConversationEntries userId userQuery botResponse w = (w', Normal true)
    /\ conversations (mongoStore w') !! toStr userId
       = Some (es ++ [mkEntry (JStr "User") userQuery (now w);
                      mkEntry (JStr "Bot") botResponse (S (now w))])
    /\ customData (mongoStore w') = customData (mongoStore w)
    /\ cacheService_mongoStore w' = cacheService_mongoStore w
    /\ has_loaderCustomSet (mongoStore w') = has_loaderCustomSet (mongoStore w)
    /\ faults w' = []
    /\ now w' = S (S (now w)).
Proof.
  intros Hms Hadd Hf Hes.
  unfold MemoryService.addConversationEntries. rewrite Hms, Hadd. cbn [negb orb].
  unfold try_catch, bind, newDate, Store.addEntryToConversation, external, ret.
  destruct w as [ra pc cs ms [cd cv f1 f2 f3] d l ps fs t]. world_simpl. subst fs.
  rewrite Hes. world_simpl. rewrite lookup_insert_eq.
  eexists. split; [reflexivity|]. world_simpl.
  rewrite lookup_insert_eq, <- app_assoc. auto 10.
Qed.

Lemma setCachedResult_ok (userId query metadata data : value) (w : World) :
  cacheService_mongoStore w = true ->
  has_loaderCustomSet (mongoStore w) = true ->
  faults w = [] ->
  printable userId = true ->
  printable query = true ->
  exists w',
    CacheService.setCachedResult userId query metadata data w = (w', Normal true)
    /\ customData (mongoStore w')
       = <[cacheKeyOf userId query metadata := CacheDoc data (now w)]>
           (customData (mongoStore w))
    /\ conversations (mongoStore w') = conversations (mongoStore w).
Proof.
  intros Hcs Hset Hf Hu Hq.
  unfold CacheService.setCachedResult. rewrite Hcs, Hset. cbn [negb].
  unfold bind at 1, eval at 1. rewrite (generateCacheKey_Normal _ _ metadata Hu Hq).
  unfold try_catch, bind, newDate, Store.loaderCustomSet, external, ret.
  destruct w as [ra pc cs ms [cd cv f1 f2 f3] d l ps fs t]. world_simpl. subst fs.
  eexists. split; [reflexivity|]. world_simpl. auto.
Qed.

(** Step 7 on a valid response, when the store takes the writes. *)
Lemma saveConversationAndCache_valid (config : PromptConfig)
    (userId userQuery metadata botResponseJson : value) (answer : string)
    (w : World) (es : list Entry) :
  isValidResponse botResponseJson = true ->
  get botResponseJson "answer" = Normal (JStr answer) ->
  memoryService_mongoStore w = true ->
  cacheService_mongoStore w = true ->
  has_addEntryToConversation (mongoStore w) = true ->
  has_loaderCustomSet (mongoStore w) = true ->
  faults w = [] ->
  conversations (mongoStore w) !! toStr userId = Some es ->
  printable userId = true ->
  printable userQuery = true ->
  exists w',
    saveConversationAndCache config userId userQuery metadata botResponseJson w
    = (w', Normal tt)
    /\ conversations (mongoStore w') !! toStr userId
       = Some (es ++ [mkEntry (JStr "User") userQuery (now w);
                      mkEntry (JStr "Bot") (JStr answer) (S (now w))])
    /\ customData (mongoStore w') !! cacheKeyOf userId userQuery metadata
       = Some (CacheDoc botResponseJson (S (S (now w)))).
Proof.
  intros Hvalid Hanswer Hms Hcs Hadd Hset Hf Hes Hu Hq.
  unfold saveConversationAndCache. rewrite Hvalid, Hanswer.
  unfold bind at 1. unfold eval.
  destruct (addConversationEntries_ok userId userQuery (JStr answer) w es Hms Hadd Hf Hes)
    as (wa & Ea & Hconv & Hdata & Hcs' & Hset' & Hf' & Hnow).
  unfold bind at 1. rewrite Ea.
  destruct (setCachedResult_ok userId userQuery metadata botResponseJson wa)
    as (wb & Eb & Hdata' & Hconv'); [congruence.. |].
  unfold bind at 1. rewrite Eb.
  destruct (summarizeAndStoreMemory_returns userId (summarizationInstruction config) wb)
    as (wc & b & Ec).
  pose proof (summaryOnly_summarize userId (summarizationInstruction config) wb) as [Hc Hd].
  rewrite Ec in Hc, Hd. simpl in Hc, Hd.
  unfold bind, ret. rewrite Ec.
  exists wc. split; [reflexivity|]. split.
  - now rewrite Hc, Hconv'.
  - rewrite Hd by apply memoryKey_not_cacheKey.
    rewrite Hdata', Hnow. apply lookup_insert_eq.
Qed.

(** C8, as stated, fails on an answer that is not empty but blank: the
    LLM's JSON has the answer [" "], a non-empty string without the
    fallback sentence, and still no turn is appended and nothing is
    cached. *)
Lemma C8_blank_answer_counterexample :
  let reply := JObj [("answer", JStr " "); ("relatedProducts", JArr [])] in
  let rt := Example.knowing [reply] in
  let w := Example.world (JObj [("answer", JStr (Example.jsonText reply))]) in
  let run := handleQuery rt (Example.post (JObj [("query", JStr "toys?")])) "/ask" w in
  snd run = Normal (mkResponse 200 reply)
  /\ negb (String.eqb " " "") = true
  /\ Str.includes fallbackMarker " " = false
  /\ conversations (mongoStore (fst run)) !! "default_user" = Some []
  /\ customData (mongoStore (fst run)) = ∅.
Proof. repeat split; vm_compute; reflexivity. Qed.

(** C8 (amended): [handleQuery] appends conversation turns and writes
    the response cache only when the response is valid, that is, when
    its answer is a string that is not blank (not empty once trimmed)
    and does not contain "I had a little trouble formatting my
    response".  When it is valid and the store takes the writes,
    exactly two entries are appended in order, a User entry
    [{role, content, timestamp}] with the query and a Bot entry with the
    answer, and the response is cached as the record [{data,
    timestamp}].  Hence a store in which no cached response and no Bot
    entry holds the fallback answer stays so. *)
Theorem C8_persistence (rt : Runtime) (req : Request) (endpointName : string)
    (w w1 w2 : World) (config : PromptConfig)
    (userQuery userId userName children out botResponseJson : value) :
  readRequest req = Normal (userQuery, userId, userName, children) ->
  truthy userQuery = true ->
  ragApplication w = true ->
  promptConfig w = Some config ->
  askModel rt config userId userQuery userName children w = (w1, Normal (ModelSaid out)) ->
  parseAndProcess rt out w1 = (w2, Normal botResponseJson) ->
  let valid :=
    truthy botResponseJson &&
    match get botResponseJson "answer" with
    | Normal (JStr answer) =>
        negb (String.eqb (Str.trim answer) "")
        && negb (Str.includes "I had a little trouble formatting my response" answer)
    | _ => false
    end in
  (valid = false ->
   handleQuery rt req endpointName w = (w2, Normal (mkResponse 200 botResponseJson))
   /\ customData (mongoStore w2) = customData (mongoStore w)
   /\ forall id,
        historyOf (conversations (mongoStore w2) !! id)
        = historyOf (conversations (mongoStore w) !! id))
  /\ (valid = true ->
      forall answer es,
        get botResponseJson "answer" = Normal (JStr answer) ->
        memoryService_mongoStore w2 = true ->
        cacheService_mongoStore w2 = true ->
        has_addEntryToConversation (mongoStore w2) = true ->
        has_loaderCustomSet (mongoStore w2) = true ->
        faults w2 = [] ->
        conversations (mongoStore w2) !! toStr userId = Some es ->
        exists w3,
          handleQuery rt req endpointName w
          = (w3, Normal (mkResponse 200 botResponseJson))
          /\ conversations (mongoStore w3) !! toStr userId
             = Some (es ++ [mkEntry (JStr "User") userQuery (now w2);
                            mkEntry (JStr "Bot") (JStr answer) (S (now w2))])
          /\ exists key,
               CacheService.generateCacheKey userId userQuery
                 (JObj [("name", userName); ("children", children)]) = Normal key
               /\ customData (mongoStore w3) !! key
                  = Some (CacheDoc botResponseJson (S (S (now w2)))))
  /\ (storeClean (mongoStore w) ->
      storeClean (mongoStore (fst (handleQuery rt req endpointName w)))).
Proof.
  intros Hreq Hq Hrag Hcfg Hask Hparse valid.
  pose proof (handleQuery_model_said rt req endpointName w w1 config
                userQuery userId userName children out Hreq Hq Hrag Hcfg Hask) as Hrun.
  rewrite Hparse in Hrun.
  split; [|split].
  - intros Hvalid. rewrite Hrun.
    unfold saveConversationAndCache.
    change (isValidResponse botResponseJson) with valid. rewrite Hvalid.
    split; [reflexivity|].
    pose proof (frame_askModel historyKept historyKept_closed rt config userId userQuery
                  userName children (historyKept_addConversation (toStr userId)) w) as H1.
    pose proof (frame_parseAndProcess historyKept historyKept_closed rt out w1) as H2.
    rewrite Hask in H1. rewrite Hparse in H2.
    exact (closed_trans _ historyKept_closed _ _ _ H1 H2).
  - intros Hvalid answer es Hanswer Hms Hcs Hadd Hset Hf Hes.
    pose proof (servicesKept_askModel rt config userId userQuery userName children w) as K1.
    pose proof (frame_parseAndProcess _ servicesKept_closed rt out w1) as K2.
    rewrite Hask in K1. rewrite Hparse in K2.
    destruct K1 as (_ & _ & K1 & _), K2 as (_ & _ & K2 & _). cbn [fst] in K1, K2.
    destruct (askModel_printable rt config userId userQuery userName children w w1 _ Hask)
      as [Hu Hp]; [congruence|].
    destruct (saveConversationAndCache_valid config userId userQuery
                (userMetadata userName children) botResponseJson answer w2 es
                Hvalid Hanswer Hms Hcs Hadd Hset Hf Hes Hu Hp)
      as (w3 & Hsave & Hconv & Hdata).
    exists w3. rewrite Hrun, Hsave. split; [reflexivity|]. split; [exact Hconv|].
    exists (cacheKeyOf userId userQuery (userMetadata userName children)).
    split; [now apply generateCacheKey_Normal | exact Hdata].
  - apply cleanKept_handleQuery.
Qed.

(** The theorem at work: a valid answer to the first question of a new
    user. *)
Lemma C8_persistence_witness :
  let reply := JObj [("answer", JStr "Try the rattle."); ("relatedProducts", JArr [])] in
  let rt := Example.knowing [reply] in
  let w := Example.world (JObj [("answer", JStr (Example.jsonText reply))]) in
  let run := handleQuery rt (Example.post (JObj [("query", JStr "toys?")])) "/ask" w in
  snd run = Normal (mkResponse 200 reply)
  /\ conversations (mongoStore (fst run)) !! "default_user"
     = Some [mkEntry (JStr "User") (JStr "toys?") 0;
             mkEntry (JStr "Bot") (JStr "Try the rattle.") 1]
  /\ customData (mongoStore (fst run))
       !! cacheKeyOf (JStr "default_user") (JStr "toys?")
            (JObj [("name", JStr ""); ("children", JArr [])])
     = Some (CacheDoc reply 2).
Proof.
  intros reply rt w run.
  set (asked := askModel rt Example.config (JStr "default_user") (JStr "toys?")
                  (JStr "") (JArr []) w).
  set (parsed := parseAndProcess rt (JStr (Example.jsonText reply)) (fst asked)).
  destruct (C8_persistence rt (Example.post (JObj [("query", JStr "toys?")])) "/ask"
              w (fst asked) (fst parsed) Example.config
              (JStr "toys?") (JStr "default_user") (JStr "") (JArr [])
              (JStr (Example.jsonText reply)) reply
              eq_refl eq_refl eq_refl eq_refl)
    as (_ & Hvalid & _); [vm_compute; reflexivity | vm_compute; reflexivity |].
  destruct (Hvalid eq_refl "Try the rattle." [] eq_refl eq_refl eq_refl eq_refl eq_refl
              eq_refl eq_refl) as (w3 & Hrun & Hconv & key & Hkey & Hdata).
  apply generateCacheKey_inv in Hkey as (_ & _ & ->).
  subst run. rewrite Hrun. auto.
Defined.

(** ** What is handed to the JSON parser *)

Lemma firstFencedBlock_blockAfter (s : string) :
  Regex.exec Regex.codeBlock s
  = match Regex.firstFencedBlock s with
    | Some (whole, content) => Some [whole; content]
    | None => None
    end.
Proof.
  rewrite exec_codeBlock. unfold Regex.firstFencedBlock, Regex.blockAfter.
  destruct (Str.splitFirst Regex.fence s) as [[before opened]|]; [|reflexivity].
  destruct (Str.dropPrefix "json" opened) as [rest|];
    now destruct (Str.splitFirst Regex.fence (Str.trimStart _)) as [[content after]|].
Qed.

Lemma no_fence_no_block (s : string) :
  Str.includes Regex.fence s = false -> Regex.firstFencedBlock s = None.
Proof.
  unfold Str.includes, Regex.firstFencedBlock.
  now destruct (Str.splitFirst Regex.fence s) as [[? ?]|].
Qed.

Lemma cleanOutput_spec (s : string) :
  cleanOutput s
  = match Regex.firstFencedBlock s with
    | Some (_, content) => if String.eqb content "" then s else Str.trim content
    | None => s
    end.
Proof.
  unfold cleanOutput. rewrite firstFencedBlock_blockAfter.
  destruct (Str.includes Regex.fence s) eqn:Hfence.
  - destruct (Regex.firstFencedBlock s) as [[whole content]|]; [|reflexivity].
    now destruct (String.eqb content "").
  - now rewrite no_fence_no_block.
Qed.

(** The parsing step consults [JSON.parse] on the cleaned output only. *)
Lemma parseAndProcess_parses_cleanOutput (rt1 rt2 : Runtime) (s : string) (w : World) :
  JSON_parse rt1 (cleanOutput s) = JSON_parse rt2 (cleanOutput s) ->
  parseAndProcess rt1 (JStr s) w = parseAndProcess rt2 (JStr s) w.
Proof. intros H. unfold parseAndProcess. now rewrite H. Qed.

(** The parsing step on a text that [JSON.parse] rejects. *)
Lemma parseAndProcess_unparsable (rt : Runtime) (s : string) (w : World) :
  JSON_parse rt (cleanOutput s) = None ->
  parseAndProcess rt (JStr s) w = (w, Normal (fallbackResponse (JStr s))).
Proof.
  intros H. unfold parseAndProcess, try_catch. rewrite H.
  now destruct (String.eqb (Str.trim s) "").
Qed.

(** C7: the text handed to the JSON parser is the trimmed content of
    the first fenced code block, the one the pattern matches (three
    backticks, an optional [json], white space, the content up to the
    next three backticks), when the output contains three backticks
    and that block has a content; for every other output, without a
    fence or without such a block, it is the raw output unchanged.
    That text, [cleanOutput s], is what the parsing step parses: when
    [JSON.parse] rejects it the step gives the fallback, when
    [JSON.parse] gives a value of the expected shape for it the step
    gives that value with the catalog rows in it, and what
    [JSON.parse] would say of any other text makes no difference. *)
Theorem C7_code_fence_extraction (rt : Runtime) (s : string) (w : World) :
  (JSON_parse rt (cleanOutput s) = None ->
   parseAndProcess rt (JStr s) w = (w, Normal (fallbackResponse (JStr s))))
  /\ (forall parsed answer skus,
        String.eqb (Str.trim s) "" = false ->
        JSON_parse rt (cleanOutput s) = Some parsed ->
        get parsed "answer" = Normal (JStr answer) ->
        get parsed "relatedProducts" = Normal (JArr skus) ->
        forallb printable skus = true ->
        exists w' rows,
          getProductsBySKUs (JArr (List.map (fun sku => JStr (toStr sku)) skus)) w
          = (w', Normal rows)
          /\ parseAndProcess rt (JStr s) w
             = (w', Normal (setProp parsed "relatedProducts" (JArr rows))))
  /\ (forall rt2,
        JSON_parse rt (cleanOutput s) = JSON_parse rt2 (cleanOutput s) ->
        parseAndProcess rt (JStr s) w = parseAndProcess rt2 (JStr s) w)
  /\ cleanOutput s
     = (if Str.includes "```" s then
          match Regex.firstFencedBlock s with
          | Some (_, content) => if String.eqb content "" then s else Str.trim content
          | None => s
          end
        else s)
  /\ Regex.exec Regex.codeBlock s
     = match Regex.firstFencedBlock s with
       | Some (whole, content) => Some [whole; content]
       | None => None
       end.
Proof.
  split; [apply parseAndProcess_unparsable|].
  split; [intros parsed answer skus; apply parseAndProcess_expected|].
  split; [intros rt2; apply parseAndProcess_parses_cleanOutput|].
  split; [|apply firstFencedBlock_blockAfter].
  rewrite cleanOutput_spec.
  destruct (Str.includes "```" s) eqn:Hfence; [reflexivity|].
  now rewrite (no_fence_no_block s Hfence).
Qed.

(** The theorem at work: a fenced answer with a [json] tag. *)
Lemma C7_code_fence_extraction_witness :
  let reply := JObj [("answer", JStr "Hi"); ("relatedProducts", JArr [])] in
  let s := "Here you are: ```json" +:+ Str.nl +:+ Example.jsonText reply +:+ Str.nl
           +:+ "``` Enjoy!" in
  cleanOutput s = Example.jsonText reply
  /\ snd (parseAndProcess (Example.knowing [reply]) (JStr s) (Example.world JNull))
     = Normal reply.
Proof.
  intros reply s.
  destruct (C7_code_fence_extraction (Example.knowing [reply]) s (Example.world JNull))
    as (_ & Hparsed & _ & Hclean & _).
  split; [rewrite Hclean; reflexivity|].
  destruct (Hparsed reply "Hi" [] eq_refl eq_refl eq_refl eq_refl eq_refl)
    as (w' & rows & Hrows & Hrun).
  rewrite Hrun. vm_compute in Hrows. now inversion Hrows.
Defined.

(** ** The theorems at work *)

(** An LLM that answers in prose: the response is the fallback around
    its text, and nothing is stored. *)
Lemma C1_fallback_response_witness :
  let w := Example.world (JObj [("content", JStr "We have rattles.")]) in
  let run :=
    handleQuery (Example.knowing []) (Example.post (JObj [("question", JStr "toys?")]))
      "/chat" w in
  snd run
  = Normal (mkResponse 200
              (JObj [("answer",
                      JStr "I had a little trouble formatting my response perfectly. Here's the main information: We have rattles.");
                     ("relatedProducts", JArr [])]))
  /\ customData (mongoStore (fst run)) = ∅.
Proof.
  intros w run.
  set (asked := askModel (Example.knowing []) Example.config (JStr "default_user")
                  (JStr "toys?") (JStr "") (JArr []) w).
  pose proof (proj1 (C1_fallback_response (Example.knowing [])
                       (Example.post (JObj [("question", JStr "toys?")])) "/chat"
                       w (fst asked) Example.config
                       (JStr "toys?") (JStr "default_user") (JStr "") (JArr [])
                       (JStr "We have rattles.")
                       eq_refl eq_refl eq_refl eq_refl
                       (Unparsable (Example.knowing []) "We have rattles." eq_refl))
                eq_refl) as Hrun.
  subst run. rewrite Hrun. split; reflexivity.
Defined.

(** An LLM that names two SKUs, one of them as a number: both are
    looked up as strings and the catalog rows are in the response. *)
Lemma C6_related_products_witness :
  let reply :=
    JObj [("answer", JStr "Two rattles."); ("relatedProducts", JArr [JStr "R-1"; JNum "42"])] in
  let rt := Example.knowing [reply] in
  let w := Example.world (JObj [("answer", JStr (Example.jsonText reply))]) in
  exists w3 body,
    handleQuery rt (Example.post (JObj [("query", JStr "toys?")])) "/ask" w
    = (w3, Normal (mkResponse 200 body))
    /\ get body "relatedProducts"
       = Normal (JArr (Example.catalog [JStr "R-1"; JStr "42"])).
Proof.
  intros reply rt w.
  set (asked := askModel rt Example.config (JStr "default_user") (JStr "toys?")
                  (JStr "") (JArr []) w).
  destruct (C6_related_products rt (Example.post (JObj [("query", JStr "toys?")])) "/ask"
              w (fst asked) Example.config
              (JStr "toys?") (JStr "default_user") (JStr "") (JArr []) reply
              (Example.jsonText reply) "Two rattles." [JStr "R-1"; JNum "42"]
              eq_refl eq_refl eq_refl eq_refl eq_refl eq_refl eq_refl eq_refl eq_refl)
    as (Hok & _ & _).
  destruct (Hok eq_refl) as (_ & w2 & w3 & rows & body & Hrows & Hrun & Hbody & _).
  exists w3, body. split; [exact Hrun|].
  rewrite Hbody. vm_compute in Hrows. now inversion Hrows.
Defined.

(** * Further properties of the code *)

(** ** Every request is answered *)

Lemma get_present (v : value) (k : string) :
  present v = true -> exists x, get v k = Normal x.
Proof. destruct v; simpl; intros H; try discriminate; eauto. Qed.

Lemma truthy_present (v : value) : truthy v = true -> present v = true.
Proof. now destruct v. Qed.

Lemma present_or (a b : value) : present b = true -> present (or a b) = true.
Proof.
  intros Hb. unfold or. destruct (truthy a) eqn:Ha; [now apply truthy_present | exact Hb].
Qed.

Lemma get_field (v : value) (k : string) :
  present v = true -> get v k = Normal (field v k).
Proof. intros H. unfold field. now destruct (get_present v k H) as [x ->]. Qed.

(** What the log line of the request converts to a string. *)
Lemma readRequest_unprintable (req : Request) :
  present (req_body req) = true ->
  printable (or (field (req_body req) "userId") (JStr "default_user")) = false ->
  readRequest req = Throw notPrimitive.
Proof.
  intros Hb Hlog. unfold readRequest.
  rewrite !(get_field (req_body req)) by exact Hb. cbn [cbind].
  unfold ToString. now rewrite Hlog.
Qed.

(** With a body and a query string, and a [userId] in the body that
    the log line can print, reading the request cannot throw; the first
    truthy of the alternatives is taken. *)
Lemma readRequest_present (req : Request) :
  present (req_body req) = true ->
  present (req_query req) = true ->
  printable (or (field (req_body req) "userId") (JStr "default_user")) = true ->
  let body := req_body req in
  let user := or (field body "user") (JObj []) in
  readRequest req
  = Normal (or (field body "query") (field body "question"),
            or (field user "id")
              (or (field body "userId")
                 (or (field (req_query req) "userId") (JStr "default_user"))),
            or (field user "name") (JStr ""),
            or (field user "children") (JArr [])).
Proof.
  intros Hb Hq Hlog body user. unfold readRequest.
  rewrite !(get_field (req_body req)) by exact Hb. cbn [cbind].
  rewrite (ToString_printable _ Hlog). cbn [cbind]. fold body.
  fold user.
  assert (present user = true) as Hu by now apply present_or.
  rewrite !(get_field user) by exact Hu.
  rewrite (get_field (req_query req)) by exact Hq. cbn [cbind].
  unfold or.
  destruct (truthy (field body "query")); cbn [cbind];
  destruct (truthy (field user "id")); cbn [cbind];
  destruct (truthy (field body "userId")); cbn [cbind]; reflexivity.
Qed.

Section Responses.

Variable rt : Runtime.

(** Whatever the request that has been read, the handler answers. *)
Lemma handleQuery_responds (req : Request) (endpointName : string) (w : World)
    (userQuery userId userName children : value) :
  readRequest req = Normal (userQuery, userId, userName, children) ->
  exists w' response,
    handleQuery rt req endpointName w = (w', Normal response)
    /\ In (status response) [200; 400; 500; 503].
Proof.
  intros Hreq.
  destruct (truthy userQuery) eqn:Hq.
  2:{ unfold handleQuery, bind, eval. rewrite Hreq, Hq. unfold ret.
      eexists _, _. split; [reflexivity|]. simpl. auto. }
  destruct (ragApplication w) eqn:Hrag.
  2:{ unfold handleQuery, bind, eval. rewrite Hreq, Hq. cbn [negb]. cbv beta iota.
      rewrite Hrag. unfold ret. eexists _, _. split; [reflexivity|]. simpl. auto. }
  destruct (promptConfig w) as [config|] eqn:Hcfg.
  2:{ unfold handleQuery, bind, eval. rewrite Hreq, Hq. cbn [negb]. cbv beta iota.
      rewrite Hrag, Hcfg. unfold ret. eexists _, _. split; [reflexivity|]. simpl. auto. }
  destruct (askModel rt config userId userQuery userName children w)
    as [w1 [[cached|out]|e]] eqn:Hask.
  - unfold handleQuery, bind, eval. rewrite Hreq, Hq. cbn [negb]. cbv beta iota.
    rewrite Hrag, Hcfg. unfold try_catch, bind. rewrite Hask. unfold ret.
    eexists _, _. split; [reflexivity|]. simpl. auto.
  - destruct (handleQuery_after_model rt req endpointName w w1 config userQuery userId
                userName children out Hreq Hq Hrag Hcfg Hask) as (w2 & w3 & body & _ & _ & ->).
    eexists _, _. split; [reflexivity|]. simpl. auto.
  - unfold handleQuery, bind, eval. rewrite Hreq, Hq. cbn [negb]. cbv beta iota.
    rewrite Hrag, Hcfg. unfold try_catch, bind. rewrite Hask. unfold ret.
    eexists _, _. split; [reflexivity|]. simpl. auto.
Qed.

(** X1: for a request that has a body and a query string, and whose
    [userId] in the body can be converted to a string, [handleQuery]
    never throws: it ends with a response, and the status of the
    response is 200, 400, 500 or 503.  When that [userId] cannot be
    converted, the log line at the top of the handler throws, outside
    the [try] block: the handler throws and nothing is answered. *)
Theorem handleQuery_answers (req : Request) (endpointName : string) (w : World) :
  present (req_body req) = true ->
  present (req_query req) = true ->
  let logged := or (field (req_body req) "userId") (JStr "default_user") in
  (printable logged = true ->
   exists w' response,
     handleQuery rt req endpointName w = (w', Normal response)
     /\ In (status response) [200; 400; 500; 503])
  /\ (printable logged = false ->
      handleQuery rt req endpointName w
      = (w, Throw (TypeError "Cannot convert object to primitive value"))).
Proof.
  intros Hb Hq logged. split; intros Hlog.
  - pose proof (readRequest_present req Hb Hq Hlog) as Hreq. cbv zeta in Hreq.
    exact (handleQuery_responds req endpointName w _ _ _ _ Hreq).
  - unfold handleQuery, bind, eval. now rewrite (readRequest_unprintable req Hb Hlog).
Qed.

(** X2: a request whose body has neither a truthy [query] nor a truthy
    [question], and a [userId] that the log line can print, is answered
    with status 400 and "Query is required.", whatever the state of the
    services; such a request with a query is answered with status 503
    and a message naming the endpoint when the RAG application or the
    prompt configuration is missing.  In both cases nothing outside the
    handler is touched. *)
Theorem handleQuery_rejects (req : Request) (endpointName : string)
    (w : World) :
  present (req_body req) = true ->
  present (req_query req) = true ->
  printable (or (field (req_body req) "userId") (JStr "default_user")) = true ->
  let userQuery := or (field (req_body req) "query") (field (req_body req) "question") in
  (truthy userQuery = false ->
   handleQuery rt req endpointName w
   = (w, Normal (mkResponse 400
                   (JObj [("answer", JStr "Query is required.");
                          ("relatedProducts", JArr [])]))))
  /\ (truthy userQuery = true ->
      ragApplication w = false \/ promptConfig w = None ->
      handleQuery rt req endpointName w
      = (w, Normal (mkResponse 503
                      (JObj [("answer",
                              JStr ("RAG system or prompt configuration not initialized yet for "
                                    +:+ endpointName));
                             ("relatedProducts", JArr [])])))).
Proof.
  intros Hb Hq Hlog userQuery.
  unfold handleQuery, bind, eval. rewrite (readRequest_present req Hb Hq Hlog). cbv zeta.
  fold userQuery. split; intros Hu.
  - now rewrite Hu.
  - rewrite Hu. cbn [negb]. intros [H|H]; rewrite H; [reflexivity|].
    now destruct (ragApplication w).
Qed.

Lemma servicesKept_saveConversationAndCache (config : PromptConfig)
    (userId userQuery metadata botResponseJson : value) :
  frame servicesKept
    (saveConversationAndCache config userId userQuery metadata botResponseJson).
Proof.
  unfold saveConversationAndCache.
  destruct (isValidResponse botResponseJson) eqn:Hvalid;
    [|apply (frame_ret _ servicesKept_closed)].
  apply isValidResponse_answer in Hvalid as (answer & Hanswer & _).
  rewrite Hanswer.
  apply (frame_bind_eval servicesKept).
  apply (frame_bind _ servicesKept_closed).
  { apply (frame_addConversationEntries _ servicesKept_closed); intros t;
      apply servicesKept_addEntry. }
  intros ?. apply (frame_bind _ servicesKept_closed).
  { apply (frame_setCachedResult _ servicesKept_closed). intros key t _.
    apply servicesKept_loaderCustomSet. }
  intros ?. apply (frame_bind _ servicesKept_closed);
    [|intros; apply (frame_ret _ servicesKept_closed)].
  apply (frame_summarizeAndStoreMemory _ servicesKept_closed). intros text t _ _.
  apply servicesKept_loaderCustomSet.
Qed.

Lemma servicesKept_summarize (userId : value) (promptTemplate : string) :
  frame servicesKept (MemoryService.summarizeAndStoreMemory userId promptTemplate).
Proof.
  apply (frame_summarizeAndStoreMemory _ servicesKept_closed). intros text t _ _.
  apply servicesKept_loaderCustomSet.
Qed.

(** X3: once the request is read and the services are up, the status is
    500 exactly when one of the steps 1 to 5 (cache lookup, memory,
    prompt, history, LLM query) throws: the response then carries the
    message of the error under [details], no document has been written
    and no turn appended.  When these steps end normally the status is
    200: nothing that happens while parsing, looking products up,
    saving, caching or summarizing turns into an error response. *)
Theorem handleQuery_status (req : Request) (endpointName : string) (w : World)
    (config : PromptConfig) (userQuery userId userName children : value) :
  readRequest req = Normal (userQuery, userId, userName, children) ->
  truthy userQuery = true ->
  ragApplication w = true ->
  promptConfig w = Some config ->
  match askModel rt config userId userQuery userName children w with
  | (w1, Throw error) =>
      handleQuery rt req endpointName w
      = (w1, Normal (mkResponse 500
                       (JObj [("answer", JStr "Error processing your question");
                              ("relatedProducts", JArr []);
                              ("details", JStr (message error))])))
      /\ customData (mongoStore w1) = customData (mongoStore w)
      /\ forall id,
           historyOf (conversations (mongoStore w1) !! id)
           = historyOf (conversations (mongoStore w) !! id)
  | (w1, Normal _) =>
      exists w' body,
        handleQuery rt req endpointName w = (w', Normal (mkResponse 200 body))
  end.
Proof.
  intros Hreq Hq Hrag Hcfg.
  pose proof (frame_askModel historyKept historyKept_closed rt config userId userQuery
                userName children (historyKept_addConversation (toStr userId)) w) as Hkept.
  unfold handleQuery, bind, eval. rewrite Hreq, Hq. cbn [negb]. cbv beta iota.
  rewrite Hrag, Hcfg. unfold try_catch.
  destruct (askModel rt config userId userQuery userName children w)
    as [w1 [[cached|out]|error]] eqn:Hask.
  - unfold ret. eauto.
  - fold (userMetadata userName children).
    destruct (parseAndProcess_returns rt out w1) as (w2 & body & Hparse).
    pose proof (handleQuery_after_model rt req endpointName w w1 config userQuery userId
                  userName children out Hreq Hq Hrag Hcfg Hask) as (w2' & w3 & body' & H1 & H2 & _).
    rewrite Hparse in H1. injection H1 as <- <-. rewrite Hparse.
    unfold bind. rewrite H2. unfold ret. eauto.
  - split; [reflexivity | exact Hkept].
Qed.

(** X4: when the RAG application and the prompt configuration are
    there, [/ask] and [/chat] give the same response and leave the same
    world: the endpoint name shows only in the 503 message. *)
Theorem ask_chat_agree (req : Request) (w : World) :
  ragApplication w = true ->
  promptConfig w <> None ->
  Routes.ask rt req w = Routes.chat rt req w.
Proof.
  intros Hrag Hcfg. unfold Routes.ask, Routes.chat, handleQuery, bind, eval.
  destruct (readRequest req) as [[[[userQuery userId] userName] children]|e]; [|reflexivity].
  destruct (negb (truthy userQuery)); [reflexivity|].
  rewrite Hrag. now destruct (promptConfig w).
Qed.

End Responses.

(** X1 at work. *)
Lemma handleQuery_answers_witness :
  exists w' response,
    handleQuery (Example.knowing []) (Example.post (JObj [("query", JStr "toys?")])) "/ask"
      (Example.world JNull) = (w', Normal response)
    /\ In (status response) [200; 400; 500; 503].
Proof.
  exact (proj1 (handleQuery_answers (Example.knowing [])
                  (Example.post (JObj [("query", JStr "toys?")])) "/ask" (Example.world JNull)
                  eq_refl eq_refl) eq_refl).
Defined.

(** X2 at work: a body with a user id only. *)
Lemma handleQuery_rejects_witness :
  handleQuery (Example.knowing []) (Example.post (JObj [("userId", JStr "u1")])) "/chat"
    (Example.world JNull)
  = (Example.world JNull,
     Normal (mkResponse 400
               (JObj [("answer", JStr "Query is required."); ("relatedProducts", JArr [])]))).
Proof.
  exact (proj1 (handleQuery_rejects (Example.knowing [])
                  (Example.post (JObj [("userId", JStr "u1")])) "/chat" (Example.world JNull)
                  eq_refl eq_refl eq_refl) eq_refl).
Defined.

(** X3 at work: the LLM call times out (the five store calls before it
    go well, the sixth external call throws). *)
Lemma handleQuery_status_witness :
  let w :=
    with_faults [None; None; None; None; None;
                 Some (Error "Request timed out after 15 seconds")]
      (Example.world JNull) in
  let run :=
    handleQuery (Example.knowing []) (Example.post (JObj [("query", JStr "toys?")])) "/ask" w in
  snd run
  = Normal (mkResponse 500
              (JObj [("answer", JStr "Error processing your question");
                     ("relatedProducts", JArr []);
                     ("details", JStr "Request timed out after 15 seconds")]))
  /\ customData (mongoStore (fst run)) = ∅.
Proof.
  intros w run.
  pose proof (handleQuery_status (Example.knowing [])
                (Example.post (JObj [("query", JStr "toys?")])) "/ask" w Example.config
                (JStr "toys?") (JStr "default_user") (JStr "") (JArr [])
                eq_refl eq_refl eq_refl eq_refl) as H.
  destruct (askModel (Example.knowing []) Example.config (JStr "default_user")
              (JStr "toys?") (JStr "") (JArr []) w) as [w1 [asked|error]] eqn:E.
  - vm_compute in E. discriminate E.
  - destruct H as (Hrun & Hdata & _). subst run. rewrite Hrun. cbn [fst snd].
    rewrite Hdata. vm_compute in E. injection E as _ <-. split; reflexivity.
Defined.

(** X4 at work. *)
Lemma ask_chat_agree_witness :
  Routes.ask (Example.knowing []) (Example.post (JObj [("query", JStr "toys?")]))
    (Example.world JNull)
  = Routes.chat (Example.knowing []) (Example.post (JObj [("query", JStr "toys?")]))
      (Example.world JNull).
Proof.
  apply ask_chat_agree; [reflexivity | discriminate].
Defined.

(** ** The shape of what the parsing step gives *)

Lemma expectedShape_fallback (out : value) : expectedShape (fallbackResponse out) = true.
Proof. reflexivity. Qed.

(** X5: the parsing step of [handleQuery] never throws and never
    touches the store, and what it gives always has a string [answer]
    and an array [relatedProducts]: it is either the fallback object or
    the parsed object, which had that shape, with its [relatedProducts]
    replaced by catalog rows and its [answer] kept. *)
Theorem parseAndProcess_shape (rt : Runtime) (out : value) (w : World) :
  exists w' body,
    parseAndProcess rt out w = (w', Normal body)
    /\ expectedShape body = true
    /\ mongoStore w' = mongoStore w
    /\ (body = fallbackResponse out
        \/ exists s parsed rows,
             out = JStr s
             /\ JSON_parse rt (cleanOutput s) = Some parsed
             /\ expectedShape parsed = true
             /\ body = setProp parsed "relatedProducts" (JArr rows)
             /\ get body "answer" = get parsed "answer").
Proof.
  pose proof (frame_parseAndProcess sameStore sameStore_closed rt out w) as Hsame.
  destruct out as [| |b|r|s|items|fields];
    try (rewrite parseAndProcess_malformed in * by (now apply NotAString);
         eexists _, _; split; [reflexivity|]; split; [reflexivity|];
         split; [exact Hsame | now left]).
  destruct (String.eqb (Str.trim s) "") eqn:Hs.
  { apply String.eqb_eq in Hs.
    rewrite parseAndProcess_malformed in * by (now apply Blank).
    eexists _, _; split; [reflexivity|]; split; [reflexivity|];
      split; [exact Hsame | now left]. }
  destruct (JSON_parse rt (cleanOutput s)) as [parsed|] eqn:Hp.
  2:{ rewrite parseAndProcess_malformed in * by (now apply Unparsable).
      eexists _, _; split; [reflexivity|]; split; [reflexivity|];
      split; [exact Hsame | now left]. }
  destruct (expectedShape parsed) eqn:Hshape.
  2:{ rewrite parseAndProcess_malformed in * by (now apply (WrongShape rt s parsed)).
      eexists _, _; split; [reflexivity|]; split; [reflexivity|];
      split; [exact Hsame | now left]. }
  assert (exists answer skus,
            get parsed "answer" = Normal (JStr answer)
            /\ get parsed "relatedProducts" = Normal (JArr skus)) as (answer & skus & Ha & Hr).
  { unfold expectedShape in Hshape.
    destruct (get parsed "answer") as [[| | | |answer| |]|]; try discriminate.
    destruct (get parsed "relatedProducts") as [[| | | | |skus|]|]; try discriminate.
    eauto. }
  destruct (forallb printable skus) eqn:Hskus.
  2:{ rewrite (parseAndProcess_unprintable rt s answer parsed skus w Hp Ha Hr Hskus) in *.
      eexists _, _; split; [reflexivity|]; split; [reflexivity|];
      split; [exact Hsame | now left]. }
  destruct (parseAndProcess_expected rt s answer parsed skus w Hs Hp Ha Hr Hskus)
    as (w' & rows & _ & Hrun).
  rewrite Hrun in *. cbn [fst] in Hsame.
  destruct (answer_is_of_object _ _ Ha) as [fields ->].
  assert (get (setProp (JObj fields) "relatedProducts" (JArr rows)) "answer"
          = Normal (JStr answer)) as Ha'.
  { unfold setProp, get in *. now rewrite lookupField_setField_other. }
  exists w', (setProp (JObj fields) "relatedProducts" (JArr rows)).
  split; [reflexivity|]. split; [|split; [exact Hsame|]].
  - unfold expectedShape. rewrite Ha'. unfold setProp, get.
    now rewrite lookupField_setField.
  - right. exists s, (JObj fields), rows. repeat split; try assumption. congruence.
Qed.

(** ** The cache, written and read back *)

Lemma setCachedResult_true (userId query metadata data : value) (w w' : World) :
  CacheService.setCachedResult userId query metadata data w = (w', Normal true) ->
  cacheService_mongoStore w' = true
  /\ printable userId = true
  /\ printable query = true
  /\ exists t,
       customData (mongoStore w') !! cacheKeyOf userId query metadata
       = Some (CacheDoc data t).
Proof.
  unfold CacheService.setCachedResult.
  destruct (cacheService_mongoStore w) eqn:Hcs; cbn [negb]; [|discriminate].
  destruct (has_loaderCustomSet (mongoStore w)); cbn [negb]; [|discriminate].
  unfold bind at 1, eval at 1.
  destruct (CacheService.generateCacheKey userId query metadata) as [key|e] eqn:Hkey;
    [|discriminate].
  apply generateCacheKey_inv in Hkey as (Hu & Hq & ->).
  unfold try_catch, bind, newDate, Store.loaderCustomSet, external, ret.
  destruct w as [ra pc cs ms [cd cv f1 f2 f3] d l ps fs t]. world_simpl.
  destruct fs as [|[e|] rest]; intros [= <-]; world_simpl;
    (split; [assumption|]); (split; [assumption|]); (split; [assumption|]);
    exists t; apply lookup_insert_eq.
Qed.

Lemma getCachedResult_hit (userId metadata data : value) (q : string) (t : nat) (w : World) :
  cacheService_mongoStore w = true ->
  nextCallFails w = false ->
  printable userId = true ->
  customData (mongoStore w) !! cacheKeyOf userId (JStr q) metadata
  = Some (CacheDoc data t) ->
  truthy data = true ->
  exists w',
    CacheService.getCachedResult userId (JStr q) metadata w = (w', Normal data)
    /\ mongoStore w' = mongoStore w
    /\ prompts w' = prompts w.
Proof.
  intros Hcs Hok Hu Hdoc Hdata.
  unfold CacheService.getCachedResult. rewrite Hcs. cbn [negb].
  unfold bind at 1, eval at 1.
  rewrite (generateCacheKey_Normal userId (JStr q) metadata Hu eq_refl).
  unfold bind, try_catch, Store.loaderCustomGet, external, ret, eval, method.
  unfold nextCallFails in Hok.
  destruct (faults w) as [|[e|] rest]; [|discriminate|]; simpl;
    rewrite Hdoc; simpl; rewrite Hdata; eauto.
Qed.

(** X6: what [setCachedResult] has stored (it answered [true]),
    [getCachedResult] gives back for the same user, query and metadata,
    provided the query is a string, the data is truthy and the store's
    [get] does not throw; the lookup changes neither the store nor the
    prompts sent. *)
Theorem cache_round_trip (userId metadata data : value) (q : string) (w w' : World) :
  CacheService.setCachedResult userId (JStr q) metadata data w = (w', Normal true) ->
  truthy data = true ->
  nextCallFails w' = false ->
  exists w'',
    CacheService.getCachedResult userId (JStr q) metadata w' = (w'', Normal data)
    /\ mongoStore w'' = mongoStore w'
    /\ prompts w'' = prompts w'.
Proof.
  intros Hset Hdata Hok.
  apply setCachedResult_true in Hset as (Hcs & Hu & _ & t & Hdoc).
  now apply (getCachedResult_hit userId metadata data q t).
Qed.

(** The theorem at work. *)
Lemma cache_round_trip_witness :
  let data := JObj [("answer", JStr "Hi"); ("relatedProducts", JArr [])] in
  let stored :=
    CacheService.setCachedResult (JStr "u1") (JStr "toys?") (JObj []) data
      (Example.world JNull) in
  exists w'',
    CacheService.getCachedResult (JStr "u1") (JStr "toys?") (JObj []) (fst stored)
    = (w'', Normal data)
    /\ mongoStore w'' = mongoStore (fst stored)
    /\ prompts w'' = prompts (fst stored).
Proof.
  intros data stored.
  exact (cache_round_trip (JStr "u1") (JObj []) data "toys?" (Example.world JNull)
           (fst stored) eq_refl eq_refl eq_refl).
Defined.

Lemma toStr_JStr (s : string) : toStr (JStr s) = s.
Proof. reflexivity. Qed.

(** The user id and the query are joined by a colon without escaping,
    so a colon can move from one to the other. *)
Lemma generateCacheKey_colon (u x q : string) (metadata : value) :
  cacheKeyOf (JStr (u +:+ ":" +:+ x)) (JStr q) metadata
  = cacheKeyOf (JStr u) (JStr (x +:+ ":" +:+ q)) metadata.
Proof.
  unfold cacheKeyOf. rewrite !toStr_JStr.
  now rewrite !append_assoc.
Qed.

(** X7: cache keys do not keep users apart.  What was cached for the
    user [u:x] and the query [q] is given to the user [u] who asks
    [x:q] with the same metadata. *)
Theorem cache_shared_across_users (u x q : string) (metadata data : value) (w w' : World) :
  CacheService.setCachedResult (JStr (u +:+ ":" +:+ x)) (JStr q) metadata data w
  = (w', Normal true) ->
  truthy data = true ->
  nextCallFails w' = false ->
  exists w'',
    CacheService.getCachedResult (JStr u) (JStr (x +:+ ":" +:+ q)) metadata w'
    = (w'', Normal data).
Proof.
  intros Hset Hdata Hok.
  apply setCachedResult_true in Hset as (Hcs & _ & _ & t & Hdoc).
  rewrite generateCacheKey_colon in Hdoc.
  destruct (getCachedResult_hit (JStr u) metadata data (x +:+ ":" +:+ q) t w' Hcs Hok
              eq_refl Hdoc Hdata)
    as (w'' & H & _).
  eauto.
Qed.

(** The theorem at work: what was cached for the user [u1:a] and the
    query [b] is served to the user [u1] who asks [a:b]. *)
Lemma cache_shared_across_users_witness :
  let data := JObj [("answer", JStr "Hi"); ("relatedProducts", JArr [])] in
  let stored :=
    CacheService.setCachedResult (JStr "u1:a") (JStr "b") (JObj []) data
      (Example.world JNull) in
  exists w'',
    CacheService.getCachedResult (JStr "u1") (JStr "a:b") (JObj []) (fst stored)
    = (w'', Normal data).
Proof.
  intros data stored.
  exact (cache_shared_across_users "u1" "a" "b" (JObj []) data (Example.world JNull)
           (fst stored) eq_refl eq_refl eq_refl).
Defined.

Section Repeat.

Variable rt : Runtime.

(** X8: a request whose query is a string, answered with a valid
    response while the store takes the writes, is answered from the
    cache when it comes again: the second response is the first one,
    no prompt is sent and the store is left as it is. *)
Theorem handleQuery_repeat (req : Request) (endpointName : string)
    (w w1 w2 : World) (config : PromptConfig) (q : string)
    (userId userName children out botResponseJson : value) (es : list Entry) :
  readRequest req = Normal (JStr q, userId, userName, children) ->
  q <> "" ->
  ragApplication w = true ->
  promptConfig w = Some config ->
  askModel rt config userId (JStr q) userName children w = (w1, Normal (ModelSaid out)) ->
  parseAndProcess rt out w1 = (w2, Normal botResponseJson) ->
  isValidResponse botResponseJson = true ->
  memoryService_mongoStore w2 = true ->
  cacheService_mongoStore w2 = true ->
  has_addEntryToConversation (mongoStore w2) = true ->
  has_loaderCustomSet (mongoStore w2) = true ->
  faults w2 = [] ->
  conversations (mongoStore w2) !! toStr userId = Some es ->
  exists w3 w4,
    handleQuery rt req endpointName w = (w3, Normal (mkResponse 200 botResponseJson))
    /\ handleQuery rt req endpointName w3 = (w4, Normal (mkResponse 200 botResponseJson))
    /\ mongoStore w4 = mongoStore w3
    /\ prompts w4 = prompts w3.
Proof.
  intros Hreq Hq Hrag Hcfg Hask Hparse Hvalid Hms Hcs Hadd Hset Hf Hes.
  assert (truthy (JStr q) = true) as Htq.
  { simpl. destruct (String.eqb_spec q ""); [contradiction | reflexivity]. }
  pose proof (handleQuery_model_said rt req endpointName w w1 config
                (JStr q) userId userName children out Hreq Htq Hrag Hcfg Hask) as Hrun.
  rewrite Hparse in Hrun.
  destruct (isValidResponse_answer _ Hvalid) as (answer & Hanswer & _).
  (* the services are as they were *)
  pose proof (frame_askModel servicesKept servicesKept_closed rt config userId (JStr q)
                userName children (servicesKept_addConversation (toStr userId)) w) as K1.
  pose proof (frame_parseAndProcess servicesKept servicesKept_closed rt out w1) as K2.
  rewrite Hask in K1. rewrite Hparse in K2. cbn [fst] in K1, K2.
  destruct K1 as (R1 & C1 & S1 & _), K2 as (R2 & C2 & S2 & _).
  destruct (askModel_printable rt config userId (JStr q) userName children w w1 _ Hask)
    as [Hu _]; [congruence|].
  destruct (saveConversationAndCache_valid config userId (JStr q)
              (userMetadata userName children) botResponseJson answer w2 es
              Hvalid Hanswer Hms Hcs Hadd Hset Hf Hes Hu eq_refl) as (w3 & Hsave & _ & Hdata).
  rewrite Hsave in Hrun.
  pose proof (servicesKept_saveConversationAndCache config userId (JStr q)
                (userMetadata userName children) botResponseJson w2) as K3.
  rewrite Hsave in K3. cbn [fst] in K3.
  destruct K3 as (R3 & C3 & S3 & _ & _ & _ & _ & F3).
  assert (truthy botResponseJson = true) as Hbody.
  { unfold isValidResponse in Hvalid. now apply andb_prop in Hvalid as [H _]. }
  destruct (handleQuery_cache_hit rt req endpointName w3 config q userId userName children
              (CacheDoc botResponseJson (S (S (now w2)))))
    as (w4 & Hrun2 & Hst & Hpr & _); try assumption; try congruence.
  { intros e rest. rewrite (F3 Hf). discriminate. }
  exists w3, w4. auto.
Qed.

End Repeat.

(** The theorem at work. *)
Lemma handleQuery_repeat_witness :
  let reply := JObj [("answer", JStr "Try the rattle."); ("relatedProducts", JArr [])] in
  let rt := Example.knowing [reply] in
  let w := Example.world (JObj [("answer", JStr (Example.jsonText reply))]) in
  let req := Example.post (JObj [("query", JStr "toys?")]) in
  exists w3 w4,
    handleQuery rt req "/ask" w = (w3, Normal (mkResponse 200 reply))
    /\ handleQuery rt req "/ask" w3 = (w4, Normal (mkResponse 200 reply))
    /\ mongoStore w4 = mongoStore w3
    /\ prompts w4 = prompts w3.
Proof.
  intros reply rt w req.
  set (asked := askModel rt Example.config (JStr "default_user") (JStr "toys?")
                  (JStr "") (JArr []) w).
  set (parsed := parseAndProcess rt (JStr (Example.jsonText reply)) (fst asked)).
  apply (handleQuery_repeat rt req "/ask" w (fst asked) (fst parsed) Example.config
           "toys?" (JStr "default_user") (JStr "") (JArr [])
           (JStr (Example.jsonText reply)) reply []);
    try reflexivity; try discriminate; vm_compute; reflexivity.
Defined.

(** ** The long-term memory, written and read back *)

(** What is stored for a user as the summary: the truthy [text] of the
    document under the memory key, the empty string when there is
    none. *)
Lemma getConversationMemory_found (userId : value) (w : World) :
  memoryService_mongoStore w = true ->
  printable userId = true ->
  exists w',
    MemoryService.getConversationMemory userId w
    = (w', Normal (if nextCallFails w then JStr ""
                   else match customData (mongoStore w) !! MemoryService.memoryKey userId with
                        | Some doc => if truthy (doc_text doc) then doc_text doc else JStr ""
                        | None => JStr ""
                        end))
    /\ mongoStore w' = mongoStore w
    /\ prompts w' = prompts w.
Proof.
  intros Hms Hu. unfold MemoryService.getConversationMemory. rewrite Hms. cbn [negb].
  unfold bind at 1, eval at 1. rewrite (ToString_printable _ Hu).
  fold (MemoryService.memoryKey userId).
  unfold bind, try_catch, Store.loaderCustomGet, external, ret, nextCallFails.
  destruct (faults w) as [|[e|] rest]; simpl.
  - destruct (customData (mongoStore w) !! _) as [doc|]; [|now exists w].
    destruct (truthy (doc_text doc)); now exists w.
  - now eexists.
  - destruct (customData (mongoStore w) !! _) as [doc|]; [|now eexists].
    destruct (truthy (doc_text doc)); now eexists.
Qed.

(** X9: what [getConversationMemory] gives, case by case.  Without a
    store in the service it gives the empty string.  With a store and a
    user id that cannot be converted to a string it throws: the key is
    built before the [try] block.  Otherwise it never throws: it gives
    the [text] of the document under [memory:<userId>:last_summary]
    when the store's [get] does not throw and that text is truthy, and
    the empty string when the [get] throws, the document is missing or
    its text is falsy; the store and the prompts sent are as before. *)
Theorem getConversationMemory_cases (userId : value) (w : World) :
  (memoryService_mongoStore w = false ->
   MemoryService.getConversationMemory userId w = (w, Normal (JStr "")))
  /\ (memoryService_mongoStore w = true ->
      printable userId = false ->
      MemoryService.getConversationMemory userId w
      = (w, Throw (TypeError "Cannot convert object to primitive value")))
  /\ (memoryService_mongoStore w = true ->
      printable userId = true ->
      exists w',
        MemoryService.getConversationMemory userId w
        = (w', Normal (if nextCallFails w then JStr ""
                       else match customData (mongoStore w)
                                    !! MemoryService.memoryKey userId with
                            | Some doc =>
                                if truthy (doc_text doc) then doc_text doc else JStr ""
                            | None => JStr ""
                            end))
        /\ mongoStore w' = mongoStore w
        /\ prompts w' = prompts w).
Proof.
  split; [|split].
  - intros Hms. unfold MemoryService.getConversationMemory. now rewrite Hms.
  - intros Hms Hu. unfold MemoryService.getConversationMemory. rewrite Hms. cbn [negb].
    unfold bind, eval, ToString. now rewrite Hu.
  - apply getConversationMemory_found.
Qed.

(** X9 at work: a stored summary, read while the store answers and
    while it does not. *)
Lemma getConversationMemory_cases_witness :
  let w :=
    with_store (set_customData {[ "memory:u1:last_summary"
                                  := SummaryDoc "Likes rattles." "conversation_summary" 3 ]})
      (Example.world JNull) in
  snd (MemoryService.getConversationMemory (JStr "u1") w) = Normal (JStr "Likes rattles.")
  /\ snd (MemoryService.getConversationMemory (JStr "u1")
            (with_faults [Some (Error "connection lost")] w)) = Normal (JStr "").
Proof.
  intros w. split.
  - destruct (getConversationMemory_cases (JStr "u1") w) as (_ & _ & H).
    destruct (H eq_refl eq_refl) as (w' & -> & _). reflexivity.
  - destruct (getConversationMemory_cases (JStr "u1")
                (with_faults [Some (Error "connection lost")] w)) as (_ & _ & H).
    destruct (H eq_refl eq_refl) as (w' & -> & _). reflexivity.
Defined.

Lemma summarize_true (userId : value) (promptTemplate : string) (w w' : World) :
  MemoryService.summarizeAndStoreMemory userId promptTemplate w = (w', Normal true) ->
  memoryService_mongoStore w' = true
  /\ exists text t,
       customData (mongoStore w') !! MemoryService.memoryKey userId
       = Some (SummaryDoc text "conversation_summary" t)
       /\ text <> ""
       /\ Str.startsWith "Error" text = false
       /\ Str.startsWith "Could not summarize" text = false.
Proof.
  intros Hrun.
  pose proof (servicesKept_summarize userId promptTemplate w) as K.
  rewrite Hrun in K. destruct K as (_ & _ & _ & Kms & _). cbn [fst] in Kms.
  destruct (memoryService_mongoStore w) eqn:Hms;
    [|rewrite summarize_uninitialized in Hrun by assumption; discriminate].
  split; [congruence|].
  destruct (Store.getConversation (toStr userId) w) as [w1 [conv|e]] eqn:E.
  2:{ rewrite (summarize_fetch_throws _ _ _ _ _ Hms E) in Hrun. discriminate. }
  destruct (due (historyOf conv)) eqn:Hdue.
  2:{ rewrite (summarize_not_due _ _ _ _ _ Hms E Hdue) in Hrun. discriminate. }
  destruct (RagService.summarizeConversation userId
              (Str.join Str.nl (List.map renderTurn (historyOf conv)))
              promptTemplate w1) as [w2 outcome] eqn:Es.
  pose proof (summarize_due _ _ _ _ _ _ _ Hms E Hdue Es) as H.
  destruct (storable outcome) as [text|] eqn:Hst.
  - destruct (has_loaderCustomSet (mongoStore w) && negb (nextCallFails w2)).
    + destruct H as (w3 & H & Hdata & _). rewrite H in Hrun. injection Hrun as <-.
      apply storable_Some in Hst as (_ & H0 & H1 & H2).
      exists text, (now w2). rewrite Hdata, lookup_insert_eq.
      repeat split; try assumption. intros ->. discriminate.
    + destruct H as (w3 & H & _). rewrite H in Hrun. discriminate.
  - destruct H as (w3 & H & _). rewrite H in Hrun. discriminate.
Qed.

(** The cache lookup leaves the store, the services and a world
    without faults as they are. *)
Lemma getCachedResult_keeps (userId query metadata : value) (w w1 : World)
    (outcome : completion value) :
  CacheService.getCachedResult userId query metadata w = (w1, outcome) ->
  mongoStore w1 = mongoStore w /\ servicesKept w w1.
Proof.
  intros H.
  pose proof (frame_getCachedResult _ sameStore_closed userId query metadata w) as H1.
  pose proof (frame_getCachedResult _ servicesKept_closed userId query metadata w) as H2.
  rewrite H in H1, H2. auto.
Qed.


(** X10: a summary that [summarizeAndStoreMemory] has stored (it
    answered [true]) for a user whose id has a text is a string that is
    not empty and starts neither with [Error] nor with
    [Could not summarize]; [getConversationMemory] gives it for the same
    user afterwards, when the store's [get] does not throw; and unless
    it is blank, the prompt that the next request of that user sends to
    the LLM, with a store that answers, has it in the block "Relevant
    past information", between the profile and the history. *)
Theorem summary_round_trip (userId : value) (promptTemplate : string) (w w' : World) :
  MemoryService.summarizeAndStoreMemory userId promptTemplate w = (w', Normal true) ->
  printable userId = true ->
  exists text,
    text <> ""
    /\ Str.startsWith "Error" text = false
    /\ Str.startsWith "Could not summarize" text = false
    /\ (nextCallFails w' = false ->
        exists w'',
          MemoryService.getConversationMemory userId w' = (w'', Normal (JStr text))
          /\ mongoStore w'' = mongoStore w')
    /\ (forall rt req endpointName config userQuery userName children w'' response,
          faults w' = [] ->
          Str.trim text <> "" ->
          readRequest req = Normal (userQuery, userId, userName, children) ->
          promptConfig w' = Some config ->
          handleQuery rt req endpointName w' = (w'', response) ->
          prompts w'' <> prompts w' ->
          exists profile history later,
            profileSection rt userName children = Normal profile
            /\ (exists entries, historySection entries = Normal history)
            /\ prompts w''
               = prompts w'
                 ++ promptText config profile
                      ("Relevant past information for " +:+ toStr userId +:+ ":" +:+ Str.nl
                       +:+ text +:+ Str.nl +:+ Str.nl)
                      history (toStr userQuery)
                    :: later).
Proof.
  intros Hrun Hu.
  apply summarize_true in Hrun as (Hms & text & t & Hdoc & Htext & H1 & H2).
  assert (String.eqb text "" = false) as Hne by now apply String.eqb_neq.
  exists text. repeat split; try assumption.
  - intros Hok.
    destruct (getConversationMemory_found userId w' Hms Hu) as (w'' & Hget & Hst & _).
    rewrite Hok, Hdoc in Hget. cbn [doc_text truthy] in Hget. rewrite Hne in Hget.
    exists w''. now split.
  - intros rt req endpointName config userQuery userName children w'' response
      Hf Hblank Hreq Hcfg Hhandle Hsent.
    destruct (handleQuery_sends rt req endpointName w' w'' config response userQuery userId
                userName children Hreq Hcfg Hhandle Hsent)
      as (w1 & w2 & w3 & cached & ltm & conv & profile & memory & history & later
          & G1 & _ & G2 & Gp & G3 & _ & Gh & _ & _ & G4).
    apply getCachedResult_keeps in G1 as (S1 & _ & _ & _ & M1 & _ & _ & _ & F1).
    destruct (getConversationMemory_found userId w1) as (w2' & Hget & _);
      [congruence | exact Hu |].
    unfold nextCallFails in Hget. rewrite (F1 Hf), S1, Hdoc in Hget.
    cbn [doc_text truthy] in Hget. rewrite Hne in Hget. cbn [negb] in Hget.
    rewrite Hget in G2. injection G2 as _ <-.
    unfold memorySection, method in G3. cbn [truthy] in G3. rewrite Hne in G3.
    cbn [negb cbind] in G3.
    apply String.eqb_neq in Hblank. rewrite Hblank in G3. cbn [negb] in G3.
    rewrite (ToString_printable _ Hu) in G3. cbn [cbind] in G3. injection G3 as <-.
    exists profile, history, later. split; [exact Gp|]. split; [eauto | exact G4].
Qed.

(** The theorem at work: the summary stored after ten turns, and the
    prompt of the next question. *)
Lemma summary_round_trip_witness :
  let w := Example.afterTenTurns (JObj [("answer", JStr "Likes rattles.")]) in
  let stored :=
    MemoryService.summarizeAndStoreMemory (JStr "u1")
      (summarizationInstruction Example.config) w in
  let req := Example.post (JObj [("query", JStr "toys?"); ("userId", JStr "u1")]) in
  let run := handleQuery (Example.knowing []) req "/ask" (fst stored) in
  exists text profile history later,
    text <> ""
    /\ prompts (fst run)
       = prompts (fst stored)
         ++ promptText Example.config profile
              ("Relevant past information for u1:" +:+ Str.nl +:+ text +:+ Str.nl +:+ Str.nl)
              history "toys?"
            :: later.
Proof.
  intros w stored req run.
  destruct (summary_round_trip (JStr "u1") (summarizationInstruction Example.config)
              w (fst stored) eq_refl eq_refl) as (text & Hne & _ & _ & Hget & Hnext).
  destruct (Hget eq_refl) as (w'' & Hread & _).
  vm_compute in Hread. injection Hread as _ <-.
  assert (prompts (fst run) <> prompts (fst stored)) as Hsent by (vm_compute; discriminate).
  destruct (Hnext (Example.knowing []) req "/ask" Example.config (JStr "toys?") (JStr "")
              (JArr []) (fst run) (snd run) eq_refl)
    as (profile & history & later & _ & _ & H);
    [vm_compute; discriminate | reflexivity | reflexivity | apply surjective_pairing
    | exact Hsent |].
  exists "Likes rattles.", profile, history, later. split; [exact Hne | exact H].
Defined.

(** ** The conversation, fetched and extended *)





(** ** The summarization prompt *)








(** ** What a request may change *)

Lemma touchesOnly_closed (id : string) (keys : list string) : closed (touchesOnly id keys).
Proof.
  split; unfold touchesOnly; try (intros; split; reflexivity).
  intros a b c [H1 H2] [H3 H4]. split.
  - intros id' Hid. now rewrite H3, H1.
  - intros key Hkey. now rewrite H4, H2.
Qed.

Lemma touchesOnly_addConversation (id : string) (keys : list string) :
  frame (touchesOnly id keys) (Store.addConversation id).
Proof.
  apply (frame_external _ (touchesOnly_closed id keys)). intros w.
  unfold touchesOnly, with_store. cbn [fst mongoStore].
  destruct (conversations (mongoStore w) !! id) as [es|]; [now split|].
  split; [|reflexivity]. cbn [conversations set_conversations]. intros id' Hid.
  now rewrite lookup_insert_ne.
Qed.

Lemma touchesOnly_addEntry (id : string) (keys : list string) (e : Entry) :
  frame (touchesOnly id keys) (Store.addEntryToConversation id e).
Proof.
  apply (frame_external _ (touchesOnly_closed id keys)). intros w.
  unfold touchesOnly, with_store. cbn [fst mongoStore].
  destruct (conversations (mongoStore w) !! id) as [es|]; [|now split].
  split; [|reflexivity]. cbn [conversations set_conversations]. intros id' Hid.
  now rewrite lookup_insert_ne.
Qed.

Lemma touchesOnly_loaderCustomSet (id loaderId key : string) (keys : list string)
    (doc : Document) :
  In key keys ->
  frame (touchesOnly id keys) (Store.loaderCustomSet loaderId key doc).
Proof.
  intros Hin. apply (frame_external _ (touchesOnly_closed id keys)). intros w.
  unfold touchesOnly, with_store. cbn [fst mongoStore].
  split; [reflexivity|]. cbn [customData set_customData]. intros key' Hkey.
  rewrite lookup_insert_ne; [reflexivity|]. intros ->. contradiction.
Qed.

Lemma length_append (a b : string) :
  String.length (a +:+ b) = String.length a + String.length b.
Proof. induction a as [|c a IH]; [reflexivity|]. rewrite append_cons. simpl. now rewrite IH. Qed.

Lemma append_inj_r (a b c : string) : a +:+ c = b +:+ c -> a = b.
Proof.
  revert b. induction a as [|x a IH]; intros [|y b] H.
  - reflexivity.
  - exfalso. apply (f_equal String.length) in H.
    rewrite !length_append in H. simpl in H. lia.
  - exfalso. apply (f_equal String.length) in H.
    rewrite !length_append in H. simpl in H. lia.
  - rewrite !append_cons in H. injection H as -> H. f_equal. now apply IH.
Qed.

Lemma memoryKey_inj (u u' : value) :
  MemoryService.memoryKey u' = MemoryService.memoryKey u -> toStr u' = toStr u.
Proof.
  unfold MemoryService.memoryKey. rewrite !append_cons. intros H.
  injection H as H. change ("" +:+ ?x) with x in H.
  now apply append_inj_r in H.
Qed.

(** X18: a request changes at most the conversation stored under the
    text of its user id, the cached response under its own cache key
    and the summary under the memory key of its user id: every other
    conversation and every other document of the store is as before,
    however the request ends.  In particular the summary of a user id
    with another text is never touched.  (The store tells ids apart by
    their text: the number 5 and the string "5" are one user.) *)
Theorem handleQuery_own_data (rt : Runtime) (req : Request) (endpointName : string)
    (w : World) (userQuery userId userName children : value) :
  readRequest req = Normal (userQuery, userId, userName, children) ->
  let w' := fst (handleQuery rt req endpointName w) in
  (forall id, id <> toStr userId ->
     conversations (mongoStore w') !! id = conversations (mongoStore w) !! id)
  /\ (forall key,
        CacheService.generateCacheKey userId userQuery
          (JObj [("name", userName); ("children", children)]) <> Normal key ->
        key <> MemoryService.memoryKey userId ->
        customData (mongoStore w') !! key = customData (mongoStore w) !! key)
  /\ (forall other,
        toStr other <> toStr userId ->
        customData (mongoStore w') !! MemoryService.memoryKey other
        = customData (mongoStore w) !! MemoryService.memoryKey other).
Proof.
  intros Hreq w'.
  set (keys := match CacheService.generateCacheKey userId userQuery
                       (userMetadata userName children) with
               | Normal key => [key; MemoryService.memoryKey userId]
               | Throw _ => [MemoryService.memoryKey userId]
               end).
  assert (touchesOnly (toStr userId) keys w w') as [Hconv Hdata].
  { subst w'. pose proof (touchesOnly_closed (toStr userId) keys) as HR.
    revert w. change (frame (touchesOnly (toStr userId) keys) (handleQuery rt req endpointName)).
    unfold handleQuery. rewrite Hreq.
    apply (frame_bind_eval (touchesOnly (toStr userId) keys)).
    destruct (negb (truthy userQuery)); [apply (frame_ret _ HR)|].
    intros w. destruct (ragApplication w); [|apply (frame_ret _ HR)].
    destruct (promptConfig w) as [config|]; [|apply (frame_ret _ HR)].
    apply (frame_try_catch _ HR); [|intros; apply (frame_ret _ HR)].
    apply (frame_bind _ HR).
    { apply (frame_askModel _ HR). apply touchesOnly_addConversation. }
    intros [cached|out]; [apply (frame_ret _ HR)|].
    apply (frame_bind _ HR); [apply (frame_parseAndProcess _ HR)|]. intros bot.
    apply (frame_bind _ HR); [|intros; apply (frame_ret _ HR)].
    unfold saveConversationAndCache.
    destruct (isValidResponse bot) eqn:Hvalid; [|apply (frame_ret _ HR)].
    apply isValidResponse_answer in Hvalid as (answer & Hanswer & _). rewrite Hanswer.
    apply (frame_bind_eval (touchesOnly (toStr userId) keys)).
    apply (frame_bind _ HR).
    { apply (frame_addConversationEntries _ HR); intros t; apply touchesOnly_addEntry. }
    intros ?. apply (frame_bind _ HR).
    { apply (frame_setCachedResult _ HR). intros key t Hkey.
      apply touchesOnly_loaderCustomSet. subst keys.
      fold (userMetadata userName children) in Hkey. rewrite Hkey. now left. }
    intros ?. apply (frame_bind _ HR); [|intros; apply (frame_ret _ HR)].
    apply (frame_summarizeAndStoreMemory _ HR). intros text t _ _.
    apply touchesOnly_loaderCustomSet. subst keys.
    destruct (CacheService.generateCacheKey _ _ _); [right|]; now left. }
  split; [exact Hconv|]. split.
  - intros key H1 H2. apply Hdata. subst keys.
    fold (userMetadata userName children) in H1.
    destruct (CacheService.generateCacheKey _ _ _) as [k|e].
    + intros [H|[H|[]]]; [apply H1; now rewrite H | apply H2; now rewrite H].
    + intros [H|[]]. apply H2. now rewrite H.
  - intros other Hother. apply Hdata. subst keys.
    destruct (CacheService.generateCacheKey _ _ _) as [k|e] eqn:Hkey.
    + intros [H|[H|[]]].
      * apply generateCacheKey_inv in Hkey as (_ & _ & ->).
        now apply memoryKey_not_cacheKey in H.
      * symmetry in H. now apply memoryKey_inj in H.
    + intros [H|[]]. symmetry in H. now apply memoryKey_inj in H.
Qed.

(** X18 at work. *)
Lemma handleQuery_own_data_witness :
  let reply := JObj [("answer", JStr "Try the rattle."); ("relatedProducts", JArr [])] in
  let w :=
    with_store (set_conversations {[ "u2" := [Example.turn 0] ]})
      (Example.world (JObj [("answer", JStr (Example.jsonText reply))])) in
  let run :=
    handleQuery (Example.knowing [reply]) (Example.post (JObj [("query", JStr "toys?")]))
      "/ask" w in
  conversations (mongoStore (fst run)) !! "u2" = Some [Example.turn 0]
  /\ customData (mongoStore (fst run)) !! "memory:u2:last_summary" = None.
Proof.
  intros reply w run.
  destruct (handleQuery_own_data (Example.knowing [reply])
              (Example.post (JObj [("query", JStr "toys?")])) "/ask" w
              (JStr "toys?") (JStr "default_user") (JStr "") (JArr []) eq_refl)
    as (Hconv & _ & Hmem).
  split.
  - subst run. rewrite (Hconv "u2") by discriminate. reflexivity.
  - subst run. change "memory:u2:last_summary" with (MemoryService.memoryKey (JStr "u2")).
    rewrite (Hmem (JStr "u2")) by discriminate. reflexivity.
Defined.

(** ** The latest exchange in the next prompt *)





(** ** Summaries after a turn without its answer *)

Lemma due_odd (historyEntries : list Entry) :
  Nat.odd (length historyEntries) = true -> due historyEntries = false.
Proof.
  intros Hodd. unfold due. apply andb_false_iff. right. apply Nat.eqb_neq. intros Hmod.
  apply Nat.odd_spec in Hodd as [k Hk].
  apply Nat.Div0.div_exact in Hmod. lia.
Qed.

(** X20: a conversation made of whole exchanges, one turn on its own
    (as a failed second write leaves it), and whole exchanges again has
    an odd number of entries, so no summary is ever due for it:
    [summarizeAndStoreMemory] answers [false] without asking the LLM
    and without touching the store. *)
Theorem no_summary_after_partial_write (userId : value) (promptTemplate : string)
    (w w1 : World) (es later : list Entry) (turn : Entry) :
  memoryService_mongoStore w = true ->
  Store.getConversation (toStr userId) w = (w1, Normal (Some (es ++ turn :: later))) ->
  Nat.even (length es) = true ->
  Nat.even (length later) = true ->
  MemoryService.summarizeAndStoreMemory userId promptTemplate w = (w1, Normal false)
  /\ mongoStore w1 = mongoStore w
  /\ prompts w1 = prompts w.
Proof.
  intros Hms Hget He Hl.
  destruct (getConversation_inv _ _ _ _ Hget) as (Hst & Hpr & _).
  split; [|now split].
  apply (summarize_not_due userId promptTemplate w w1 _ Hms Hget).
  apply due_odd. cbn [historyOf]. rewrite length_app. simpl length.
  apply Nat.even_spec in He as [a Ha], Hl as [b Hb].
  apply Nat.odd_spec. exists (a + b). lia.
Qed.

(** X20 at work. *)
Lemma no_summary_after_partial_write_witness :
  let w :=
    with_store
      (set_conversations {[ "u1" := [Example.turn 0; Example.turn 1; Example.turn 2] ]})
      (Example.world JNull) in
  MemoryService.summarizeAndStoreMemory (JStr "u1")
    (summarizationInstruction Example.config) w = (w, Normal false).
Proof.
  intros w.
  exact (proj1 (no_summary_after_partial_write (JStr "u1")
                  (summarizationInstruction Example.config) w w
                  [Example.turn 0; Example.turn 1] [] (Example.turn 2)
                  eq_refl eq_refl eq_refl eq_refl)).
Defined.

(** ** The embedding script *)

Import GenerateEmbeddings.

Section SubBatch.

Variables MAX_RECORDS_PER_SUB_BATCH MAX_CHARS_PER_API_BATCH : nat.
Variable allRecords : list record.

Let fill := fillSubBatch MAX_CHARS_PER_API_BATCH allRecords.

Lemma recordAt_nat (i : nat) : recordAt allRecords (Z.of_nat i) = nth_error allRecords i.
Proof.
  unfold recordAt. destruct (Z.ltb_spec (Z.of_nat i) 0); [lia|]. now rewrite Nat2Z.id.
Qed.

Lemma batchChars_app (a b : list record) : batchChars (a ++ b) = batchChars a + batchChars b.
Proof. unfold batchChars. now rewrite List.map_app, list_sum_app. Qed.

(** The [for] loop from any state: what it adds is the next records of
    the file, at most one for each round. *)
Lemma fillSubBatch_spec (iterations : nat) :
  forall (subBatchRecords : list record) (i : nat),
  exists added,
    fill iterations subBatchRecords (batchChars subBatchRecords) (Z.of_nat i)
    = Normal (subBatchRecords ++ added, batchChars (subBatchRecords ++ added),
              Z.of_nat (i + length added))
    /\ firstn (length added) (skipn i allRecords) = added
    /\ length added <= iterations
    /\ (length subBatchRecords <= 1 \/ batchChars subBatchRecords <= MAX_CHARS_PER_API_BATCH ->
        length (subBatchRecords ++ added) <= 1
        \/ batchChars (subBatchRecords ++ added) <= MAX_CHARS_PER_API_BATCH)
    /\ (subBatchRecords = [] -> 0 < iterations -> i < length allRecords -> added <> []).
Proof.
  induction iterations as [|n IH]; intros batch i.
  - exists []. rewrite app_nil_r, Nat.add_0_r. simpl. repeat split; auto; lia.
  - cbn [fill fillSubBatch]. unfold fill.  cbn [fillSubBatch].
    destruct (Z.ltb_spec (Z.of_nat i) (Z.of_nat (length allRecords))) as [Hlt|Hge].
    2:{ exists []. rewrite app_nil_r, Nat.add_0_r. simpl. repeat split; auto; lia. }
    rewrite recordAt_nat.
    destruct (nth_error allRecords i) as [r|] eqn:Hr.
    2:{ apply nth_error_None in Hr. lia. }
    assert (skipn i allRecords = r :: skipn (S i) allRecords) as Hskip.
    { clear - Hr. revert i Hr. induction allRecords as [|x l IHl]; intros [|i] H;
        simpl in *; try discriminate; [now inversion H | now apply IHl]. }
    destruct ((0 <? length batch)
              && (MAX_CHARS_PER_API_BATCH <? batchChars batch + recordChars r)) eqn:Hbreak.
    { exists []. rewrite app_nil_r, Nat.add_0_r. simpl. repeat split; auto; try lia.
      intros ->. discriminate. }
    assert (batchChars batch + recordChars r = batchChars (batch ++ [r])) as Hsum.
    { rewrite batchChars_app. unfold batchChars. simpl. lia. }
    rewrite Hsum.
    assert (length (batch ++ [r]) <= 1 \/ batchChars (batch ++ [r]) <= MAX_CHARS_PER_API_BATCH)
      as Hinv.
    { apply andb_false_iff in Hbreak as [H|H].
      - apply Nat.ltb_ge in H. left. rewrite length_app. simpl. lia.
      - apply Nat.ltb_ge in H. right. lia. }
    destruct (MAX_CHARS_PER_API_BATCH <=? batchChars (batch ++ [r])).
    { exists [r]. replace (Z.of_nat i + 1)%Z with (Z.of_nat (i + 1)) by lia.
      split; [reflexivity|]. rewrite Hskip. simpl. repeat split; auto; try lia; try discriminate. }
    replace (Z.of_nat i + 1)%Z with (Z.of_nat (S i)) by lia.
    destruct (IH (batch ++ [r]) (S i)) as (added & Hrun & Hpre & Hlen & Hbound & _).
    fold fill. rewrite Hrun.
    exists (r :: added). rewrite <- app_assoc in *. simpl app in *.
    replace (i + length (r :: added)) with (S i + length added) by (simpl; lia).
    split; [reflexivity|]. rewrite Hskip. simpl. rewrite Hpre.
    repeat split; auto; try lia; try discriminate.
Qed.

End SubBatch.

Lemma prefix_length {A} (added l : list A) :
  firstn (length added) l = added -> l = added ++ skipn (length added) l.
Proof. intros H. rewrite <- H at 1. symmetry. apply firstn_skipn. Qed.

Lemma prefix_short {A} (added l : list A) :
  firstn (length added) l = added -> length added <= length l.
Proof.
  intros H. apply (f_equal (@length A)) in H. rewrite length_firstn in H. lia.
Qed.

Lemma firstn_extend {A} (l done rest : list A) (n : nat) :
  done = firstn n l ->
  n <= length l ->
  skipn n l = rest ++ skipn (n + length rest) l ->
  done ++ rest = firstn (n + length rest) l.
Proof.
  intros Hdone Hn Hrest.
  assert (l = (done ++ rest) ++ skipn (n + length rest) l) as Hl.
  { rewrite <- app_assoc, <- Hrest, Hdone. symmetry. apply firstn_skipn. }
  assert (length (done ++ rest) = n + length rest) as Hlen.
  { rewrite length_app, Hdone, length_firstn. lia. }
  rewrite Hl at 1. rewrite <- Hlen, firstn_app, Nat.sub_diag, firstn_all. simpl.
  now rewrite app_nil_r.
Qed.

Section SubBatchTheorem.

Variables MAX_RECORDS_PER_SUB_BATCH MAX_CHARS_PER_API_BATCH : nat.

(** X14: with a positive [MAX_RECORDS_PER_SUB_BATCH] and a record left,
    the [for] loop of the script gives a sub-batch that is not empty:
    the next records of the file, in their order, at most
    [MAX_RECORDS_PER_SUB_BATCH] of them, and within
    [MAX_CHARS_PER_API_BATCH] characters unless the sub-batch is a
    single record.  A record that is as long as the limit or longer is
    a sub-batch on its own, so the branch that skips a record as too
    large is never taken. *)
Theorem sub_batch_never_empty (allRecords : list record) (i : nat) :
  0 < MAX_RECORDS_PER_SUB_BATCH ->
  i < length allRecords ->
  exists subBatchRecords,
    fillSubBatch MAX_CHARS_PER_API_BATCH allRecords MAX_RECORDS_PER_SUB_BATCH [] 0 (Z.of_nat i)
    = Normal (subBatchRecords, batchChars subBatchRecords,
              Z.of_nat (i + length subBatchRecords))
    /\ subBatchRecords <> []
    /\ firstn (length subBatchRecords) (skipn i allRecords) = subBatchRecords
    /\ length subBatchRecords <= MAX_RECORDS_PER_SUB_BATCH
    /\ (length subBatchRecords = 1
        \/ batchChars subBatchRecords <= MAX_CHARS_PER_API_BATCH)
    /\ (forall r,
          nth_error allRecords i = Some r ->
          MAX_CHARS_PER_API_BATCH <= recordChars r ->
          subBatchRecords = [r]).
Proof.
  intros Hmax Hi.
  destruct (fillSubBatch_spec MAX_CHARS_PER_API_BATCH allRecords
              MAX_RECORDS_PER_SUB_BATCH [] i)
    as (batch & Hfill & Hpre & Hlen & Hbound & Hne).
  exists batch. specialize (Hne eq_refl Hmax Hi).
  split; [exact Hfill|]. split; [exact Hne|]. split; [exact Hpre|]. split; [exact Hlen|].
  assert (length batch = 1 \/ batchChars batch <= MAX_CHARS_PER_API_BATCH) as Hb.
  { destruct (Hbound ltac:(left; simpl; lia)) as [H|H]; [left | now right].
    destruct batch; [contradiction | simpl in *; lia]. }
  split; [exact Hb|].
  intros r Hr Hbig.
  (* the way the loop runs on its first round *)
  destruct MAX_RECORDS_PER_SUB_BATCH as [|n]; [lia|]. cbn [fillSubBatch] in Hfill.
  destruct (Z.ltb_spec (Z.of_nat i) (Z.of_nat (length allRecords))); [|lia].
  rewrite recordAt_nat, Hr in Hfill. cbn [length Nat.ltb Nat.leb andb app] in Hfill.
  change (batchChars []) with 0 in Hfill. cbn [Nat.add] in Hfill.
  destruct (Nat.leb_spec MAX_CHARS_PER_API_BATCH (recordChars r)); [|lia].
  now inversion Hfill.
Qed.

End SubBatchTheorem.

(** The theorem at work. *)
Lemma sub_batch_never_empty_witness :
  exists subBatchRecords,
    fillSubBatch 100 [Catalogue.rattle; Catalogue.teddy; Catalogue.ball] 2 [] 0 0
    = Normal (subBatchRecords, batchChars subBatchRecords,
              Z.of_nat (0 + length subBatchRecords))
    /\ subBatchRecords <> []
    /\ length subBatchRecords <= 2.
Proof.
  destruct (sub_batch_never_empty 2 100 [Catalogue.rattle; Catalogue.teddy; Catalogue.ball] 0)
    as (b & H1 & H2 & _ & H3 & _); [lia | simpl; lia |].
  exists b. auto.
Defined.

Section Loop.

Variables MAX_RECORDS_PER_SUB_BATCH MAX_CHARS_PER_API_BATCH : nat.
Variable allRecords : list record.
Variable h : string.

(** One batch with a working disk: either it is loaded and the progress
    saved, or the RAG library has thrown and nothing has changed. *)
Lemma processBatch_spec (batchNumber : nat) (subBatchRecords : list record)
    (currentRecordIndex : Z) (d : Disk) :
  diskFaults d = [] ->
  batchFiles d = ∅ ->
  exists d' r,
    processBatch h batchNumber subBatchRecords currentRecordIndex d = (d', r)
    /\ diskFaults d' = [] /\ batchFiles d' = ∅ /\ csvFile d' = csvFile d
    /\ match r with
       | Normal _ =>
           loaded d' = loaded d ++ [batchFileContent h subBatchRecords]
           /\ progressFile d' = Saved (currentRecordIndex - 1)
       | Throw e =>
           loaded d' = loaded d /\ progressFile d' = progressFile d
           /\ exists rest, serviceFaults d = Some e :: rest
       end.
Proof.
  intros Hf Hb. destruct d as [td csv pf bf ld df sf]. simpl in Hf, Hb. subst df bf.
  unfold processBatch, bind, writeBatchFile, readBatchFile, fs. simpl.
  rewrite lookup_insert_eq. simpl.
  unfold try_finally, try_catch, bind, addLoader, service. simpl.
  rewrite lookup_insert_eq.
  destruct sf as [|[e|] rest]; simpl;
    rewrite ?lookup_insert_eq; simpl;
    rewrite delete_insert_id by apply lookup_empty;
    eexists _, _; (split; [reflexivity|]); simpl; eauto 10.
Qed.

(** The [while] loop with a working disk. *)
Lemma batches_spec (fuel : nat) :
  forall (batchNumber i : nat) (d : Disk),
    0 < MAX_RECORDS_PER_SUB_BATCH ->
    diskFaults d = [] ->
    batchFiles d = ∅ ->
    i <= length allRecords ->
    length allRecords - i < fuel ->
    exists d' r bs,
      batches MAX_RECORDS_PER_SUB_BATCH MAX_CHARS_PER_API_BATCH allRecords
        fuel h batchNumber (Z.of_nat i) d = Some (d', r)
      /\ loaded d' = loaded d ++ List.map (batchFileContent h) bs
      /\ skipn i allRecords
         = concat bs ++ skipn (i + length (concat bs)) allRecords
      /\ Forall (wellFormed MAX_RECORDS_PER_SUB_BATCH MAX_CHARS_PER_API_BATCH) bs
      /\ progressFile d'
         = match bs with
           | [] => progressFile d
           | _ :: _ => Saved (Z.of_nat (i + length (concat bs)) - 1)
           end
      /\ (r = Normal tt -> i + length (concat bs) = length allRecords)
      /\ diskFaults d' = [] /\ batchFiles d' = ∅ /\ csvFile d' = csvFile d.
Proof.
  induction fuel as [|fuel IH]; intros bn i d Hmax Hf Hb Hi Hfuel; [lia|].
  cbn [batches].
  destruct (Z.ltb_spec (Z.of_nat i) (Z.of_nat (length allRecords))) as [Hlt|Hge].
  2:{ exists d, (Normal tt), []. simpl. rewrite app_nil_r, Nat.add_0_r.
      repeat split; auto. lia. }
  destruct (fillSubBatch_spec MAX_CHARS_PER_API_BATCH allRecords
              MAX_RECORDS_PER_SUB_BATCH [] i)
    as (batch & Hfill & Hpre & Hlen & Hbound & Hne).
  change (batchChars []) with 0 in Hfill. simpl app in Hfill, Hbound. rewrite Hfill.
  specialize (Hne eq_refl Hmax ltac:(lia)).
  destruct batch as [|r0 batch0] eqn:Hbatch; [contradiction|]. rewrite <- Hbatch in *.
  assert ((length batch =? 0) = false) as -> by (apply Nat.eqb_neq; subst batch; simpl; lia).
  pose proof (prefix_short _ _ Hpre) as Hshort. rewrite length_skipn in Hshort.
  apply prefix_length in Hpre. rewrite skipn_skipn in Hpre.
  destruct (processBatch_spec (S bn) batch (Z.of_nat (i + length batch)) d Hf Hb)
    as (d1 & r1 & Hrun & Hf1 & Hb1 & Hcsv1 & Hr1).
  rewrite Hrun. destruct r1 as [[]|e].
  - destruct Hr1 as [Hld Hpf].
    destruct (IH (S bn) (i + length batch) d1 Hmax Hf1 Hb1)
      as (d' & r & bs & Hloop & Hld' & Hrest & Hwf & Hpf' & Hdone & Hf' & Hb' & Hcsv');
      [lia | subst batch; simpl length in *; lia |].
    exists d', r, (batch :: bs). rewrite Hloop. split; [reflexivity|].
    cbn [concat List.map]. rewrite length_app, <- app_assoc, Nat.add_assoc.
    split; [rewrite Hld', Hld, <- app_assoc; reflexivity|].
    split; [rewrite Hpre at 1; f_equal; rewrite Nat.add_comm; exact Hrest|].
    split.
    { constructor; [|assumption]. repeat split; [now subst batch | assumption|].
      destruct (Hbound ltac:(left; simpl; lia)) as [H|H]; [left | now right].
      subst batch. simpl in *. lia. }
    split.
    { rewrite Hpf'. destruct bs; [|reflexivity].
      simpl. rewrite Hpf. now rewrite Nat.add_0_r. }
    repeat split; try assumption; congruence.
  - destruct Hr1 as (Hld & Hpf & _).
    exists d1, (Throw e), []. simpl. rewrite app_nil_r, Nat.add_0_r.
    repeat split; auto. discriminate.
Qed.

End Loop.

Section Runs.

Variables MAX_RECORDS_PER_SUB_BATCH MAX_CHARS_PER_API_BATCH : nat.

Hypothesis positive : 0 < MAX_RECORDS_PER_SUB_BATCH.

Lemma batches_total (allRecords : list record) (h : string) (fuel : nat) :
  forall (batchNumber i : nat) (d : Disk),
    i <= length allRecords ->
    length allRecords - i < fuel ->
    exists result,
      batches MAX_RECORDS_PER_SUB_BATCH MAX_CHARS_PER_API_BATCH allRecords
        fuel h batchNumber (Z.of_nat i) d = Some result.
Proof.
  induction fuel as [|fuel IH]; intros bn i d Hi Hfuel; [lia|].
  cbn [batches].
  destruct (Z.ltb_spec (Z.of_nat i) (Z.of_nat (length allRecords))) as [Hlt|Hge]; [|eauto].
  destruct (fillSubBatch_spec MAX_CHARS_PER_API_BATCH allRecords
              MAX_RECORDS_PER_SUB_BATCH [] i)
    as (batch & Hfill & Hpre & _ & _ & Hne).
  change (batchChars []) with 0 in Hfill. simpl app in Hfill. rewrite Hfill.
  specialize (Hne eq_refl positive ltac:(lia)).
  destruct batch as [|r0 batch0] eqn:Hbatch; [contradiction|]. rewrite <- Hbatch in *.
  assert ((length batch =? 0) = false) as -> by (apply Nat.eqb_neq; subst batch; simpl; lia).
  pose proof (prefix_short _ _ Hpre) as Hshort. rewrite length_skipn in Hshort.
  destruct (processBatch h (S bn) batch (Z.of_nat (i + length batch)) d) as [d1 [[]|e]];
    [|eauto].
  apply IH; [lia | subst batch; simpl length in *; lia].
Qed.

Lemma batches_negative (allRecords : list record) (h : string) (fuel batchNumber : nat)
    (currentRecordIndex : Z) (d : Disk) :
  (currentRecordIndex < 0)%Z ->
  exists e,
    batches MAX_RECORDS_PER_SUB_BATCH MAX_CHARS_PER_API_BATCH allRecords
      (S fuel) h batchNumber currentRecordIndex d = Some (d, Throw e).
Proof.
  intros Hneg. cbn [batches].
  destruct (Z.ltb_spec currentRecordIndex (Z.of_nat (length allRecords))); [|lia].
  destruct MAX_RECORDS_PER_SUB_BATCH as [|n]; [lia|]. cbn [fillSubBatch].
  destruct (Z.ltb_spec currentRecordIndex (Z.of_nat (length allRecords))); [|lia].
  unfold recordAt. destruct (Z.ltb_spec currentRecordIndex 0); [|lia]. eauto.
Qed.

(** X15: with a positive [MAX_RECORDS_PER_SUB_BATCH], the loop of
    [generateEmbeddings] comes to its end within as many rounds as the
    CSV file has rows, plus one, whatever the progress file holds and
    whichever calls throw: every round either ends the run or moves on
    by at least one record. *)
Theorem generateEmbeddings_total (fuel : nat) (d : Disk) :
  length (csvFile d) < fuel ->
  exists d' done,
    generateEmbeddings MAX_RECORDS_PER_SUB_BATCH MAX_CHARS_PER_API_BATCH fuel d
    = Some (d', done).
Proof.
  intros Hfuel. unfold generateEmbeddings, embed.
  destruct (if tempDir d then ret tt d else mkdirSync d) as [d1 [[]|e]] eqn:E1; [|eauto].
  destruct (build d1) as [d2 [[]|e]] eqn:E2; [|eauto].
  destruct (readRecords d2) as [d3 [allRecords|e]] eqn:E3; [|eauto].
  destruct (readLastProcessedRecordIndex d3) as [d4 [last|e]] eqn:E4; [|eauto].
  destruct (_ && _); [eauto|].
  destruct (String.eqb (header allRecords) ""); [eauto|].
  assert (length allRecords <= length (csvFile d)) as Hlen.
  { assert (csvFile d1 = csvFile d) as H1.
    { destruct (tempDir d); [now inversion E1|].
      unfold mkdirSync, fs in E1. destruct (diskFaults d) as [|[x|] rest]; now inversion E1. }
    assert (csvFile d2 = csvFile d1) as H2.
    { unfold build, service in E2.
      destruct (serviceFaults d1) as [|[x|] rest]; now inversion E2. }
    unfold readRecords, fs in E3.
    destruct (diskFaults d2) as [|[x|] rest]; inversion E3; subst; simpl; try lia;
      rewrite <- ?H1, <- ?H2; simpl; lia. }
  destruct (Z.ltb_spec (last + 1) 0) as [Hneg|Hpos].
  - destruct fuel as [|fuel]; [lia|].
    destruct (batches_negative allRecords (header allRecords) fuel 0 (last + 1) d4 Hneg)
      as [e ->]. eauto.
  - destruct (Z.ltb_spec (last + 1) (Z.of_nat (length allRecords))) as [Hlt|Hge].
    + destruct (batches_total allRecords (header allRecords) fuel 0 (Z.to_nat (last + 1)) d4)
        as [[d5 [[]|e]] H]; [lia | lia | |];
        rewrite Z2Nat.id in H by lia; rewrite H; eauto.
    + destruct fuel as [|fuel]; [lia|]. cbn [batches].
      destruct (Z.ltb_spec (last + 1) (Z.of_nat (length allRecords))); [lia|]. eauto.
Qed.

End Runs.

(** The theorem at work. *)
Lemma generateEmbeddings_total_witness :
  exists d' done, generateEmbeddings 2 100 4 Catalogue.firstRun = Some (d', done).
Proof. apply generateEmbeddings_total; [lia | simpl; lia]. Defined.

Section ExactlyOnce.

Variables MAX_RECORDS_PER_SUB_BATCH MAX_CHARS_PER_API_BATCH : nat.

(** X16: as long as the file system works, a run of
    [generateEmbeddings] keeps this invariant, whatever the RAG library
    does: the batches loaded so far are, in their order, exactly the
    records before the one the progress file points at, each record
    once.  The batches a run adds are well formed, no temporary batch
    file is left behind, and a run that answers [true] has loaded every
    record of the file.  So a run that is interrupted by an error and
    started again loads each record exactly once. *)
Theorem generateEmbeddings_exactly_once (fuel : nat) (d : Disk)
    (bs : list (list record)) (n : nat) :
  0 < MAX_RECORDS_PER_SUB_BATCH ->
  diskFaults d = [] ->
  batchFiles d = ∅ ->
  header (csvFile d) <> "" ->
  nextRecord (progressFile d) = Z.of_nat n ->
  n <= length (csvFile d) ->
  loaded d = List.map (batchFileContent (header (csvFile d))) bs ->
  concat bs = firstn n (csvFile d) ->
  length (csvFile d) < fuel ->
  exists d' done bs' n',
    generateEmbeddings MAX_RECORDS_PER_SUB_BATCH MAX_CHARS_PER_API_BATCH fuel d
    = Some (d', done)
    /\ csvFile d' = csvFile d /\ diskFaults d' = [] /\ batchFiles d' = ∅
    /\ nextRecord (progressFile d') = Z.of_nat n' /\ n' <= length (csvFile d)
    /\ loaded d' = List.map (batchFileContent (header (csvFile d))) (bs ++ bs')
    /\ concat (bs ++ bs') = firstn n' (csvFile d)
    /\ Forall (wellFormed MAX_RECORDS_PER_SUB_BATCH MAX_CHARS_PER_API_BATCH) bs'
    /\ (done = true -> concat (bs ++ bs') = csvFile d).
Proof.
  intros Hmax Hf Hb Hh Hnext Hn Hld Hbs Hfuel.
  set (allRecords := csvFile d) in *.
  (* the steps before the loop *)
  assert (exists d1,
            (if tempDir d then ret tt d else mkdirSync d) = (d1, Normal tt)
            /\ csvFile d1 = allRecords /\ diskFaults d1 = [] /\ batchFiles d1 = ∅
            /\ progressFile d1 = progressFile d /\ loaded d1 = loaded d
            /\ serviceFaults d1 = serviceFaults d) as (d1 & E1 & C1 & F1 & B1 & P1 & L1 & S1).
  { destruct (tempDir d); [exists d; auto 10|].
    unfold mkdirSync, fs. rewrite Hf. eexists. split; [reflexivity|]. simpl. auto 10. }
  unfold generateEmbeddings, embed. rewrite E1.
  destruct (build d1) as [d2 [[]|e]] eqn:E2.
  2:{ unfold build, service in E2.
      destruct (serviceFaults d1) as [|[x|] rest]; inversion E2; subst; clear E2.
      eexists _, false, [], n. split; [reflexivity|]. simpl. rewrite app_nil_r.
      repeat split; try assumption; try congruence; try (now constructor). }
  assert (csvFile d2 = allRecords /\ diskFaults d2 = [] /\ batchFiles d2 = ∅
          /\ progressFile d2 = progressFile d /\ loaded d2 = loaded d)
    as (C2 & F2 & B2 & P2 & L2).
  { unfold build, service in E2.
    destruct (serviceFaults d1) as [|[x|] rest]; inversion E2; subst; simpl; auto. }
  unfold readRecords, fs. rewrite F2, C2.
  assert (readLastProcessedRecordIndex d2 = (d2, Normal (Z.of_nat n - 1)%Z)) as ->.
  { unfold readLastProcessedRecordIndex, try_catch, bind, fs, ret. rewrite F2.
    rewrite P2. unfold nextRecord in Hnext.
    destruct (progressFile d) as [| |k]; simpl; repeat f_equal; lia. }
  replace (Z.of_nat n - 1 + 1)%Z with (Z.of_nat n) by lia.
  destruct (negb _ && _) eqn:Hearly.
  { (* everything has been processed already *)
    apply andb_prop in Hearly as [_ Hearly]. apply andb_prop in Hearly as [Hge _].
    apply Z.leb_le in Hge. assert (n = length allRecords) as Hall by lia.
    exists d2, true, [], n. split; [reflexivity|]. rewrite app_nil_r.
    repeat split; try assumption; try congruence; try (now constructor).
    intros _. rewrite Hbs, Hall. apply firstn_all. }
  apply String.eqb_neq in Hh. rewrite Hh.
  destruct (batches_spec MAX_RECORDS_PER_SUB_BATCH MAX_CHARS_PER_API_BATCH allRecords
              (header allRecords) fuel 0 n d2 Hmax F2 B2 Hn ltac:(lia))
    as (d' & r & bs' & Hloop & Hld' & Hrest & Hwf & Hpf & Hdone & Hf' & Hb' & Hcsv').
  rewrite Hloop.
  assert (n + length (concat bs') <= length allRecords) as Hn'.
  { apply (f_equal (@length record)) in Hrest.
    rewrite length_app, !length_skipn in Hrest. lia. }
  assert (nextRecord (progressFile d') = Z.of_nat (n + length (concat bs'))) as Hnext'.
  { rewrite Hpf. destruct bs' as [|b bs'].
    - simpl. rewrite Nat.add_0_r. congruence.
    - unfold nextRecord. lia. }
  assert (concat (bs ++ bs') = firstn (n + length (concat bs')) allRecords) as Hall.
  { rewrite concat_app. now apply firstn_extend. }
  exists d', (match r with Normal _ => true | Throw _ => false end), bs',
    (n + length (concat bs')).
  split; [now destruct r as [[]|]|].
  repeat split; try assumption; try congruence.
  - rewrite Hld', L2, Hld. now rewrite List.map_app.
  - intros Hok. destruct r as [[]|]; [|discriminate].
    rewrite Hall, (Hdone eq_refl). apply firstn_all.
Qed.

End ExactlyOnce.

(** The theorem at work: the second batch fails, the first one is
    loaded, and the progress file points at its last record. *)
Lemma generateEmbeddings_exactly_once_witness :
  exists d' done bs' n',
    generateEmbeddings 2 100 4 Catalogue.firstRun = Some (d', done)
    /\ nextRecord (progressFile d') = Z.of_nat n'
    /\ loaded d' = List.map (batchFileContent "sku,name") bs'
    /\ concat bs' = firstn n' [Catalogue.rattle; Catalogue.teddy; Catalogue.ball].
Proof.
  destruct (generateEmbeddings_exactly_once 2 100 4 Catalogue.firstRun [] 0)
    as (d' & done & bs' & n' & H1 & _ & _ & _ & H2 & _ & H3 & H4 & _);
    [lia | reflexivity | reflexivity | discriminate | reflexivity | simpl; lia
    | reflexivity | reflexivity | simpl; lia |].
  exists d', done, bs', n'. auto.
Defined.

(** ** The quoting of CSV values *)

Lemma doubleQuotes_inj (a b : string) : doubleQuotes a = doubleQuotes b -> a = b.
Proof.
  revert b. induction a as [|c a IH]; intros [|c' b]; simpl; try reflexivity.
  - destruct (Ascii.eqb c' (ascii_of_nat 34)); discriminate.
  - destruct (Ascii.eqb c (ascii_of_nat 34)); discriminate.
  - destruct (Ascii.eqb_spec c (ascii_of_nat 34)) as [->|Hc],
             (Ascii.eqb_spec c' (ascii_of_nat 34)) as [->|Hc'].
    + intros [= H]. f_equal. now apply IH.
    + intros [= H1 H2]. now subst.
    + intros [= H1 H2]. now subst.
    + intros [= -> H]. f_equal. now apply IH.
Qed.

(** X17: the quoting of the values of a CSV line loses nothing: two
    values with the same quoted text are the same value. *)
Theorem csvValue_inj (a b : string) : csvValue a = csvValue b -> a = b.
Proof.
  unfold csvValue.
  destruct (Str.includes "," a || Str.includes Str.dquote a || Str.includes Str.nl a) eqn:Ha,
    (Str.includes "," b || Str.includes Str.dquote b || Str.includes Str.nl b) eqn:Hb;
    intros H.
  - apply doubleQuotes_inj. apply (append_inj_r _ _ Str.dquote).
    unfold Str.dquote in *. rewrite !append_cons in H. now injection H.
  - exfalso. apply orb_false_iff in Hb as [Hb _]. apply orb_false_iff in Hb as [_ Hb].
    rewrite <- H, includes_prefix in Hb. discriminate.
  - exfalso. apply orb_false_iff in Ha as [Ha _]. apply orb_false_iff in Ha as [_ Ha].
    rewrite H, includes_prefix in Ha. discriminate.
  - exact H.
Qed.

(** X17 at work: a value with a comma. *)
Lemma csvValue_inj_witness :
  csvValue "Teddy, brown" = csvValue "Teddy, brown" /\ "Teddy, brown" = "Teddy, brown".
Proof. split; [reflexivity | apply csvValue_inj; reflexivity]. Defined.

(** ** A progress file that does not fit the CSV file *)

Section StaleProgress.

Variables MAX_RECORDS_PER_SUB_BATCH MAX_CHARS_PER_API_BATCH : nat.


End StaleProgress.

